(** * SunSpec gateway: device session, polling engine and REST facade

    A shallow embedding of [src/sunspec_client.py] (class [SunSpecClient]),
    [src/gateway.py] (class [SunSpecGateway] and its routes) and the parts of
    [src/config.py] they read.

    Python objects are records that are threaded through a small state and
    exception monad; the device library (pySunSpec2), the wall clock and the
    asyncio task table form the [World].  What the physical device answers
    is given by an oracle [Env] indexed by the clock, so every definition
    can be evaluated on a concrete scenario.

    A request handler, a lifespan hook and one pass through the body of
    the polling loop each run as one step: the coroutines are interleaved
    at the sleeps of the polling loop, not at the awaits inside a step. *)

From stdpp Require Import base option list strings gmap fin_maps pretty.
From Stdlib Require Import ZArith Lia.

Local Open Scope string_scope.
Local Open Scope Z_scope.
Local Open Scope list_scope.

(** ** Configuration ([src/config.py]) *)

Record TCPConfig := {
  tcp_host : string;
  tcp_port : Z;
  tcp_slave_id : Z;
  tcp_timeout : Z }.

Record RTUConfig := {
  rtu_port : string;
  rtu_baudrate : Z;
  rtu_bytesize : Z;
  rtu_parity : string;
  rtu_stopbits : Z;
  rtu_slave_id : Z;
  rtu_timeout : Z }.

Record InverterConfig := {
  connection_type : string;
  tcp : option TCPConfig;
  rtu : option RTUConfig }.

Record DataCollectionConfig := {
  poll_interval : Z;
  models_to_read : list Z;
  max_retries : Z;
  retry_delay : Z }.

(** [Config] also carries gateway, server and logging sections; none of the
    modelled methods reads them. *)
Record Config := {
  inverter : InverterConfig;
  data_collection : DataCollectionConfig }.

(** [DataCollectionConfig()] with every field at its default. *)
Definition default_data_collection : DataCollectionConfig :=
  {| poll_interval := 30; models_to_read := [1; 103; 160; 113];
     max_retries := 3; retry_delay := 5 |}.

(** [get_default_config()] *)
Definition get_default_config : Config :=
  {| inverter := {| connection_type := "tcp";
                    tcp := Some {| tcp_host := "192.168.1.100"; tcp_port := 502;
                                   tcp_slave_id := 1; tcp_timeout := 10 |};
                    rtu := None |};
     data_collection := default_data_collection |}.

(** ** Objects of the device library *)

Inductive PyValue := PyInt (n : Z) | PyStr (s : string).

(** A point of a model.  [value] is [Some v] when the attribute exists and
    is not [None]; likewise [cvalue] (the scaled value). *)
Record PointObj := {
  value : option PyValue;
  cvalue : option PyValue }.

(** A repeating group; [g_points] is [None] when the object has no
    [points] attribute. *)
Record GroupObj := { g_points : option (list (string * PointObj)) }.

(** An entry of [model.groups]: a list of groups, or something else. *)
Inductive GroupsEntry := GroupList (l : list GroupObj) | GroupOther.

Record ModelObj := {
  model_name : option string;
  points : option (list (string * PointObj));
  groups : option (list (string * GroupsEntry)) }.

(** [device.models] is keyed by model id and by model name. *)
Abbreviation ModelKey := (Z + string)%type.

Inductive TransportParams := TCP (cfg : TCPConfig) | RTU (cfg : RTUConfig).

Record Device := {
  dev_params : TransportParams;
  dev_models : gmap ModelKey (list ModelObj) }.

(** ** Readings *)

(** A value of the [points] dictionary built by [read_model]: a point value
    or, under a group name, the list of the groups' point dictionaries. *)
Inductive PointsValue :=
  | PVal (v : PyValue)
  | PGroups (l : list (gmap string PyValue)).

(** The four-key dictionary returned by a successful [read_model]. *)
Record Reading := {
  r_model_id : Z;
  r_model_name : string;
  r_points : gmap string PointsValue;
  r_timestamp : Z }.

(** What [read_model] returns: [{}] or a reading. *)
Inductive ModelData := EmptyDict | ReadingDict (r : Reading).

(** [data is None]: a dictionary never is. *)
Definition is_None (d : ModelData) : bool := false.

(** [f"model_{model_id}"] and [f"Model_{model_id}"] *)
Definition model_key (model_id : Z) : string := "model_" +:+ pretty model_id.
Definition default_model_name (model_id : Z) : string := "Model_" +:+ pretty model_id.

(** ** The world: clock, event trace, asyncio tasks *)

Inductive LogLevel := INFO | WARNING | ERROR.

Inductive Event :=
  | EvLog (lvl : LogLevel)
  | EvOpen (p : TransportParams) (ok : bool)   (* device object constructed *)
  | EvScan (ok : bool)                          (* device.scan() *)
  | EvRead (model_id : Z) (ok : bool)           (* model.read() *)
  | EvClose (ok : bool)                         (* device.close() *)
  | EvCreateTask (tid : nat)                    (* asyncio.create_task *)
  | EvCancel (tid : nat)                        (* task.cancel() *)
  | EvAwaitTask (tid : nat)                     (* await task *)
  | EvTaskDone (tid : nat)                      (* the task's coroutine ended *)
  | EvSleep (secs : Z).                         (* asyncio.sleep *)

Global Instance TCPConfig_eq_dec : EqDecision TCPConfig.
Proof. solve_decision. Defined.
Global Instance RTUConfig_eq_dec : EqDecision RTUConfig.
Proof. solve_decision. Defined.
Global Instance TransportParams_eq_dec : EqDecision TransportParams.
Proof. solve_decision. Defined.
Global Instance LogLevel_eq_dec : EqDecision LogLevel.
Proof. solve_decision. Defined.
Global Instance Event_eq_dec : EqDecision Event.
Proof. solve_decision. Defined.

(** Where the polling coroutine is parked between two runs. *)
Inductive Suspension := AtStart | InIntervalSleep | InBackoffSleep.

Inductive TaskState :=
  | Suspended (at_ : Suspension) (must_cancel : bool)
  | Finished (cancelled : bool).

Record World := {
  clock : Z;
  trace : list Event;
  tasks : list TaskState }.

(** What the device does, by the time it is asked. *)
Record Env := {
  env_open : Z → TransportParams → bool;
  env_scan : Z → option (gmap ModelKey (list ModelObj));
  env_read : Z → Z → option ModelObj;
  env_close : Z → bool }.

(** ** State and exception monad *)

Inductive Exn :=
  | SunSpecDeviceError
  | HTTPException (status_code : Z)
  | CancelledError
  | LibraryError.

(** [except Exception] does not catch [asyncio.CancelledError], which
    derives from [BaseException]. *)
Definition is_Exception (e : Exn) : bool :=
  match e with CancelledError => false | _ => true end.

Inductive Result (A : Type) :=
  | Ok (a : A)
  | Raise (e : Exn)
  | Hang.   (* an await that is never resumed *)
Arguments Ok {A} a.
Arguments Raise {A} e.
Arguments Hang {A}.

Definition M (S A : Type) : Type := S → World → Result A * S * World.

Definition ret {S A} (a : A) : M S A := λ s w, (Ok a, s, w).

Definition bind {S A B} (m : M S A) (k : A → M S B) : M S B :=
  λ s w, match m s w with
         | (Ok a, s', w') => k a s' w'
         | (Raise e, s', w') => (Raise e, s', w')
         | (Hang, s', w') => (Hang, s', w')
         end.

Definition raise {S A} (e : Exn) : M S A := λ s w, (Raise e, s, w).

(** [try: m] followed by [except] clauses: [h e] is the clause that
    matches [e], if there is one. *)
Definition try_with {S A} (m : M S A) (h : Exn → option (M S A)) : M S A :=
  λ s w, match m s w with
         | (Raise e, s', w') =>
             match h e with
             | Some handler => handler s' w'
             | None => (Raise e, s', w')
             end
         | r => r
         end.

(** [try: m except Exception as e: h e] *)
Definition try_except {S A} (m : M S A) (h : Exn → M S A) : M S A :=
  try_with m (λ e, if is_Exception e then Some (h e) else None).

(** [try: m finally: f] *)
Definition try_finally {S A} (m : M S A) (f : M S unit) : M S A :=
  λ s w, match m s w with
         | (Hang, s', w') => (Hang, s', w')
         | (r, s', w') =>
             match f s' w' with
             | (Ok _, s'', w'') => (r, s'', w'')
             | (Raise e, s'', w'') => (Raise e, s'', w'')
             | (Hang, s'', w'') => (Hang, s'', w'')
             end
         end.

Definition get {S} : M S S := λ s w, (Ok s, s, w).
Definition modify {S} (f : S → S) : M S unit := λ s w, (Ok tt, f s, w).
Definition get_world {S} : M S World := λ s w, (Ok w, s, w).
Definition modify_world {S} (f : World → World) : M S unit := λ s w, (Ok tt, s, f w).

Global Instance M_ret {S} : MRet (M S) := λ A, ret.
Global Instance M_bind {S} : MBind (M S) := λ A B k m, bind m k.

Definition emit {S} (e : Event) : M S unit :=
  modify_world (λ w, {| clock := clock w; trace := trace w ++ [e]; tasks := tasks w |}).

Definition advance {S} (d : Z) : M S unit :=
  modify_world (λ w, {| clock := clock w + d; trace := trace w; tasks := tasks w |}).

(** [datetime.now()] *)
Definition now {S} : M S Z := w ← get_world; ret (clock w).

Definition log {S} (lvl : LogLevel) : M S unit := emit (EvLog lvl).

(** [await asyncio.sleep(secs)]; the clock is logical and only device
    operations move it. *)
Definition sleep {S} (secs : Z) : M S unit := emit (EvSleep secs).

(** [for x in xs: body x] *)
Fixpoint for_each {S A} (xs : list A) (body : A → M S unit) : M S unit :=
  match xs with
  | [] => ret tt
  | x :: xs' => body x;; for_each xs' body
  end.

(** ** The client ([src/sunspec_client.py]) *)

Record SunSpecClient := {
  config : Config;
  device : option Device;
  is_connected : bool;
  last_read_time : option Z;
  cached_data : gmap string Reading;
  available_models : gmap Z string }.

(** [SunSpecClient.__init__] *)
Definition SunSpecClient_init (cfg : Config) : SunSpecClient :=
  {| config := cfg; device := None; is_connected := false;
     last_read_time := None; cached_data := ∅; available_models := ∅ |}.

Definition set_device (d : option Device) (c : SunSpecClient) : SunSpecClient :=
  {| config := config c; device := d; is_connected := is_connected c;
     last_read_time := last_read_time c; cached_data := cached_data c;
     available_models := available_models c |}.

Definition set_is_connected (b : bool) (c : SunSpecClient) : SunSpecClient :=
  {| config := config c; device := device c; is_connected := b;
     last_read_time := last_read_time c; cached_data := cached_data c;
     available_models := available_models c |}.

Definition set_last_read_time (t : option Z) (c : SunSpecClient) : SunSpecClient :=
  {| config := config c; device := device c; is_connected := is_connected c;
     last_read_time := t; cached_data := cached_data c;
     available_models := available_models c |}.

Definition set_cached_data (d : gmap string Reading) (c : SunSpecClient) : SunSpecClient :=
  {| config := config c; device := device c; is_connected := is_connected c;
     last_read_time := last_read_time c; cached_data := d;
     available_models := available_models c |}.

Definition set_available_models (m : gmap Z string) (c : SunSpecClient) : SunSpecClient :=
  {| config := config c; device := device c; is_connected := is_connected c;
     last_read_time := last_read_time c; cached_data := cached_data c;
     available_models := m |}.

(** The value a point contributes to [points_data]: nothing when its
    [value] is [None], otherwise [cvalue] if there is one, else [value]. *)
Definition point_value (p : PointObj) : option PyValue :=
  match value p with
  | None => None
  | Some v => Some (match cvalue p with Some c => c | None => v end)
  end.

(** The first loop of [read_model], over [model.points.items()]. *)
Definition extract_points (model : ModelObj) : gmap string PointsValue :=
  match points model with
  | None => ∅
  | Some pts =>
      fold_left (λ points_data '(point_name, point),
                   match point_value point with
                   | Some v => <[point_name := PVal v]> points_data
                   | None => points_data
                   end) pts ∅
  end.

(** The dictionary [group_points] built for one group. *)
Definition extract_group_points (group : GroupObj) : gmap string PyValue :=
  match g_points group with
  | None => ∅
  | Some pts =>
      fold_left (λ group_points '(point_name, point),
                   match point_value point with
                   | Some v => <[point_name := v]> group_points
                   | None => group_points
                   end) pts ∅
  end.

(** The second loop of [read_model], over [model.groups.items()]. *)
Definition extract_groups (model : ModelObj) (points_data : gmap string PointsValue)
    : gmap string PointsValue :=
  match groups model with
  | None => points_data
  | Some gs =>
      fold_left (λ points_data '(group_name, group_list),
                   match group_list with
                   | GroupList l =>
                       <[group_name := PGroups (extract_group_points <$> l)]> points_data
                   | GroupOther => points_data
                   end) gs points_data
  end.

(** The name [_discover_models] records for a model id. *)
Definition discovered_name (model_id : Z) (model_list : list ModelObj) : string :=
  match model_list with
  | m :: _ => match model_name m with
              | Some n => n
              | None => default_model_name model_id
              end
  | [] => default_model_name model_id
  end.

Section Client.

Variable env : Env.

(** The constructor [SunSpecModbusClientDeviceTCP(...)] or
    [SunSpecModbusClientDeviceRTU(...)], assigned to [self.device]. *)
Definition construct_device (p : TransportParams) : M SunSpecClient unit :=
  w ← get_world;
  let ok := env_open env (clock w) p in
  emit (EvOpen p ok);;
  advance 1;;
  if ok then modify (set_device (Some {| dev_params := p; dev_models := ∅ |}))
  else raise LibraryError.

(** [self.device.scan], which fills [self.device.models]. *)
Definition device_scan (d : Device) : M SunSpecClient unit :=
  w ← get_world;
  match env_scan env (clock w) with
  | Some ms =>
      emit (EvScan true);;
      advance 1;;
      modify (set_device (Some {| dev_params := dev_params d; dev_models := ms |}))
  | None =>
      emit (EvScan false);;
      advance 1;;
      raise LibraryError
  end.

(** [model.read] on the first instance of [model_id]; the model object is
    updated in place. *)
Definition model_read (d : Device) (model_id : Z) (rest : list ModelObj)
    : M SunSpecClient ModelObj :=
  w ← get_world;
  match env_read env (clock w) model_id with
  | Some model =>
      emit (EvRead model_id true);;
      advance 1;;
      modify (set_device (Some {| dev_params := dev_params d;
                                  dev_models := <[inl model_id := model :: rest]> (dev_models d) |}));;
      ret model
  | None =>
      emit (EvRead model_id false);;
      advance 1;;
      raise LibraryError
  end.

(** [self.device.close] *)
Definition device_close : M SunSpecClient unit :=
  w ← get_world;
  let ok := env_close env (clock w) in
  emit (EvClose ok);;
  advance 1;;
  if ok then ret tt else raise LibraryError.

Definition _connect_tcp : M SunSpecClient unit :=
  c ← get;
  match tcp (inverter (config c)) with
  | None => raise SunSpecDeviceError
  | Some tcp_config =>
      log INFO;;
      construct_device (TCP tcp_config)
  end.

Definition _connect_rtu : M SunSpecClient unit :=
  c ← get;
  match rtu (inverter (config c)) with
  | None => raise SunSpecDeviceError
  | Some rtu_config =>
      log INFO;;
      construct_device (RTU rtu_config)
  end.

Definition _discover_models : M SunSpecClient unit :=
  c ← get;
  match device c with
  | None => raise SunSpecDeviceError
  | Some d =>
      try_except
        (log INFO;;
         device_scan d;;
         modify (set_available_models ∅);;
         c ← get;
         for_each (map_to_list (from_option dev_models ∅ (device c)))
           (λ '(model_id, model_list),
              match model_id with
              | inl model_id =>
                  modify (λ c, set_available_models
                                 (<[model_id := discovered_name model_id model_list]>
                                    (available_models c)) c)
              | inr _ => ret tt
              end);;
         log INFO)
        (λ e, raise SunSpecDeviceError)
  end.

Definition connect : M SunSpecClient bool :=
  try_except
    (log INFO;;
     c ← get;
     (if String.eqb (connection_type (inverter (config c))) "tcp" then _connect_tcp
      else if String.eqb (connection_type (inverter (config c))) "rtu" then _connect_rtu
      else raise SunSpecDeviceError);;
     _discover_models;;
     modify (set_is_connected true);;
     log INFO;;
     ret true)
    (λ e,
       log ERROR;;
       modify (set_is_connected false);;
       ret false).

Definition read_model (model_id : Z) : M SunSpecClient ModelData :=
  c ← get;
  match device c with
  | None => ret EmptyDict
  | Some d =>
      match dev_models d !! inl model_id with
      | None => ret EmptyDict
      | Some [] => ret EmptyDict
      | Some (_ :: rest) =>
          try_except
            (model ← model_read d model_id rest;
             let points_data := extract_groups model (extract_points model) in
             c ← get;
             t ← now;
             ret (ReadingDict
                    {| r_model_id := model_id;
                       r_model_name := default (default_model_name model_id)
                                               (available_models c !! model_id);
                       r_points := points_data;
                       r_timestamp := t |}))
            (λ e, log ERROR;; ret EmptyDict)
      end
  end.

(** The body of the [for model_id in model_ids] loop of [read_data];
    [data] is the dictionary under construction. *)
Definition read_data_step (model_id : Z) (data : gmap string Reading)
    : M SunSpecClient (gmap string Reading) :=
  try_except
    (c ← get;
     if bool_decide (available_models c !! model_id = None)
     then log WARNING;; ret data
     else
       model_data ← read_model model_id;
       match model_data with
       | ReadingDict r => ret (<[model_key model_id := r]> data)
       | EmptyDict => ret data
       end)
    (λ e, log ERROR;; ret data).

Fixpoint read_data_loop (model_ids : list Z) (data : gmap string Reading)
    : M SunSpecClient (gmap string Reading) :=
  match model_ids with
  | [] => ret data
  | model_id :: rest =>
      data' ← read_data_step model_id data;
      read_data_loop rest data'
  end.

Definition read_data (model_ids : option (list Z)) : M SunSpecClient (gmap string Reading) :=
  c ← get;
  if negb (is_connected c) || negb (bool_decide (is_Some (device c)))
  then raise SunSpecDeviceError
  else
    let model_ids := default (models_to_read (data_collection (config c))) model_ids in
    data ← read_data_loop model_ids ∅;
    modify (set_cached_data data);;
    t ← now;
    modify (set_last_read_time (Some t));;
    ret data.

Definition get_available_models : M SunSpecClient (gmap Z string) :=
  c ← get; ret (available_models c).

Record DeviceInfo := {
  manufacturer : PointsValue;
  model : PointsValue;
  version : PointsValue;
  serial_number : PointsValue;
  device_address : PointsValue }.

(** [get_device_info] returns [{}] ([None] here) or the five-key dictionary. *)
Definition get_device_info : M SunSpecClient (option DeviceInfo) :=
  c ← get;
  if negb (is_connected c) then ret None
  else
    try_except
      (common_data ← read_model 1;
       match common_data with
       | ReadingDict r =>
           let pget k dflt := default dflt (r_points r !! k) in
           ret (Some {| manufacturer := pget "Mn" (PVal (PyStr "Unknown"));
                        model := pget "Md" (PVal (PyStr "Unknown"));
                        version := pget "Vr" (PVal (PyStr "Unknown"));
                        serial_number := pget "SN" (PVal (PyStr "Unknown"));
                        device_address := pget "DA" (PVal (PyInt 1)) |})
       | EmptyDict => ret None
       end)
      (λ e, log ERROR;; ret None).

Definition disconnect : M SunSpecClient unit :=
  c ← get;
  match device c with
  | Some _ =>
      try_finally
        (try_except (device_close;; log INFO) (λ e, log ERROR))
        (modify (set_device None);;
         modify (set_is_connected false))
  | None => ret tt
  end.

End Client.

(** The dictionary returned by [get_cached_data]. *)
Record CachedData := {
  cd_data : gmap string Reading;
  cd_last_read_time : option Z;
  cd_available_models : gmap Z string }.

Definition get_cached_data (c : SunSpecClient) : CachedData :=
  {| cd_data := cached_data c;
     cd_last_read_time := last_read_time c;
     cd_available_models := available_models c |}.

(** ** asyncio tasks *)

Definition set_tasks (ts : list TaskState) (w : World) : World :=
  {| clock := clock w; trace := trace w; tasks := ts |}.

(** [asyncio.create_task(self._polling_loop())] *)
Definition create_task {S} : M S nat :=
  w ← get_world;
  let tid := length (tasks w) in
  modify_world (set_tasks (tasks w ++ [Suspended AtStart false]));;
  emit (EvCreateTask tid);;
  ret tid.

(** [task.cancel()] only requests the cancellation: the coroutine sees
    [CancelledError] when the event loop runs it next. *)
Definition request_cancel (t : TaskState) : TaskState :=
  match t with
  | Suspended at_ _ => Suspended at_ true
  | Finished c => Finished c
  end.

Definition task_cancel {S} (tid : nat) : M S unit :=
  emit (EvCancel tid);;
  modify_world (λ w, set_tasks (alter request_cancel tid (tasks w)) w).

(** How [_polling_loop] ends when [CancelledError] is thrown into it: at
    the sleep inside [try] the clause [except asyncio.CancelledError: break]
    ends the loop and the coroutine returns; before its first step, or at
    the sleep inside the [except Exception] clause, the error leaves the
    coroutine and the task is cancelled. *)
Definition deliver_cancel (at_ : Suspension) : TaskState :=
  match at_ with
  | InIntervalSleep => Finished false
  | AtStart | InBackoffSleep => Finished true
  end.

Definition finish_task {S} (tid : nat) (t : TaskState) : M S unit :=
  modify_world (λ w, set_tasks (<[tid := t]> (tasks w)) w);;
  emit (EvTaskDone tid).

(** [await task], as [shutdown] uses it. *)
Definition await_task {S} (tid : nat) : M S unit :=
  emit (EvAwaitTask tid);;
  w ← get_world;
  match tasks w !! tid with
  | Some (Finished false) => ret tt
  | Some (Finished true) => raise CancelledError
  | Some (Suspended at_ true) =>
      finish_task tid (deliver_cancel at_);;
      match deliver_cancel at_ with
      | Finished true => raise CancelledError
      | _ => ret tt
      end
  | Some (Suspended _ false) => λ s w, (Hang, s, w)
  | None => ret tt
  end.

(** ** The gateway ([src/gateway.py]) *)

Record SunSpecGateway := {
  gw_config : Config;
  client : SunSpecClient;
  gw_is_connected : bool;
  last_data : gmap string Reading;
  polling_task : option nat }.

(** The fields [SunSpecGateway.__init__] sets. *)
Definition SunSpecGateway_init (cfg : Config) : SunSpecGateway :=
  {| gw_config := cfg; client := SunSpecClient_init cfg; gw_is_connected := false;
     last_data := ∅; polling_task := None |}.

Definition set_client (c : SunSpecClient) (g : SunSpecGateway) : SunSpecGateway :=
  {| gw_config := gw_config g; client := c; gw_is_connected := gw_is_connected g;
     last_data := last_data g; polling_task := polling_task g |}.

Definition set_gw_is_connected (b : bool) (g : SunSpecGateway) : SunSpecGateway :=
  {| gw_config := gw_config g; client := client g; gw_is_connected := b;
     last_data := last_data g; polling_task := polling_task g |}.

Definition set_last_data (d : gmap string Reading) (g : SunSpecGateway) : SunSpecGateway :=
  {| gw_config := gw_config g; client := client g; gw_is_connected := gw_is_connected g;
     last_data := d; polling_task := polling_task g |}.

Definition set_polling_task (t : option nat) (g : SunSpecGateway) : SunSpecGateway :=
  {| gw_config := gw_config g; client := client g; gw_is_connected := gw_is_connected g;
     last_data := last_data g; polling_task := t |}.

(** A method of [self.client] run from a method of the gateway. *)
Definition on_client {A} (m : M SunSpecClient A) : M SunSpecGateway A :=
  λ g w, match m (client g) w with
         | (r, c', w') => (r, set_client c' g, w')
         end.

(** How one pass through the body of [while True] leaves the loop. *)
Inductive LoopControl := LoopSuspend (at_ : Suspension) | LoopBreak.

(** JSON bodies of the routes. *)
Record ModelResponse := {
  mr_model_id : Z;
  mr_points : ModelData;
  mr_timestamp : Z }.

Record ConnectResponse := {
  cr_connected : bool;
  cr_timestamp : Z }.

Record ModelsResponse := {
  ms_available_models : gmap Z string;
  ms_configured_models : list Z }.

Record StatusResponse := {
  sr_connected : bool;
  sr_timestamp : Z }.

(** The status code FastAPI answers with. *)
Definition status_code_of {A} (r : Result A) : option Z :=
  match r with
  | Ok _ => Some 200
  | Raise (HTTPException c) => Some c
  | Raise _ => Some 500
  | Hang => None
  end.

Section Gateway.

Variable env : Env.

Definition startup : M SunSpecGateway unit :=
  try_except
    (connected ← on_client (connect env);
     if (connected : bool) then
       modify (set_gw_is_connected true);;
       log INFO;;
       tid ← create_task;
       modify (set_polling_task (Some tid));;
       log INFO
     else log ERROR)
    (λ e, log ERROR).

Definition shutdown : M SunSpecGateway unit :=
  log INFO;;
  g ← get;
  match polling_task g with
  | Some tid =>
      task_cancel tid;;
      try_with (await_task tid)
        (λ e, match e with CancelledError => Some (log INFO) | _ => None end)
  | None => ret tt
  end;;
  on_client (disconnect env);;
  log INFO.

(** One pass through the body of [while True] in [_polling_loop], up to
    the sleep at which the coroutine is parked. *)
Definition _polling_loop_body : M SunSpecGateway LoopControl :=
  try_with
    (g ← get;
     data ← on_client (read_data env (Some (models_to_read (data_collection (gw_config g)))));
     (if bool_decide (data = ∅) then ret tt
      else for_each (map_to_list data)
             (λ '(model_key, model_data),
                modify (λ g, set_last_data (<[model_key := model_data]> (last_data g)) g)));;
     g ← get;
     sleep (poll_interval (data_collection (gw_config g)));;
     ret (LoopSuspend InIntervalSleep))
    (λ e, match e with
          | CancelledError => Some (ret LoopBreak)
          | _ => Some (log ERROR;; sleep 5;; ret (LoopSuspend InBackoffSleep))
          end).

(** The event loop runs polling task [tid] once: a requested cancellation
    is delivered at the sleep the coroutine is parked in; otherwise the
    sleep is over and the loop body runs up to the next sleep. *)
Definition run_polling_task (tid : nat) : M SunSpecGateway unit :=
  w ← get_world;
  match tasks w !! tid with
  | Some (Suspended at_ true) => finish_task tid (deliver_cancel at_)
  | Some (Suspended _ false) =>
      r ← _polling_loop_body;
      match r with
      | LoopSuspend at_ =>
          modify_world (λ w, set_tasks (<[tid := Suspended at_ false]> (tasks w)) w)
      | LoopBreak => finish_task tid (Finished false)
      end
  | Some (Finished _) | None => ret tt
  end.

(** GET /api/status *)
Definition get_status : M SunSpecGateway StatusResponse :=
  g ← get;
  t ← now;
  ret {| sr_connected := gw_is_connected g; sr_timestamp := t |}.

(** GET /device/info *)
Definition get_device_info_route : M SunSpecGateway (option DeviceInfo) :=
  g ← get;
  if negb (gw_is_connected g) then raise (HTTPException 503)
  else
    try_except (on_client (get_device_info env))
      (λ e, log ERROR;; raise (HTTPException 500)).

(** GET /device/models *)
Definition get_available_models_route : M SunSpecGateway ModelsResponse :=
  g ← get;
  if negb (gw_is_connected g) then raise (HTTPException 503)
  else
    try_except
      (available ← on_client get_available_models;
       ret {| ms_available_models := available;
              ms_configured_models := models_to_read (data_collection (gw_config g)) |})
      (λ e, log ERROR;; raise (HTTPException 500)).

(** GET /data/live *)
Definition get_live_data : M SunSpecGateway (gmap string Reading) :=
  g ← get;
  if negb (gw_is_connected g) then raise (HTTPException 503)
  else if bool_decide (last_data g = ∅) then raise (HTTPException 404)
  else ret (last_data g).

(** GET /data/model/{model_id} *)
Definition get_model_data (model_id : Z) : M SunSpecGateway ModelResponse :=
  g ← get;
  if negb (gw_is_connected g) then raise (HTTPException 503)
  else
    try_except
      (data ← on_client (read_model env model_id);
       if is_None data then raise (HTTPException 404)
       else
         t ← now;
         ret {| mr_model_id := model_id; mr_points := data; mr_timestamp := t |})
      (λ e, log ERROR;; raise (HTTPException 500)).

(** POST /device/connect *)
Definition connect_device : M SunSpecGateway ConnectResponse :=
  try_except
    (connected ← on_client (connect env);
     modify (set_gw_is_connected connected);;
     g ← get;
     (if connected && negb (bool_decide (is_Some (polling_task g)))
      then tid ← create_task; modify (set_polling_task (Some tid))
      else ret tt);;
     t ← now;
     ret {| cr_connected := connected; cr_timestamp := t |})
    (λ e, log ERROR;; raise (HTTPException 500)).

(** POST /device/disconnect *)
Definition disconnect_device : M SunSpecGateway ConnectResponse :=
  try_except
    (g ← get;
     match polling_task g with
     | Some tid =>
         task_cancel tid;;
         modify (set_polling_task None)
     | None => ret tt
     end;;
     on_client (disconnect env);;
     modify (set_gw_is_connected false);;
     t ← now;
     ret {| cr_connected := false; cr_timestamp := t |})
    (λ e, log ERROR;; raise (HTTPException 500)).

End Gateway.

(** * Vocabulary of the statements *)

Definition result_of {S A} (x : Result A * S * World) : Result A := x.1.1.
Definition state_after {S A} (x : Result A * S * World) : S := x.1.2.
Definition world_after {S A} (x : Result A * S * World) : World := x.2.

(** The events emitted between world [w] and a later world [w']. *)
Definition events_since (w w' : World) : list Event :=
  drop (length (trace w)) (trace w').

(** The world after [Δ] was emitted and [dt] device operations ran. *)
Definition add_events (Δ : list Event) (dt : Z) (w : World) : World :=
  {| clock := clock w + dt; trace := trace w ++ Δ; tasks := tasks w |}.

(** The transport [connect] constructs for a configuration, if any. *)
Definition transport_of (cfg : Config) : option TransportParams :=
  if String.eqb (connection_type (inverter cfg)) "tcp" then TCP <$> tcp (inverter cfg)
  else if String.eqb (connection_type (inverter cfg)) "rtu" then RTU <$> rtu (inverter cfg)
  else None.

(** One step of the registry loop of [_discover_models]. *)
Definition record_model (kv : ModelKey * list ModelObj) (c : SunSpecClient) : SunSpecClient :=
  match kv.1 with
  | inl model_id =>
      set_available_models
        (<[model_id := discovered_name model_id kv.2]> (available_models c)) c
  | inr _ => c
  end.

(** The client after a scan that answered [ms]. *)
Definition discovered (p : TransportParams) (ms : gmap ModelKey (list ModelObj))
    (c : SunSpecClient) : SunSpecClient :=
  foldl (λ c kv, record_model kv c)
    (set_available_models ∅ (set_device (Some {| dev_params := p; dev_models := ms |}) c))
    (map_to_list ms).

(** The reading [read_model] builds at time [t] from the model object [m]. *)
Definition reading_of (names : gmap Z string) (model_id : Z) (m : ModelObj) (t : Z) : Reading :=
  {| r_model_id := model_id;
     r_model_name := default (default_model_name model_id) (names !! model_id);
     r_points := extract_groups m (extract_points m);
     r_timestamp := t |}.

Definition has_instance (d : Device) (model_id : Z) : Prop :=
  ∃ m rest, dev_models d !! inl model_id = Some (m :: rest).

(** [read_data] issues a device read for [model_id]: the model is in the
    registry and the device object has an instance of it. *)
Definition readable (c : SunSpecClient) (model_id : Z) : Prop :=
  is_Some (available_models c !! model_id) ∧
  ∃ d, device c = Some d ∧ has_instance d model_id.

(** [rd] is what [read_model] builds from an answer the device gave to a
    read of [model_id] at some time between [w] and [w']. *)
Definition fresh_reading (env : Env) (names : gmap Z string) (w w' : World)
    (model_id : Z) (rd : Reading) : Prop :=
  ∃ t m, clock w ≤ t < clock w' ∧ env_read env t model_id = Some m ∧
         rd = reading_of names model_id m (t + 1).

(** What the loop of [read_data] over [ids] does to the client, the world
    and the dictionary [data]; [Δ] are the events it emits. *)
Record reads_post (env : Env) (c : SunSpecClient) (w : World) (data : gmap string Reading)
    (ids : list Z) (Δ : list Event)
    (c' : SunSpecClient) (w' : World) (data' : gmap string Reading) : Prop := {
  rp_trace : trace w' = trace w ++ Δ;
  rp_clock : clock w ≤ clock w';
  rp_tasks : tasks w' = tasks w;
  rp_config : config c' = config c;
  rp_connected : is_connected c' = is_connected c;
  rp_cached : cached_data c' = cached_data c;
  rp_last_read : last_read_time c' = last_read_time c;
  rp_models : available_models c' = available_models c;
  rp_device : ∀ id, readable c id ↔ readable c' id;
  rp_device_some : is_Some (device c) → is_Some (device c');
  rp_events : ∀ e, e ∈ Δ →
      (∃ id ok, e = EvRead id ok ∧ id ∈ ids ∧ readable c id) ∨ (∃ lvl, e = EvLog lvl);
  rp_only : ∀ k, data' !! k = data !! k ∨ ∃ id, k = model_key id ∧ EvRead id true ∈ Δ;
  rp_fresh : ∀ id, EvRead id true ∈ Δ →
      ∃ rd, data' !! model_key id = Some rd ∧ fresh_reading env (available_models c) w w' id rd;
  rp_attempt : ∀ id, id ∈ ids → readable c id → ∃ ok, EvRead id ok ∈ Δ }.

(** What one pass through the body of [_polling_loop] does to the
    gateway and the world. *)
Record cycle_post (env : Env) (g : SunSpecGateway) (w : World) (Δ : list Event)
    (g' : SunSpecGateway) (w' : World) : Prop := {
  cp_trace : trace w' = trace w ++ Δ;
  cp_clock : clock w ≤ clock w';
  cp_tasks : tasks w' = tasks w;
  cp_config : gw_config g' = gw_config g;
  cp_connected : gw_is_connected g' = gw_is_connected g;
  cp_task : polling_task g' = polling_task g;
  cp_models : available_models (client g') = available_models (client g);
  cp_events : ∀ e, e ∈ Δ →
      (∃ id ok, e = EvRead id ok ∧ readable (client g) id) ∨
      (∃ lvl, e = EvLog lvl) ∨ (∃ secs, e = EvSleep secs);
  cp_only : ∀ k, last_data g' !! k = last_data g !! k ∨
                 ∃ id, k = model_key id ∧ EvRead id true ∈ Δ;
  cp_fresh : ∀ id, EvRead id true ∈ Δ →
      ∃ rd, last_data g' !! model_key id = Some rd ∧
            fresh_reading env (available_models (client g)) w w' id rd }.

(** The event loop runs polling task [tid] [n] times in a row. *)
Fixpoint run_cycles (env : Env) (tid : nat) (n : nat) : M SunSpecGateway unit :=
  match n with
  | O => mret tt
  | S n' => run_polling_task env tid;; run_cycles env tid n'
  end.

(** ** Requests *)

(** What reaches the gateway: the lifespan hooks, the requests of the REST
    surface, and the event loop running a polling task. *)
Inductive Request :=
  | ReqStartup
  | ReqShutdown
  | ReqStatus
  | ReqDeviceInfo
  | ReqModels
  | ReqLive
  | ReqModel (model_id : Z)
  | ReqConnect
  | ReqDisconnect
  | RunTask (tid : nat).

(** The gateway and the world a handler leaves.  [serve] runs each request
    to its end before the next one starts: what asyncio interleaves at the
    awaits inside a handler (the polling task running while [connect] awaits
    the scan) is not among its runs. *)
Definition after {S A} (x : Result A * S * World) : S * World := (state_after x, world_after x).

Definition serve_one (env : Env) (r : Request) (g : SunSpecGateway) (w : World)
    : SunSpecGateway * World :=
  match r with
  | ReqStartup => after (startup env g w)
  | ReqShutdown => after (shutdown env g w)
  | ReqStatus => after (get_status g w)
  | ReqDeviceInfo => after (get_device_info_route env g w)
  | ReqModels => after (get_available_models_route g w)
  | ReqLive => after (get_live_data g w)
  | ReqModel model_id => after (get_model_data env model_id g w)
  | ReqConnect => after (connect_device env g w)
  | ReqDisconnect => after (disconnect_device env g w)
  | RunTask tid => after (run_polling_task env tid g w)
  end.

Fixpoint serve (env : Env) (rs : list Request) (g : SunSpecGateway) (w : World)
    : SunSpecGateway * World :=
  match rs with
  | [] => (g, w)
  | r :: rs' => let '(g', w') := serve_one env r g w in serve env rs' g' w'
  end.

(** A gateway that reports itself connected holds a task handle. *)
Definition holds_task (g : SunSpecGateway) : Prop :=
  gw_is_connected g = true → is_Some (polling_task g).


(** * The claims as the specification states them, where the code differs *)

(** Events of a connect sequence: a transport is opened, discovery runs, a
    polling task is created. *)
Definition is_session_event (e : Event) : bool :=
  match e with
  | EvOpen _ _ | EvScan _ | EvCreateTask _ => true
  | _ => false
  end.

(** POST /device/connect is a no-op: no second transport, no second
    discovery, no second polling task. *)
Definition connect_is_noop (env : Env) (g : SunSpecGateway) (w : World) : Prop :=
  List.filter is_session_event (events_since w (world_after (connect_device env g w))) = [].

(** A failed [connect] leaves the client disconnected and closes every
    transport it opened. *)
Definition failed_connect_closes_transport (env : Env) (c : SunSpecClient) (w : World) : Prop :=
  let res := connect env c w in
  result_of res = Ok false →
  is_connected (state_after res) = false ∧
  ∀ p, EvOpen p true ∈ events_since w (world_after res) →
       ∃ ok, EvClose ok ∈ events_since w (world_after res).

(** [disconnect] clears the registry. *)
Definition disconnect_clears_registry (env : Env) (c : SunSpecClient) (w : World) : Prop :=
  available_models (state_after (disconnect env c w)) = ∅.

(** The sleep after an error in the loop body is shorter than the
    configured poll interval. *)
Definition backoff_shorter_than_interval (env : Env) (g : SunSpecGateway) (w : World) : Prop :=
  let res := _polling_loop_body env g w in
  result_of res = Ok (LoopSuspend InBackoffSleep) →
  ∀ secs, EvSleep secs ∈ events_since w (world_after res) →
          secs < poll_interval (data_collection (gw_config g)).

(** A model that is configured for polling but is not in the registry has
    no entry in the snapshot table. *)
Definition undiscovered_has_no_entry (g : SunSpecGateway) (id : Z) : Prop :=
  id ∈ models_to_read (data_collection (gw_config g)) →
  available_models (client g) !! id = None →
  last_data g !! model_key id = None.

(** After a call of [read_data], whatever its outcome, the cache that
    [get_cached_data] reports holds exactly the models read successfully in
    the call, and [last_read_time] is the time of the call. *)
Definition read_data_always_replaces_cache (env : Env) (model_ids : option (list Z))
    (c : SunSpecClient) (w : World) : Prop :=
  let res := read_data env model_ids c w in
  let cache := get_cached_data (state_after res) in
  (∀ k, is_Some (cd_data cache !! k) ↔
        ∃ id, k = model_key id ∧ EvRead id true ∈ events_since w (world_after res)) ∧
  cd_last_read_time cache = Some (clock (world_after res)).

(** * A concrete installation *)

Module Scenario.

Definition point (v : PyValue) : PointObj := {| value := Some v; cvalue := None |}.

Definition common : ModelObj :=
  {| model_name := Some "common";
     points := Some [("Mn", point (PyStr "Sungrow")); ("SN", point (PyStr "A1"))];
     groups := None |}.

(** The inverter model when it reports [watts]. *)
Definition inverter_model (watts : Z) : ModelObj :=
  {| model_name := Some "inverter";
     points := Some [("W", {| value := Some (PyInt watts); cvalue := Some (PyInt (watts * 10)) |})];
     groups := None |}.

(** Models 1, 101 and 160 are polled every 30 seconds. *)
Definition cfg : Config :=
  {| inverter := inverter get_default_config;
     data_collection := {| poll_interval := 30; models_to_read := [1; 101; 160];
                           max_retries := 3; retry_delay := 5 |} |}.

Definition scanned : gmap ModelKey (list ModelObj) :=
  <[inl 1 := [common]]> (<[inl 101 := [inverter_model 0]]>
  (<[inr "common" := [common]]> (<[inr "inverter" := [inverter_model 0]]> ∅))).

(** A device with models 1 and 101 (not 160) whose read of model 101
    fails at time 5 and at no other time. *)
Definition env : Env :=
  {| env_open := λ _ _, true;
     env_scan := λ _, Some scanned;
     env_read := λ t model_id,
       if bool_decide (model_id = 101) && bool_decide (t = 5) then None
       else Some (if bool_decide (model_id = 1) then common else inverter_model t);
     env_close := λ _, true |}.

(** The transport [cfg] asks for. *)
Definition transport : TransportParams :=
  TCP {| tcp_host := "192.168.1.100"; tcp_port := 502; tcp_slave_id := 1; tcp_timeout := 10 |}.

Definition w0 : World := {| clock := 0; trace := []; tasks := [] |}.
Definition g0 : SunSpecGateway := SunSpecGateway_init cfg.

(** After [startup]: connected, polling task 0 created. *)
Definition g1 : SunSpecGateway := state_after (startup env g0 w0).
Definition w1 : World := world_after (startup env g0 w0).

(** After the first poll cycle. *)
Definition g2 : SunSpecGateway := state_after (run_polling_task env 0 g1 w1).
Definition w2 : World := world_after (run_polling_task env 0 g1 w1).

(** What reached the gateway up to there. *)
Definition requests : list Request := [ReqStartup; RunTask 0].

(** After the second poll cycle, in which the read of model 101 fails. *)
Definition g3 : SunSpecGateway := state_after (run_polling_task env 0 g2 w2).
Definition w3 : World := world_after (run_polling_task env 0 g2 w2).

(** A device whose scan always fails. *)
Definition env_no_scan : Env :=
  {| env_open := λ _ _, true;
     env_scan := λ _, None;
     env_read := λ _ _, None;
     env_close := λ _, true |}.

(** A device whose scan works at time 1 only, polled every 5 seconds. *)
Definition cfg5 : Config :=
  {| inverter := inverter get_default_config;
     data_collection := {| poll_interval := 5; models_to_read := [1; 101];
                           max_retries := 3; retry_delay := 5 |} |}.

Definition env_scan_once : Env :=
  {| env_open := λ _ _, true;
     env_scan := λ t, if bool_decide (t = 1) then Some scanned else None;
     env_read := λ _ _, Some common;
     env_close := λ _, true |}.

(** [startup] succeeds, then POST /device/connect fails at discovery: the
    polling task is alive while the client is not connected. *)
Definition g5 : SunSpecGateway :=
  state_after (connect_device env_scan_once
                 (state_after (startup env_scan_once (SunSpecGateway_init cfg5) w0))
                 (world_after (startup env_scan_once (SunSpecGateway_init cfg5) w0))).
Definition w5 : World :=
  world_after (connect_device env_scan_once
                 (state_after (startup env_scan_once (SunSpecGateway_init cfg5) w0))
                 (world_after (startup env_scan_once (SunSpecGateway_init cfg5) w0))).

(** What a later scan answers: the inverter model is gone. *)
Definition scanned_common_only : gmap ModelKey (list ModelObj) :=
  <[inl 1 := [common]]> (<[inr "common" := [common]]> ∅).

(** A device whose first scan, at time 1, finds models 1 and 101, and whose
    later scans find model 1 only. *)
Definition env_rescan : Env :=
  {| env_open := λ _ _, true;
     env_scan := λ t, Some (if bool_decide (t ≤ 1) then scanned else scanned_common_only);
     env_read := λ _ model_id,
       Some (if bool_decide (model_id = 1) then common else inverter_model 0);
     env_close := λ _, true |}.

(** [startup], one poll cycle, then POST /device/connect. *)
Definition reconnect_requests : list Request := [ReqStartup; RunTask 0; ReqConnect].

(** On the device that is scanned again: the reconnect succeeds, and the
    registry has lost model 101. *)
Definition g6 : SunSpecGateway := (serve env_rescan reconnect_requests g0 w0).1.
Definition w6 : World := (serve env_rescan reconnect_requests g0 w0).2.

(** On the device whose scan works once: the reconnect fails after a poll
    cycle has filled the cache. *)
Definition g7 : SunSpecGateway :=
  (serve env_scan_once reconnect_requests (SunSpecGateway_init cfg5) w0).1.
Definition w7 : World :=
  (serve env_scan_once reconnect_requests (SunSpecGateway_init cfg5) w0).2.

End Scenario.

(** * Further code of the repository *)

(** ** [src/config.py]: validation of [InverterConfig] *)

(** The validator [validate_connection_type]; [None] is the [ValueError]. *)
Definition validate_connection_type (v : string) : option string :=
  if bool_decide (v ∈ ["tcp"; "rtu"]) then Some v else None.

(** [InverterConfig(connection_type=..., tcp=..., rtu=...)]: the only
    validation is that of [connection_type]. *)
Definition InverterConfig_new (kind : string)
    (tcp_section : option TCPConfig) (rtu_section : option RTUConfig)
    : option InverterConfig :=
  v ← validate_connection_type kind;
  Some {| connection_type := v; tcp := tcp_section; rtu := rtu_section |}.

(** ** [src/gateway.py]: GET /config and GET /health *)

(** [model_dump()] of the TCP section after [pop('timeout', None)]. *)
Record TCPDump := {
  dump_host : string;
  dump_port : Z;
  dump_slave_id : Z }.

(** The dictionary GET /config returns, for the sections [Config] has
    here; the RTU section is dumped whole. *)
Record ConfigDump := {
  dump_connection_type : string;
  dump_tcp : TCPDump;
  dump_rtu : option RTUConfig;
  dump_data_collection : DataCollectionConfig }.

(** GET /config.  [model_dump()] (pydantic 2) returns a fresh dictionary,
    so the configuration itself is not changed.  The key ['tcp'] is always
    in the dumped inverter section, with value [None] when the
    configuration has no TCP section: then [.pop] raises [AttributeError],
    and the route has no [try]. *)
Definition get_config : M SunSpecGateway ConfigDump :=
  g ← get;
  match tcp (inverter (gw_config g)) with
  | Some t =>
      mret {| dump_connection_type := connection_type (inverter (gw_config g));
              dump_tcp := {| dump_host := tcp_host t; dump_port := tcp_port t;
                             dump_slave_id := tcp_slave_id t |};
              dump_rtu := rtu (inverter (gw_config g));
              dump_data_collection := data_collection (gw_config g) |}
  | None => raise LibraryError
  end.

Record HealthResponse := {
  h_connected : bool;
  h_models_configured : nat;
  h_last_poll : option Z;
  h_timestamp : Z }.

(** Python's [max] of a non-empty list.  The timestamps are instants of
    the logical clock here, as everywhere in this file; the code compares
    their ISO strings. *)
Definition py_max (x : Z) (xs : list Z) : Z := foldl Z.max x xs.

(** [max([data.get("timestamp", "") for data in self.last_data.values()])
    if self.last_data else None] *)
Definition last_poll (last_data : gmap string Reading) : option Z :=
  match (map_to_list last_data).*2 with
  | [] => None
  | rd :: rds => Some (py_max (r_timestamp rd) (r_timestamp <$> rds))
  end.

(** GET /health *)
Definition health_check : M SunSpecGateway HealthResponse :=
  g ← get;
  t ← now;
  mret {| h_connected := gw_is_connected g;
          h_models_configured := length (models_to_read (data_collection (gw_config g)));
          h_last_poll := last_poll (last_data g);
          h_timestamp := t |}.

(** ** [setup_direct_connection.py]: probing an address *)

(** The configuration [test_sunspec_on_ip] builds for [ip_address]. *)
Definition probe_config (ip_address : string) : Config :=
  {| inverter := {| connection_type := "tcp";
                    tcp := Some {| tcp_host := ip_address; tcp_port := 502;
                                   tcp_slave_id := 1; tcp_timeout := 10 |};
                    rtu := None |};
     data_collection := data_collection get_default_config |}.

(** [test_sunspec_on_ip(ip_address)]: the function makes a client of its
    own, which is returned here beside the result; what it prints is left
    out. *)
Definition test_sunspec_on_ip (env : Env) (ip_address : string)
    : World → Result bool * SunSpecClient * World :=
  try_except
    (success ← connect env;
     if (success : bool) then
       get_device_info env;;
       disconnect env;;
       mret true
     else mret false)
    (λ e, mret false)
    (SunSpecClient_init (probe_config ip_address)).

(** ** [discover_inverter.py]: testing an address *)

(** The configuration [test_sunspec_connection] builds. *)
Definition connection_test_config (ip_address : string) (slave_id timeout : Z) : Config :=
  {| inverter := {| connection_type := "tcp";
                    tcp := Some {| tcp_host := ip_address; tcp_port := 502;
                                   tcp_slave_id := slave_id; tcp_timeout := timeout |};
                    rtu := None |};
     data_collection := data_collection get_default_config |}.

(** [test_sunspec_connection(ip_address, slave_id, timeout)]: as
    [test_sunspec_on_ip], with a sample read of the common models inside a
    [try] of its own before the client is disconnected. *)
Definition test_sunspec_connection (env : Env) (ip_address : string) (slave_id timeout : Z)
    : World → Result bool * SunSpecClient * World :=
  try_except
    (success ← connect env;
     if (success : bool) then
       get_device_info env;;
       try_except (read_data env (Some [1; 103; 113; 160]);; mret tt) (λ e, mret tt);;
       disconnect env;;
       mret true
     else mret false)
    (λ e, mret false)
    (SunSpecClient_init (connection_test_config ip_address slave_id timeout)).

(** ** [src/sunspec_client.py]: writing a point *)

(** [model.points[point_name] = f(model.points[point_name])], on the
    items of the dictionary. *)
Fixpoint update_point (point_name : string) (f : PointObj → PointObj)
    (pts : list (string * PointObj)) : list (string * PointObj) :=
  match pts with
  | [] => []
  | (n, p) :: rest =>
      if decide (n = point_name) then (n, f p) :: rest
      else (n, p) :: update_point point_name f rest
  end.

(** [model.points[point_name]], if the key is there. *)
Fixpoint find_point (point_name : string) (pts : list (string * PointObj)) : option PointObj :=
  match pts with
  | [] => None
  | (n, p) :: rest => if decide (n = point_name) then Some p else find_point point_name rest
  end.

Section WritePoint.

(** [hasattr(point, 'cvalue')]: a [PointObj] does not tell a point without
    the attribute from one whose [cvalue] is [None]. *)
Variable has_cvalue : PointObj → bool.

(** Whether [model.write()] succeeds for a model at a time; the trace has
    no event for it. *)
Variable device_write : Z → Z → bool.

(** The assignment [point.cvalue = value] or [point.value = value];
    [None] is Python's [None]. *)
Definition assign_point (v : option PyValue) (point : PointObj) : PointObj :=
  if has_cvalue point then {| value := value point; cvalue := v |}
  else {| value := v; cvalue := cvalue point |}.

(** [model.write], run in the executor. *)
Definition model_write (model_id : Z) : M SunSpecClient unit :=
  w ← get_world;
  advance 1;;
  if device_write (clock w) model_id then mret tt else raise LibraryError.

Definition write_point (model_id : Z) (point_name : string) (v : option PyValue)
    : M SunSpecClient bool :=
  c ← get;
  if negb (is_connected c) || negb (bool_decide (is_Some (device c)))
  then raise SunSpecDeviceError
  else
    try_except
      (match device c with
       | None => raise LibraryError
       | Some d =>
           match dev_models d !! inl model_id with
           | None | Some [] => raise SunSpecDeviceError
           | Some (model :: rest) =>
               match points model with
               | None => raise SunSpecDeviceError
               | Some pts =>
                   match find_point point_name pts with
                   | None => raise SunSpecDeviceError
                   | Some _ =>
                       let model' :=
                         {| model_name := model_name model;
                            points := Some (update_point point_name (assign_point v) pts);
                            groups := groups model |} in
                       modify (set_device
                                 (Some {| dev_params := dev_params d;
                                          dev_models := <[inl model_id := model' :: rest]>
                                                          (dev_models d) |}));;
                       model_write model_id;;
                       log INFO;;
                       mret true
                   end
               end
           end
       end)
      (λ e, log ERROR;; mret false).

End WritePoint.

(** ** Invariants of the reachable states *)

(** No snapshot entry is newer than the clock. *)
Definition timestamps_bounded (g : SunSpecGateway) (w : World) : Prop :=
  ∀ k rd, last_data g !! k = Some rd → r_timestamp rd ≤ clock w.

(** Every snapshot entry of [g] is still there in [g'], with a timestamp
    that is not older. *)
Definition snapshot_advances (g g' : SunSpecGateway) : Prop :=
  ∀ k rd, last_data g !! k = Some rd →
          ∃ rd', last_data g' !! k = Some rd' ∧ r_timestamp rd ≤ r_timestamp rd'.

(** A polling task is live when it has neither ended nor been cancelled. *)
Definition live (t : TaskState) : bool :=
  match t with Suspended _ false => true | _ => false end.

(** The only live polling task is the one whose handle the gateway holds. *)
Definition one_poller (g : SunSpecGateway) (w : World) : Prop :=
  (∀ tid t, tasks w !! tid = Some t → live t = true → polling_task g = Some tid) ∧
  (∀ tid, polling_task g = Some tid → is_Some (tasks w !! tid)).

(** [startup] runs once, when the application starts. *)
Definition no_startup (rs : list Request) : Prop := ReqStartup ∉ rs.

(** Task [tid] is not pending: it has ended, or there is no such task. *)
Definition tasks_done (ts : list TaskState) (tid : nat) : Prop :=
  ts !! tid = None ∨ ∃ c, ts !! tid = Some (Finished c).

(** * Further installations *)

Module Installations.

Definition tcp_section : TCPConfig :=
  {| tcp_host := "192.168.1.100"; tcp_port := 502; tcp_slave_id := 1; tcp_timeout := 10 |}.

Definition rtu_section : RTUConfig :=
  {| rtu_port := "/dev/ttyUSB0"; rtu_baudrate := 19200; rtu_bytesize := 8;
     rtu_parity := "N"; rtu_stopbits := 1; rtu_slave_id := 1; rtu_timeout := 10 |}.

(** Configured for a serial line, but only the TCP section is filled in. *)
Definition cfg_rtu_missing : Config :=
  {| inverter := {| connection_type := "rtu"; tcp := Some tcp_section; rtu := None |};
     data_collection := default_data_collection |}.

(** An installation on a serial line, without a TCP section. *)
Definition cfg_serial : Config :=
  {| inverter := {| connection_type := "rtu"; tcp := None; rtu := Some rtu_section |};
     data_collection := default_data_collection |}.

(** After [startup]: a poll cycle, a disconnect, a connect, and the event
    loop running both tasks. *)
Definition reconnect : list Request :=
  [RunTask 0; ReqDisconnect; ReqConnect; RunTask 1; RunTask 0].

(** A device library whose points all have [cvalue], and a device that
    refuses every write. *)
Definition has_cvalue (p : PointObj) : bool := true.
Definition device_write (t model_id : Z) : bool := false.

End Installations.

(** * Facts about the embedding *)

Lemma events_since_app w w' Δ :
  trace w' = trace w ++ Δ → events_since w w' = Δ.
Proof. intros H. unfold events_since. rewrite H. apply drop_app_length. Qed.

Lemma model_key_inj : Inj (=) (=) model_key.
Proof.
  intros a b H. unfold model_key in H. simpl in H.
  simplify_eq. by apply (inj pretty).
Qed.

Ltac munfold :=
  unfold mbind, M_bind, mret, M_ret, bind, ret, raise, get, modify, get_world,
    modify_world, emit, advance, now, log, sleep, try_except, try_with,
    try_finally, on_client in *.

Lemma world_eq w1 w2 :
  clock w1 = clock w2 → trace w1 = trace w2 → tasks w1 = tasks w2 → w1 = w2.
Proof. destruct w1, w2. simpl. by intros -> -> ->. Qed.

Ltac world_eq :=
  apply world_eq; simpl; rewrite <- ?app_assoc; simpl; try done; try lia.

Section ClientFacts.
Variable env : Env.

Lemma read_model_eq model_id c w :
  read_model env model_id c w =
  match device c with
  | None => (Ok EmptyDict, c, w)
  | Some d =>
      match dev_models d !! inl model_id with
      | None | Some [] => (Ok EmptyDict, c, w)
      | Some (_ :: rest) =>
          match env_read env (clock w) model_id with
          | Some m =>
              (Ok (ReadingDict
                     {| r_model_id := model_id;
                        r_model_name := default (default_model_name model_id)
                                                (available_models c !! model_id);
                        r_points := extract_groups m (extract_points m);
                        r_timestamp := clock w + 1 |}),
               set_device (Some {| dev_params := dev_params d;
                                   dev_models := <[inl model_id := m :: rest]> (dev_models d) |}) c,
               {| clock := clock w + 1; trace := trace w ++ [EvRead model_id true];
                  tasks := tasks w |})
          | None =>
              (Ok EmptyDict, c,
               {| clock := clock w + 1;
                  trace := (trace w ++ [EvRead model_id false]) ++ [EvLog ERROR];
                  tasks := tasks w |})
          end
      end
  end.
Proof.
  unfold read_model, model_read. munfold.
  destruct (device c) as [d|]; [|done].
  destruct (dev_models d !! inl model_id) as [[|m0 rest]|]; [done| |done].
  simpl. destruct (env_read env (clock w) model_id); reflexivity.
Qed.

End ClientFacts.

(** ** Reading a list of models *)

Section ReadFacts.
Variable env : Env.

Lemma fresh_reading_mono names w1 w2 w1' w2' id rd :
  clock w1' ≤ clock w1 → clock w2 ≤ clock w2' →
  fresh_reading env names w1 w2 id rd → fresh_reading env names w1' w2' id rd.
Proof. intros ?? (t & m & ? & ? & ?). exists t, m. split_and!; [lia..|done|done]. Qed.

Lemma reads_post_skip c w data ids :
  (∀ id, id ∈ ids → ¬ readable c id) → reads_post env c w data ids [] c w data.
Proof.
  intros Hskip. split; try done.
  - by rewrite app_nil_r.
  - intros e He. by apply elem_of_nil in He.
  - intros k. by left.
  - intros id He. by apply elem_of_nil in He.
  - intros id Hin Hr. by destruct (Hskip id Hin).
Qed.

Lemma reads_post_nil c w data : reads_post env c w data [] [] c w data.
Proof. apply reads_post_skip. intros id Hin. by apply elem_of_nil in Hin. Qed.

Lemma reads_post_app c w data ids1 Δ1 c1 w1 data1 ids2 Δ2 c2 w2 data2 :
  reads_post env c w data ids1 Δ1 c1 w1 data1 →
  reads_post env c1 w1 data1 ids2 Δ2 c2 w2 data2 →
  reads_post env c w data (ids1 ++ ids2) (Δ1 ++ Δ2) c2 w2 data2.
Proof.
  intros H1 H2. destruct H1, H2. split.
  - by rewrite rp_trace1, rp_trace0, app_assoc.
  - lia.
  - congruence.
  - congruence.
  - congruence.
  - congruence.
  - congruence.
  - congruence.
  - intros id. by rewrite rp_device0.
  - auto.
  - intros e [He|He]%elem_of_app.
    + destruct (rp_events0 e He) as [(id & ok & -> & Hid & Hr)|?]; [left|by right].
      exists id, ok. split_and!; [done| |done]. apply elem_of_app. by left.
    + destruct (rp_events1 e He) as [(id & ok & -> & Hid & Hr)|?]; [left|by right].
      exists id, ok. split_and!; [done| |].
      * apply elem_of_app. by right.
      * by apply rp_device0.
  - intros k. destruct (rp_only1 k) as [Hk|(id & -> & Hin)].
    + rewrite Hk. destruct (rp_only0 k) as [?|(id & -> & Hin)]; [by left|right].
      exists id. split; [done|]. apply elem_of_app. by left.
    + right. exists id. split; [done|]. apply elem_of_app. by right.
  - intros id Hin. rewrite rp_models0 in rp_fresh1.
    destruct (decide (EvRead id true ∈ Δ2)) as [H2|H2].
    + destruct (rp_fresh1 id H2) as (rd & Hrd & Hf). exists rd. split; [done|].
      eapply fresh_reading_mono; [| |done]; lia.
    + apply elem_of_app in Hin as [Hin|Hin]; [|done].
      destruct (rp_fresh0 id Hin) as (rd & Hrd & Hf). exists rd. split.
      * destruct (rp_only1 (model_key id)) as [->|(id' & Heq & Hin')]; [done|].
        apply model_key_inj in Heq. by subst.
      * eapply fresh_reading_mono; [| |done]; lia.
  - intros id [Hin|Hin]%elem_of_app Hr.
    + destruct (rp_attempt0 id Hin Hr) as [ok Hok]. exists ok. apply elem_of_app. by left.
    + apply rp_device0 in Hr.
      destruct (rp_attempt1 id Hin Hr) as [ok Hok]. exists ok. apply elem_of_app. by right.
Qed.

Lemma read_data_step_post model_id data c w :
  ∃ data' Δ c' w',
    read_data_step env model_id data c w = (Ok data', c', w') ∧
    reads_post env c w data [model_id] Δ c' w' data'.
Proof.
  unfold read_data_step. munfold. simpl.
  case_bool_decide as Hav; simpl.
  { (* not discovered: skipped *)
    eexists data, [EvLog WARNING], c, _. split; [reflexivity|].
    split; simpl; try done.
    - intros e ->%list_elem_of_singleton. right. by eexists.
    - intros k. by left.
    - intros id [=]%list_elem_of_singleton.
    - intros id ->%list_elem_of_singleton [[x Hx] _]. congruence. }
  rewrite read_model_eq.
  destruct (device c) as [d|] eqn:Hdev; simpl.
  2:{ eexists data, [], c, w. split; [done|]. apply reads_post_skip.
      intros id _ (_ & d & ? & _). congruence. }
  destruct (dev_models d !! inl model_id) as [[|m0 rest]|] eqn:Hm; simpl.
  1,3: (eexists data, [], c, w; split; [done|]; apply reads_post_skip;
        intros id ->%list_elem_of_singleton (_ & d' & ? & m' & rest' & ?); congruence).
  assert (Hr : readable c model_id).
  { split; [by destruct (available_models c !! model_id)|]. exists d. split; [done|]. by eexists _, _. }
  destruct (env_read env (clock w) model_id) as [m|] eqn:Hread; simpl.
  - (* the read succeeded *)
    eexists _, [EvRead model_id true], _, _. split; [reflexivity|].
    split; simpl; try done; try lia.
    + intros id. unfold readable. simpl. rewrite Hdev.
      split; intros (Hs & d' & Hd' & m' & rest' & Hl); split; try done.
      * simplify_eq. eexists. split; [done|]. unfold has_instance. simpl.
        destruct (decide (id = model_id)) as [->|Hne].
        -- rewrite lookup_insert_eq. by eexists _, _.
        -- rewrite lookup_insert_ne by congruence. by eexists _, _.
      * simplify_eq. eexists. split; [done|]. unfold has_instance. simpl in Hl.
        destruct (decide (id = model_id)) as [->|Hne].
        -- by eexists _, _.
        -- rewrite lookup_insert_ne in Hl by congruence. by eexists _, _.
    + intros e ->%list_elem_of_singleton. left. eexists _, _. split_and!; [done| |done].
      by apply list_elem_of_singleton.
    + intros k. destruct (decide (k = model_key model_id)) as [->|Hne].
      * right. exists model_id. split; [done|]. by apply list_elem_of_singleton.
      * left. by rewrite lookup_insert_ne.
    + intros id [= ->]%list_elem_of_singleton. eexists. split; [apply lookup_insert_eq|].
      exists (clock w), m. simpl. split_and!; [lia|lia|done|done].
    + intros id ->%list_elem_of_singleton _. exists true. by apply list_elem_of_singleton.
  - (* the read raised *)
    eexists data, [EvRead model_id false; EvLog ERROR], c, _. split; [reflexivity|].
    split; simpl; try done; try lia.
    + by rewrite <- app_assoc.
    + intros e [->|[->|[]%elem_of_nil]%elem_of_cons]%elem_of_cons.
      * left. eexists _, _. split_and!; [done| |done]. by apply list_elem_of_singleton.
      * right. by eexists.
    + intros k. by left.
    + intros id [[=]|[[=]|[]%elem_of_nil]%elem_of_cons]%elem_of_cons.
    + intros id ->%list_elem_of_singleton _. exists false. apply elem_of_cons. by left.
Qed.

Lemma read_data_loop_post model_ids : ∀ data c w,
  ∃ data' Δ c' w',
    read_data_loop env model_ids data c w = (Ok data', c', w') ∧
    reads_post env c w data model_ids Δ c' w' data'.
Proof.
  induction model_ids as [|model_id rest IH]; intros data c w.
  - eexists data, [], c, w. split; [done|]. apply reads_post_nil.
  - destruct (read_data_step_post model_id data c w) as (data1 & Δ1 & c1 & w1 & Hstep & Hpost1).
    destruct (IH data1 c1 w1) as (data2 & Δ2 & c2 & w2 & Hloop & Hpost2).
    exists data2, (Δ1 ++ Δ2), c2, w2. split.
    + simpl. unfold mbind, M_bind, bind. by rewrite Hstep.
    + change (model_id :: rest) with ([model_id] ++ rest).
      by eapply reads_post_app.
Qed.

End ReadFacts.

(** ** Loops that only update the state *)

Lemma for_each_pure {S A} (body : A → M S unit) (f : A → S → S) (l : list A) :
  (∀ x s w, body x s w = (Ok tt, f x s, w)) →
  ∀ s w, for_each l body s w = (Ok tt, foldl (λ s x, f x s) s l, w).
Proof.
  intros Hbody. induction l as [|x l IH]; intros s w; [done|].
  simpl. unfold mbind, M_bind, bind. by rewrite Hbody, IH.
Qed.

Lemma foldl_insert_union {V} (l : list (string * V)) : ∀ m : gmap string V,
  NoDup l.*1 →
  foldl (λ acc kv, <[kv.1 := kv.2]> acc) m l = list_to_map l ∪ m.
Proof.
  induction l as [|[k v] l IH]; intros m Hnd; simpl.
  - by rewrite (left_id ∅ (∪)).
  - apply NoDup_cons in Hnd as [Hk Hnd]. rewrite IH by done.
    rewrite <- insert_union_l.
    by rewrite insert_union_r by by apply not_elem_of_list_to_map_1.
Qed.

(** The update loop of [_polling_loop]: afterwards [last_data] is [data]
    on the keys of [data] and as before elsewhere. *)
Lemma update_last_data_eq (data : gmap string Reading) g w :
  for_each (map_to_list data)
    (λ '(model_key, model_data),
       modify (λ g, set_last_data (<[model_key := model_data]> (last_data g)) g)) g w
  = (Ok tt, set_last_data (data ∪ last_data g) g, w).
Proof.
  rewrite (for_each_pure _
             (λ kv g, set_last_data (<[kv.1 := kv.2]> (last_data g)) g)).
  2:{ by intros [k v] s w'. }
  f_equal. f_equal.
  assert (Hfold : ∀ l g,
    foldl (λ s (x : string * Reading), set_last_data (<[x.1:=x.2]> (last_data s)) s) g l
    = set_last_data (foldl (λ acc kv, <[kv.1 := kv.2]> acc) (last_data g) l) g).
  { clear. induction l as [|x l IH]; intros g; simpl; [by destruct g|]. by rewrite IH. }
  rewrite Hfold, foldl_insert_union by apply NoDup_fst_map_to_list.
  by rewrite list_to_map_to_list.
Qed.

Lemma record_models_lookup (l : list (ModelKey * list ModelObj)) : ∀ c id,
  NoDup l.*1 →
  available_models (foldl (λ c kv, record_model kv c) c l) !! id =
  match (list_to_map l : gmap ModelKey (list ModelObj)) !! inl id with
  | Some model_list => Some (discovered_name id model_list)
  | None => available_models c !! id
  end.
Proof.
  induction l as [|[k ml] l IH]; intros c id Hnd; simpl; [done|].
  apply NoDup_cons in Hnd as [Hk Hnd]. rewrite IH by done.
  destruct (decide (k = inl id)) as [->|Hne].
  - rewrite lookup_insert_eq.
    rewrite (not_elem_of_list_to_map_1 l (inl id)) by done.
    unfold record_model. simpl. by rewrite lookup_insert_eq.
  - rewrite lookup_insert_ne by done.
    destruct (list_to_map l !! inl id); [done|].
    unfold record_model. simpl. destruct k as [id'|name]; [|done].
    simpl. rewrite lookup_insert_ne; [done|congruence].
Qed.

Lemma record_models_frame (l : list (ModelKey * list ModelObj)) : ∀ c,
  let c' := foldl (λ c kv, record_model kv c) c l in
  config c' = config c ∧ device c' = device c ∧ is_connected c' = is_connected c ∧
  last_read_time c' = last_read_time c ∧ cached_data c' = cached_data c.
Proof.
  induction l as [|[k ml] l IH]; intros c; simpl; [done|].
  destruct (IH (record_model (k, ml) c)) as (-> & -> & -> & -> & ->).
  unfold record_model. by destruct k.
Qed.

(** ** Connecting and disconnecting *)

Section ConnectFacts.
Variable env : Env.

Lemma _discover_models_eq c w :
  _discover_models env c w =
  match device c with
  | None => (Raise SunSpecDeviceError, c, w)
  | Some d =>
      match env_scan env (clock w) with
      | Some ms => (Ok tt, discovered (dev_params d) ms c,
                    add_events [EvLog INFO; EvScan true; EvLog INFO] 1 w)
      | None => (Raise SunSpecDeviceError, c, add_events [EvLog INFO; EvScan false] 1 w)
      end
  end.
Proof.
  unfold _discover_models, device_scan.
  unfold mbind, M_bind, bind at 1. unfold get at 1.
  destruct (device c) as [d|]; [|done].
  unfold try_except, try_with.
  unfold mbind, M_bind, bind, log, emit, modify_world, advance, get_world, ret, mret, M_ret,
    raise, modify, get. simpl.
  destruct (env_scan env (clock w)) as [ms|]; simpl.
  - rewrite (for_each_pure _ record_model).
    2:{ by intros [[id|n] ml] s w'. }
    unfold discovered. f_equal. world_eq.
  - f_equal. world_eq.
Qed.

Lemma connect_eq c w :
  connect env c w =
  match transport_of (config c) with
  | None => (Ok false, set_is_connected false c, add_events [EvLog INFO; EvLog ERROR] 0 w)
  | Some p =>
      if env_open env (clock w) p then
        match env_scan env (clock w + 1) with
        | Some ms =>
            (Ok true, set_is_connected true (discovered p ms c),
             add_events [EvLog INFO; EvLog INFO; EvOpen p true; EvLog INFO; EvScan true;
                         EvLog INFO; EvLog INFO] 2 w)
        | None =>
            (Ok false,
             set_is_connected false
               (set_device (Some {| dev_params := p; dev_models := ∅ |}) c),
             add_events [EvLog INFO; EvLog INFO; EvOpen p true; EvLog INFO; EvScan false;
                         EvLog ERROR] 2 w)
        end
      else (Ok false, set_is_connected false c,
            add_events [EvLog INFO; EvLog INFO; EvOpen p false; EvLog ERROR] 1 w)
  end.
Proof.
  unfold connect, transport_of, _connect_tcp, _connect_rtu, construct_device.
  unfold try_except, try_with.
  unfold mbind, M_bind, bind, log, emit, modify_world, advance, get_world, ret, mret, M_ret,
    raise, modify, get. simpl.
  destruct (String.eqb (connection_type (inverter (config c))) "tcp").
  - destruct (tcp (inverter (config c))) as [cfg|]; simpl.
    2:{ f_equal. world_eq. }
    destruct (env_open env (clock w) (TCP cfg)); simpl.
    2:{ f_equal. world_eq. }
    rewrite _discover_models_eq. simpl.
    destruct (env_scan env (clock w + 1)) as [ms|]; simpl; f_equal; world_eq.
  - destruct (String.eqb (connection_type (inverter (config c))) "rtu").
    + destruct (rtu (inverter (config c))) as [cfg|]; simpl.
      2:{ f_equal. world_eq. }
      destruct (env_open env (clock w) (RTU cfg)); simpl.
      2:{ f_equal. world_eq. }
      rewrite _discover_models_eq. simpl.
      destruct (env_scan env (clock w + 1)) as [ms|]; simpl; f_equal; world_eq.
    + simpl. f_equal. world_eq.
Qed.

End ConnectFacts.

Section SessionFacts.
Variable env : Env.

Lemma disconnect_eq c w :
  disconnect env c w =
  match device c with
  | None => (Ok tt, c, w)
  | Some _ =>
      (Ok tt, set_is_connected false (set_device None c),
       add_events [EvClose (env_close env (clock w));
                   EvLog (if env_close env (clock w) then INFO else ERROR)] 1 w)
  end.
Proof.
  unfold disconnect, device_close. munfold. simpl.
  destruct (device c); [|done].
  destruct (env_close env (clock w)); simpl; f_equal; world_eq.
Qed.

Lemma read_data_raises model_ids c w :
  is_connected c = false ∨ device c = None →
  read_data env model_ids c w = (Raise SunSpecDeviceError, c, w).
Proof.
  intros H. unfold read_data. munfold. simpl.
  destruct H as [-> | ->]; [done|]. by rewrite orb_true_r.
Qed.

Lemma read_data_returns model_ids c w :
  is_connected c = true → is_Some (device c) →
  ∃ data Δ c1 w',
    read_data env model_ids c w =
      (Ok data, set_last_read_time (Some (clock w')) (set_cached_data data c1), w') ∧
    reads_post env c w ∅
      (default (models_to_read (data_collection (config c))) model_ids) Δ c1 w' data.
Proof.
  intros Hc Hd. unfold read_data.
  unfold mbind, M_bind, bind at 1. unfold get at 1.
  rewrite Hc, bool_decide_true by done. simpl.
  destruct (read_data_loop_post env
              (default (models_to_read (data_collection (config c))) model_ids) ∅ c w)
    as (data & Δ & c1 & w' & Hloop & Hpost).
  exists data, Δ, c1, w'. split; [|done].
  munfold. by rewrite Hloop.
Qed.

End SessionFacts.

(** ** The polling loop *)

Section GatewayFacts.
Variable env : Env.

Lemma set_client_id g : set_client (client g) g = g.
Proof. by destruct g. Qed.

Lemma _polling_loop_body_backoff g w :
  is_connected (client g) = false ∨ device (client g) = None →
  _polling_loop_body env g w =
    (Ok (LoopSuspend InBackoffSleep), g, add_events [EvLog ERROR; EvSleep 5] 0 w).
Proof.
  intros H. unfold _polling_loop_body. munfold. simpl.
  rewrite read_data_raises by done. simpl.
  rewrite set_client_id. f_equal. world_eq.
Qed.

Lemma _polling_loop_body_cycle g w :
  is_connected (client g) = true → is_Some (device (client g)) →
  ∃ data Δ c1 w1,
    reads_post env (client g) w ∅ (models_to_read (data_collection (gw_config g))) Δ c1 w1 data ∧
    _polling_loop_body env g w =
      (Ok (LoopSuspend InIntervalSleep),
       set_last_data (data ∪ last_data g)
         (set_client (set_last_read_time (Some (clock w1)) (set_cached_data data c1)) g),
       add_events [EvSleep (poll_interval (data_collection (gw_config g)))] 0 w1).
Proof.
  intros Hc Hd.
  destruct (read_data_returns env
              (Some (models_to_read (data_collection (gw_config g)))) (client g) w Hc Hd)
    as (data & Δ & c1 & w1 & Hread & Hpost).
  exists data, Δ, c1, w1. split; [done|].
  unfold _polling_loop_body.
  unfold try_with, on_client, mbind, M_bind, bind at 1. unfold bind at 1. unfold get at 1.
  unfold bind at 1. rewrite Hread.
  unfold bind at 1.
  case_bool_decide as Hempty.
  - subst data. munfold. simpl. rewrite (left_id ∅ (∪)).
    match goal with |- _ = (_, set_last_data _ ?x, _) =>
      replace (set_last_data (last_data g) x) with x by by destruct g end.
    f_equal. world_eq.
  - unfold bind at 1. rewrite update_last_data_eq. munfold. simpl.
    f_equal. world_eq.
Qed.

End GatewayFacts.

Section CycleFacts.
Variable env : Env.

Lemma _polling_loop_body_post g w :
  ∃ Δ at_ g' w',
    _polling_loop_body env g w = (Ok (LoopSuspend at_), g', w') ∧
    cycle_post env g w Δ g' w'.
Proof.
  destruct (is_connected (client g)) eqn:Hc; [destruct (device (client g)) as [d|] eqn:Hd|].
  - destruct (_polling_loop_body_cycle env g w Hc) as (data & Δ & c1 & w1 & Hpost & Hbody).
    { by rewrite Hd. }
    eexists (Δ ++ [EvSleep _]), _, _, _. split; [exact Hbody|].
    destruct Hpost. split; simpl; try done.
    + by rewrite rp_trace0, app_assoc.
    + lia.
    + intros e [He|He]%elem_of_app.
      * destruct (rp_events0 e He) as [(id & ok & -> & _ & Hr)|?]; [left|right; by left].
        by exists id, ok.
      * apply list_elem_of_singleton in He as ->. right. right. by eexists.
    + intros k. destruct (rp_only0 k) as [Hk|(id & -> & Hin)].
      * left. rewrite lookup_empty in Hk. by apply lookup_union_r.
      * right. exists id. split; [done|]. apply elem_of_app. by left.
    + intros id [Hin|Hin]%elem_of_app.
      2:{ by apply list_elem_of_singleton in Hin. }
      destruct (rp_fresh0 id Hin) as (rd & Hrd & Hf). exists rd. split.
      * by apply lookup_union_Some_l.
      * eapply fresh_reading_mono; [| |done]; simpl; lia.
  - eexists [EvLog ERROR; EvSleep 5], _, g, _.
    split; [apply _polling_loop_body_backoff; by right|].
    split; simpl; try done; try lia.
    + intros e [->|[->|[]%elem_of_nil]%elem_of_cons]%elem_of_cons; right; [left|right]; by eexists.
    + intros k. by left.
    + intros id [[=]|[[=]|[]%elem_of_nil]%elem_of_cons]%elem_of_cons.
  - eexists [EvLog ERROR; EvSleep 5], _, g, _.
    split; [apply _polling_loop_body_backoff; by left|].
    split; simpl; try done; try lia.
    + intros e [->|[->|[]%elem_of_nil]%elem_of_cons]%elem_of_cons; right; [left|right]; by eexists.
    + intros k. by left.
    + intros id [[=]|[[=]|[]%elem_of_nil]%elem_of_cons]%elem_of_cons.
Qed.

End CycleFacts.

(** * The claims *)

(** Case analysis on membership in an explicit list of events. *)
Ltac elem_cases H :=
  repeat (apply elem_of_cons in H as [H|H]; [simplify_eq|]);
  try (by apply elem_of_nil in H).

(** Membership of an event in an explicit list. *)
Ltac elem_in := repeat first [apply list_elem_of_here | apply list_elem_of_further].

Section Claims.
Variable env : Env.

Lemma get_live_data_eq g w :
  get_live_data g w =
  (if negb (gw_is_connected g) then Raise (HTTPException 503)
   else if bool_decide (last_data g = ∅) then Raise (HTTPException 404)
   else Ok (last_data g), g, w).
Proof.
  unfold get_live_data. munfold. simpl.
  destruct (gw_is_connected g); simpl; [|done]. by case_bool_decide.
Qed.

(** [connect] always returns a boolean, the new value of [is_connected]. *)
Lemma connect_returns c w :
  ∃ b c' Δ dt,
    connect env c w = (Ok b, c', add_events Δ dt w) ∧
    is_connected c' = b ∧ config c' = config c ∧
    (∀ e, e ∈ Δ → (∃ lvl, e = EvLog lvl) ∨ (∃ p ok, e = EvOpen p ok) ∨ (∃ ok, e = EvScan ok)).
Proof.
  rewrite connect_eq.
  destruct (transport_of (config c)) as [p|].
  2:{ eexists _, _, _, _. split; [done|]. split_and!; try done.
      intros e He. elem_cases He; naive_solver. }
  destruct (env_open env (clock w) p).
  2:{ eexists _, _, _, _. split; [done|]. split_and!; try done.
      intros e He. elem_cases He; naive_solver. }
  destruct (env_scan env (clock w + 1)) as [ms|].
  - eexists _, _, _, _. split; [done|]. split_and!; try done.
    + unfold discovered. simpl. by destruct (record_models_frame (map_to_list ms)
        (set_available_models ∅ (set_device (Some {| dev_params := p; dev_models := ms |}) c)))
        as (-> & _).
    + intros e He. elem_cases He; naive_solver.
  - eexists _, _, _, _. split; [done|]. split_and!; try done.
    intros e He. elem_cases He; naive_solver.
Qed.

Lemma startup_eq g w b c' w' :
  connect env (client g) w = (Ok b, c', w') →
  startup env g w =
  (Ok tt,
   if b then set_polling_task (Some (length (tasks w')))
               (set_gw_is_connected true (set_client c' g))
   else set_client c' g,
   if b then {| clock := clock w';
                trace := trace w' ++ [EvLog INFO; EvCreateTask (length (tasks w')); EvLog INFO];
                tasks := tasks w' ++ [Suspended AtStart false] |}
   else add_events [EvLog ERROR] 0 w').
Proof.
  intros Hc. unfold startup, create_task. munfold. rewrite Hc.
  destruct b; simpl; f_equal; world_eq.
Qed.

Lemma connect_device_eq g w b c' w' :
  connect env (client g) w = (Ok b, c', w') →
  connect_device env g w =
  (Ok {| cr_connected := b; cr_timestamp := clock w' |},
   if b && negb (bool_decide (is_Some (polling_task g)))
   then set_polling_task (Some (length (tasks w'))) (set_gw_is_connected b (set_client c' g))
   else set_gw_is_connected b (set_client c' g),
   if b && negb (bool_decide (is_Some (polling_task g)))
   then {| clock := clock w'; trace := trace w' ++ [EvCreateTask (length (tasks w'))];
           tasks := tasks w' ++ [Suspended AtStart false] |}
   else w').
Proof.
  intros Hc. unfold connect_device, create_task. munfold. rewrite Hc. simpl.
  destruct (b && negb (bool_decide (is_Some (polling_task g)))); simpl; [done|].
  by destruct w'.
Qed.

Lemma startup_last_data g w :
  last_data (state_after (startup env g w)) = last_data g.
Proof.
  destruct (connect_returns (client g) w) as (b & c' & Δ & dt & Hc & _).
  rewrite (startup_eq _ _ _ _ _ Hc). by destruct b.
Qed.

(** C8.  GET /data/live answers 503 when the gateway is not connected, 404
    when it is connected and the snapshot table [last_data] is empty, and
    the whole snapshot table otherwise; it changes nothing.  Right after a
    successful [startup] of a fresh gateway, before any poll cycle, the
    answer is 404. *)
Theorem get_live_data_status g w :
  let res := get_live_data g w in
  state_after res = g ∧ world_after res = w ∧
  (gw_is_connected g = false → result_of res = Raise (HTTPException 503)) ∧
  (gw_is_connected g = true → last_data g = ∅ → result_of res = Raise (HTTPException 404)) ∧
  (gw_is_connected g = true → last_data g ≠ ∅ → result_of res = Ok (last_data g)) ∧
  (∀ cfg, let up := startup env (SunSpecGateway_init cfg) w in
          gw_is_connected (state_after up) = true →
          result_of (get_live_data (state_after up) (world_after up))
          = Raise (HTTPException 404)).
Proof.
  simpl. rewrite get_live_data_eq. unfold state_after, world_after, result_of. simpl.
  split_and!; try done.
  - by intros ->.
  - intros -> Hd. simpl. by rewrite bool_decide_true.
  - intros -> Hd. simpl. by rewrite bool_decide_false.
  - intros cfg Hc. rewrite get_live_data_eq. simpl.
    pose proof (startup_last_data (SunSpecGateway_init cfg) w) as Hl.
    unfold state_after in Hc, Hl. rewrite Hc, Hl. simpl. by rewrite bool_decide_true.
Qed.

Lemma read_model_returns model_id c w :
  ∃ d c' w', read_model env model_id c w = (Ok d, c', w').
Proof. rewrite read_model_eq. repeat case_match; by eexists _, _, _. Qed.

Lemma get_model_data_eq model_id g w d c' w' :
  read_model env model_id (client g) w = (Ok d, c', w') →
  get_model_data env model_id g w =
  if gw_is_connected g
  then (Ok {| mr_model_id := model_id; mr_points := d; mr_timestamp := clock w' |},
        set_client c' g, w')
  else (Raise (HTTPException 503), g, w).
Proof.
  intros Hr. unfold get_model_data. munfold. simpl.
  destruct (gw_is_connected g); simpl; [|done]. by rewrite Hr.
Qed.

(** GET /data/model/{id} never answers 404. *)
Lemma get_model_data_never_404 model_id g w :
  status_code_of (result_of (get_model_data env model_id g w)) ≠ Some 404.
Proof.
  destruct (read_model_returns model_id (client g) w) as (d & c' & w' & Hr).
  rewrite (get_model_data_eq _ _ _ _ _ _ Hr). by destruct (gw_is_connected g).
Qed.

(** For a model the device object does not have, the answer is a success
    whose [points] is the empty dictionary. *)
Lemma get_model_data_unknown model_id g w :
  gw_is_connected g = true →
  (∀ d, device (client g) = Some d → dev_models d !! inl model_id = None) →
  get_model_data env model_id g w =
  (Ok {| mr_model_id := model_id; mr_points := EmptyDict; mr_timestamp := clock w |}, g, w).
Proof.
  intros Hc Hd.
  assert (Hr : read_model env model_id (client g) w = (Ok EmptyDict, client g, w)).
  { rewrite read_model_eq. destruct (device (client g)) as [d|]; [|done].
    by rewrite (Hd d). }
  rewrite (get_model_data_eq _ _ _ _ _ _ Hr), Hc. by rewrite set_client_id.
Qed.

(** C10, amended.  A call of [read_data] on a client that is not connected
    or has no device object raises [SunSpecDeviceError] before it touches
    anything: the client and the world are as before, so [get_cached_data]
    still reports the entries and the [last_read_time] of the last call
    that got through.  A call on a connected client with a device object
    returns a dictionary [data] and leaves it as the client's
    [cached_data], whatever was cached before: its keys are exactly the
    keys [model_<id>] of the models of which a device read succeeded during
    this call, so a model whose read failed this time is not in the cache,
    and the entry of a model read successfully is the reading built in this
    call; [last_read_time] is then set to the time of return, also when no
    read succeeded. *)
Theorem read_data_replaces_cache model_ids c w :
  let res := read_data env model_ids c w in
  let Δ := events_since w (world_after res) in
  (is_connected c = false ∨ device c = None →
     result_of res = Raise SunSpecDeviceError ∧
     state_after res = c ∧ world_after res = w ∧
     get_cached_data (state_after res) = get_cached_data c) ∧
  (is_connected c = true → is_Some (device c) →
     ∃ data,
       result_of res = Ok data ∧
       cd_data (get_cached_data (state_after res)) = data ∧
       (∀ k, is_Some (data !! k) ↔ ∃ id, k = model_key id ∧ EvRead id true ∈ Δ) ∧
       (∀ id, EvRead id true ∉ Δ →
              cd_data (get_cached_data (state_after res)) !! model_key id = None) ∧
       (∀ id, EvRead id true ∈ Δ →
              ∃ rd, data !! model_key id = Some rd ∧
                    fresh_reading env (available_models c) w (world_after res) id rd) ∧
       cd_last_read_time (get_cached_data (state_after res)) = Some (clock (world_after res)) ∧
       cd_available_models (get_cached_data (state_after res)) = available_models c).
Proof.
  cbv zeta. split.
  { intros H. by rewrite (read_data_raises env model_ids c w H). }
  intros Hc Hd.
  destruct (read_data_returns env model_ids c w Hc Hd) as (data & Δ & c1 & w' & Hread & Hpost).
  simpl. rewrite Hread. unfold result_of, state_after, world_after. simpl.
  destruct Hpost as [Htrace _ _ _ _ _ _ Hmodels _ _ _ Honly Hfresh _].
  rewrite (events_since_app _ _ _ Htrace).
  assert (Hkeys : ∀ k, is_Some (data !! k) ↔ ∃ id, k = model_key id ∧ EvRead id true ∈ Δ).
  { intros k. split.
    - intros Hk. destruct (Honly k) as [Hsame|?]; [|done].
      rewrite Hsame, lookup_empty in Hk. by destruct Hk.
    - intros (id & -> & Hin). destruct (Hfresh id Hin) as (rd & -> & _). by eexists. }
  exists data. split_and!; try done.
  intros id Hid. apply eq_None_not_Some. intros Hk.
  apply Hkeys in Hk as (id' & Heq & Hin). apply model_key_inj in Heq. by subst.
Qed.

(** *** Runs of the polling task *)

Lemma run_polling_task_cancelled tid g w at_ :
  tasks w !! tid = Some (Suspended at_ true) →
  run_polling_task env tid g w =
  (Ok tt, g, {| clock := clock w; trace := trace w ++ [EvTaskDone tid];
                tasks := <[tid := deliver_cancel at_]> (tasks w) |}).
Proof. intros Ht. unfold run_polling_task, finish_task. munfold. by rewrite Ht. Qed.

Lemma run_polling_task_running tid g w p at_ g' w' :
  tasks w !! tid = Some (Suspended p false) →
  _polling_loop_body env g w = (Ok (LoopSuspend at_), g', w') →
  run_polling_task env tid g w =
  (Ok tt, g', set_tasks (<[tid := Suspended at_ false]> (tasks w')) w').
Proof.
  intros Ht Hb. unfold run_polling_task.
  unfold mbind, M_bind, bind at 1. unfold get_world at 1. rewrite Ht.
  unfold bind at 1. by rewrite Hb.
Qed.

Lemma run_polling_task_idle tid g w :
  tasks w !! tid = None ∨ (∃ c, tasks w !! tid = Some (Finished c)) →
  run_polling_task env tid g w = (Ok tt, g, w).
Proof.
  intros Ht. unfold run_polling_task. munfold.
  by destruct Ht as [-> | [c ->]].
Qed.

(** A model that is not in the registry is not read, and its snapshot
    entry is not written, by a run of the polling task. *)
Lemma run_polling_task_gated tid g w id :
  available_models (client g) !! id = None →
  ∃ Δ g' w',
    run_polling_task env tid g w = (Ok tt, g', w') ∧
    trace w' = trace w ++ Δ ∧
    (∀ ok, EvRead id ok ∉ Δ) ∧
    last_data g' !! model_key id = last_data g !! model_key id ∧
    available_models (client g') = available_models (client g).
Proof.
  intros Hid.
  destruct (tasks w !! tid) as [[p [|]|c]|] eqn:Ht.
  - eexists [EvTaskDone tid], g, _. split; [by eapply run_polling_task_cancelled|].
    split_and!; try done. intros ok Hin. elem_cases Hin.
  - destruct (_polling_loop_body_post env g w) as (Δ & at_ & g' & w' & Hb & Hpost).
    destruct Hpost as [Htrace _ _ _ _ _ Hmodels Hevents Honly _].
    exists Δ, g', (set_tasks (<[tid := Suspended at_ false]> (tasks w')) w').
    split; [by eapply run_polling_task_running|]. split_and!; try done.
    + intros ok Hin. destruct (Hevents _ Hin) as [(id' & ok' & Heq & Hr)|[[? ?]|[? ?]]]; [|done..].
      simplify_eq. destruct Hr as [[x Hx] _]. congruence.
    + destruct (Honly (model_key id)) as [?|(id' & Heq & Hin)]; [done|].
      apply model_key_inj in Heq as <-.
      destruct (Hevents _ Hin) as [(id' & ok' & Heq & Hr)|[[? ?]|[? ?]]]; [|done..].
      simplify_eq. destruct Hr as [[x Hx] _]. congruence.
  - exists [], g, w. split; [apply run_polling_task_idle; eauto|].
    split_and!; try done; [by rewrite app_nil_r|]. intros ok Hin. by apply elem_of_nil in Hin.
  - exists [], g, w. split; [apply run_polling_task_idle; eauto|].
    split_and!; try done; [by rewrite app_nil_r|]. intros ok Hin. by apply elem_of_nil in Hin.
Qed.

(** A model id that is not in the registry is skipped by the polling task,
    however often the task runs: no read of that model is issued and the
    snapshot table has at its key what it had before. *)
Lemma run_cycles_gated tid n g w id :
  available_models (client g) !! id = None →
  let res := run_cycles env tid n g w in
  result_of res = Ok tt ∧
  (∀ ok, EvRead id ok ∉ events_since w (world_after res)) ∧
  last_data (state_after res) !! model_key id = last_data g !! model_key id ∧
  available_models (client (state_after res)) !! id = None.
Proof.
  intros Hid. simpl.
  cut (∃ Δ g' w', run_cycles env tid n g w = (Ok tt, g', w') ∧
         trace w' = trace w ++ Δ ∧ (∀ ok, EvRead id ok ∉ Δ) ∧
         last_data g' !! model_key id = last_data g !! model_key id ∧
         available_models (client g') !! id = None).
  { intros (Δ & g' & w' & -> & Htrace & Hno & Hsame & Hnone).
    unfold result_of, world_after, state_after. simpl.
    by rewrite (events_since_app _ _ _ Htrace). }
  revert g w Hid. induction n as [|n IH]; intros g w Hid.
  - exists [], g, w. split_and!; try done; [by rewrite app_nil_r|].
    intros ok Hin. by apply elem_of_nil in Hin.
  - destruct (run_polling_task_gated tid g w id Hid)
      as (Δ1 & g1 & w1 & Hstep & Htrace1 & Hno1 & Hsame1 & Hmodels1).
    destruct (IH g1 w1) as (Δ2 & g2 & w2 & Hrest & Htrace2 & Hno2 & Hsame2 & Hnone2).
    { by rewrite Hmodels1. }
    exists (Δ1 ++ Δ2), g2, w2. split_and!; try done.
    + simpl. unfold mbind, M_bind, bind. by rewrite Hstep.
    + by rewrite Htrace2, Htrace1, app_assoc.
    + intros ok [Hin|Hin]%elem_of_app; [by eapply Hno1|by eapply Hno2].
    + by rewrite Hsame2.
Qed.

(** C1.  One pass through the body of the polling loop is one poll cycle.
    It never ends the loop.  The snapshot entry of a model of which no
    device read succeeded in the cycle, and every entry under another key,
    is left as it was; the entry of a model of which a read succeeded is
    the reading built in this cycle from the device's answer, with its time
    as timestamp: when the read of model [a] fails and the read of model
    [b] succeeds in the same cycle, the entry of [b] is updated and the
    entry of [a] is untouched.  On a connected client the cycle reaches the
    interval sleep, and every configured model that is in the registry and
    on the device has been attempted, whatever the other reads did. *)
Theorem poll_cycle_failure_isolation g w :
  let res := _polling_loop_body env g w in
  let Δ := events_since w (world_after res) in
  (∃ at_, result_of res = Ok (LoopSuspend at_)) ∧
  (∀ id, EvRead id true ∉ Δ →
         last_data (state_after res) !! model_key id = last_data g !! model_key id) ∧
  (∀ k, (∀ id, k ≠ model_key id) → last_data (state_after res) !! k = last_data g !! k) ∧
  (∀ id, EvRead id true ∈ Δ →
         ∃ rd, last_data (state_after res) !! model_key id = Some rd ∧
               fresh_reading env (available_models (client g)) w (world_after res) id rd) ∧
  (∀ a b, EvRead a false ∈ Δ → EvRead a true ∉ Δ → EvRead b true ∈ Δ →
          last_data (state_after res) !! model_key a = last_data g !! model_key a ∧
          ∃ rd, last_data (state_after res) !! model_key b = Some rd ∧
                fresh_reading env (available_models (client g)) w (world_after res) b rd) ∧
  (is_connected (client g) = true → is_Some (device (client g)) →
     result_of res = Ok (LoopSuspend InIntervalSleep) ∧
     ∀ id, id ∈ models_to_read (data_collection (gw_config g)) →
           readable (client g) id → ∃ ok, EvRead id ok ∈ Δ).
Proof.
  simpl.
  destruct (_polling_loop_body_post env g w) as (Δ & at_ & g' & w' & Hb & Hpost).
  destruct Hpost as [Htrace _ _ _ _ _ _ _ Honly Hfresh].
  split_and!.
  - rewrite Hb. by eexists.
  - rewrite Hb. unfold state_after, world_after. simpl.
    rewrite (events_since_app _ _ _ Htrace). intros id Hno.
    destruct (Honly (model_key id)) as [?|(id' & Heq & Hin)]; [done|].
    apply model_key_inj in Heq as <-. done.
  - rewrite Hb. unfold state_after. simpl. intros k Hk.
    destruct (Honly k) as [?|(id' & Heq & Hin)]; [done|]. by destruct (Hk id').
  - rewrite Hb. unfold state_after, world_after. simpl.
    rewrite (events_since_app _ _ _ Htrace). apply Hfresh.
  - rewrite Hb. unfold state_after, world_after. simpl.
    rewrite (events_since_app _ _ _ Htrace). intros a b _ Hno Hyes. split.
    + destruct (Honly (model_key a)) as [?|(id' & Heq & Hin)]; [done|].
      apply model_key_inj in Heq as <-. done.
    + by apply Hfresh.
  - intros Hc Hd.
    destruct (_polling_loop_body_cycle env g w Hc Hd) as (data & Δr & c1 & w1 & Hpost & Hcycle).
    rewrite Hcycle. unfold result_of, world_after. simpl. split; [done|].
    destruct Hpost as [Htr _ _ _ _ _ _ _ _ _ _ _ _ Hattempt].
    intros id Hin Hr. destruct (Hattempt id Hin Hr) as [ok Hok]. exists ok.
    rewrite (events_since_app _ _ (Δr ++ [EvSleep (poll_interval (data_collection (gw_config g)))])).
    + apply elem_of_app. by left.
    + simpl. by rewrite Htr, app_assoc.
Qed.

(** *** The back-off and the life of the polling task *)

Lemma run_polling_task_stays_alive tid g w at_ :
  tasks w !! tid = Some (Suspended at_ false) →
  ∃ g' w' at', run_polling_task env tid g w = (Ok tt, g', w') ∧
               tasks w' !! tid = Some (Suspended at' false).
Proof.
  intros Ht.
  destruct (_polling_loop_body_post env g w) as (Δ & at' & g' & w' & Hb & Hpost).
  destruct Hpost as [_ _ Htasks _ _ _ _ _ _ _].
  eexists g', _, at'. split; [by eapply run_polling_task_running|].
  simpl. rewrite Htasks. apply list_lookup_insert_eq. by eapply lookup_lt_Some.
Qed.

Lemma run_cycles_stays_alive tid n : ∀ g w at_,
  tasks w !! tid = Some (Suspended at_ false) →
  ∃ g' w' at', run_cycles env tid n g w = (Ok tt, g', w') ∧
               tasks w' !! tid = Some (Suspended at' false).
Proof.
  induction n as [|n IH]; intros g w at_ Ht.
  - by exists g, w, at_.
  - destruct (run_polling_task_stays_alive tid g w at_ Ht) as (g1 & w1 & at1 & Hstep & Ht1).
    destruct (IH g1 w1 at1 Ht1) as (g2 & w2 & at2 & Hrest & Ht2).
    exists g2, w2, at2. split; [|done].
    simpl. unfold mbind, M_bind, bind. by rewrite Hstep.
Qed.

(** C9, amended.  When [read_data] raises (the client is not connected or
    has no device), the pass through the loop body logs the error, leaves
    the gateway as it was and parks the coroutine in a sleep of 5 seconds:
    a constant, whatever the configured poll interval is.  A polling task
    whose cancellation was not requested is still alive, and not cancelled,
    after any number of runs; a requested cancellation ends it at its next
    run. *)
Theorem polling_loop_backoff_is_five_seconds tid n g w :
  let res := _polling_loop_body env g w in
  (is_connected (client g) = false ∨ device (client g) = None →
     result_of res = Ok (LoopSuspend InBackoffSleep) ∧
     events_since w (world_after res) = [EvLog ERROR; EvSleep 5] ∧
     state_after res = g) ∧
  (∀ at_, tasks w !! tid = Some (Suspended at_ false) →
     result_of (run_cycles env tid n g w) = Ok tt ∧
     ∃ at', tasks (world_after (run_cycles env tid n g w)) !! tid
            = Some (Suspended at' false)) ∧
  (∀ at_, tasks w !! tid = Some (Suspended at_ true) →
     tasks (world_after (run_polling_task env tid g w)) !! tid = Some (deliver_cancel at_)).
Proof.
  simpl. split_and!.
  - intros H. rewrite (_polling_loop_body_backoff env g w H).
    unfold result_of, world_after, state_after. simpl. split_and!; try done.
    by apply events_since_app.
  - intros at_ Ht.
    destruct (run_cycles_stays_alive tid n g w at_ Ht) as (g' & w' & at' & -> & Ht').
    split; [done|]. by exists at'.
  - intros at_ Ht. rewrite (run_polling_task_cancelled tid g w at_ Ht).
    unfold world_after. simpl. apply list_lookup_insert_eq. by eapply lookup_lt_Some.
Qed.

(** *** Reachable states *)

Lemma shutdown_frame g w :
  gw_is_connected (state_after (shutdown env g w)) = gw_is_connected g ∧
  polling_task (state_after (shutdown env g w)) = polling_task g.
Proof.
  unfold shutdown, await_task, task_cancel, finish_task. munfold. simpl.
  unfold state_after.
  destruct (polling_task g) as [tid|] eqn:Hpt; simpl.
  - destruct (alter request_cancel tid (tasks w) !! tid) as [[at_ [|]|[|]]|]; simpl;
      try destruct at_; simpl; rewrite ?disconnect_eq; simpl;
      destruct (device (client g)); munfold; by simpl.
  - rewrite disconnect_eq. destruct (device (client g)); munfold; by simpl.
Qed.

Lemma serve_one_holds_task r g w :
  holds_task g → holds_task (serve_one env r g w).1.
Proof.
  unfold holds_task. intros Hinv.
  destruct r as [| | | | | |model_id| | |tid]; unfold serve_one, after, state_after; simpl.
  - destruct (connect_returns (client g) w) as (b & c' & Δ & dt & Hc & _).
    rewrite (startup_eq _ _ _ _ _ Hc). destruct b; simpl; eauto.
  - destruct (shutdown_frame g w) as [H1 H2]. unfold state_after in *.
    by rewrite H1, H2.
  - unfold get_status. munfold. exact Hinv.
  - unfold get_device_info_route, get_device_info. munfold. simpl.
    destruct (gw_is_connected g) eqn:Hg; simpl; [|by rewrite Hg].
    destruct (is_connected (client g)); simpl; [|by rewrite Hg].
    destruct (read_model_returns 1 (client g) w) as (d & c' & w' & ->). simpl.
    destruct d; simpl; by rewrite ?Hg.
  - unfold get_available_models_route, get_available_models. munfold. simpl.
    destruct (gw_is_connected g) eqn:Hg; simpl; by rewrite Hg.
  - by rewrite get_live_data_eq.
  - destruct (read_model_returns model_id (client g) w) as (d & c' & w' & Hr).
    rewrite (get_model_data_eq _ _ _ _ _ _ Hr).
    destruct (gw_is_connected g) eqn:Hg; simpl; by rewrite ?Hg.
  - destruct (connect_returns (client g) w) as (b & c' & Δ & dt & Hc & _).
    rewrite (connect_device_eq _ _ _ _ _ Hc). simpl.
    destruct b; simpl; [|done].
    case_bool_decide as Ht; simpl; [done|]. eauto.
  - unfold disconnect_device, task_cancel. munfold. simpl.
    destruct (polling_task g); simpl; rewrite disconnect_eq;
      destruct (device (client g)); by simpl.
  - destruct (tasks w !! tid) as [[p [|]|c]|] eqn:Ht.
    + by rewrite (run_polling_task_cancelled _ _ _ _ Ht).
    + destruct (_polling_loop_body_post env g w) as (Δ & at_ & g' & w' & Hb & Hpost).
      rewrite (run_polling_task_running _ _ _ _ _ _ _ Ht Hb). simpl.
      destruct Hpost as [_ _ _ _ -> -> _ _ _ _]. exact Hinv.
    + rewrite run_polling_task_idle by eauto. exact Hinv.
    + rewrite run_polling_task_idle by eauto. exact Hinv.
Qed.

(** Whatever reaches the gateway after its construction, a gateway that
    reports itself connected holds a polling task handle. *)
Lemma connected_holds_task rs : ∀ g w,
  holds_task g → holds_task (serve env rs g w).1.
Proof.
  induction rs as [|r rs IH]; intros g w Hinv; [done|].
  simpl. pose proof (serve_one_holds_task r g w Hinv) as H1.
  destruct (serve_one env r g w) as [g1 w1]. by apply IH.
Qed.


(** *** Connecting again, failing to connect, disconnecting *)

Lemma discovered_registry p ms c id :
  available_models (discovered p ms c) !! id = discovered_name id <$> ms !! inl id.
Proof.
  unfold discovered. rewrite record_models_lookup by apply NoDup_fst_map_to_list.
  rewrite list_to_map_to_list. simpl. rewrite lookup_empty. by destruct (ms !! inl id).
Qed.

Lemma discovered_device p ms c :
  device (discovered p ms c) = Some {| dev_params := p; dev_models := ms |}.
Proof.
  unfold discovered.
  by destruct (record_models_frame (map_to_list ms)
    (set_available_models ∅ (set_device (Some {| dev_params := p; dev_models := ms |}) c)))
    as (_ & -> & _).
Qed.

(** POST /device/connect on a gateway that holds a task handle. *)
Lemma connect_device_reconnects g w tid p :
  polling_task g = Some tid →
  transport_of (config (client g)) = Some p →
  let res := connect_device env g w in
  let Δ := events_since w (world_after res) in
  let opened := env_open env (clock w) p in
  let scanned := bool_decide (is_Some (env_scan env (clock w + 1))) in
  EvOpen p opened ∈ Δ ∧
  (opened = true → EvScan scanned ∈ Δ) ∧
  (∀ ok, EvClose ok ∉ Δ) ∧
  (∀ t, EvCreateTask t ∉ Δ) ∧
  polling_task (state_after res) = Some tid ∧
  tasks (world_after res) = tasks w ∧
  is_connected (client (state_after res)) = opened && scanned ∧
  gw_is_connected (state_after res) = opened && scanned ∧
  ∃ t, result_of res = Ok {| cr_connected := opened && scanned; cr_timestamp := t |}.
Proof.
  intros Htask Hp. simpl.
  pose proof (connect_eq env (client g) w) as Hc. rewrite Hp in Hc.
  destruct (env_open env (clock w) p) eqn:Hopen;
    [destruct (env_scan env (clock w + 1)) as [ms|] eqn:Hscan|];
    rewrite (connect_device_eq _ _ _ _ _ Hc), Htask; simpl;
    unfold world_after, state_after, result_of; simpl;
    (erewrite events_since_app by reflexivity);
    (split_and!;
     [elem_in
     |first [by intros ? | intros _; elem_in]
     |intros ok Hin; elem_cases Hin
     |intros t Hin; elem_cases Hin
     |done..
     |by eexists]).
Qed.

(** C3, amended.  In every state the gateway can reach in which it reports
    itself connected, it holds a polling task handle, and POST
    /device/connect runs the whole connect sequence again: a new device
    object is constructed (the old one is not closed) and, if that worked,
    discovery runs again; the answer and both connected flags are the
    outcome of this new attempt.  No polling task is created and the task
    handle is kept. *)
Theorem connect_device_when_connected cfg rs w0 p :
  let g := (serve env rs (SunSpecGateway_init cfg) w0).1 in
  let w := (serve env rs (SunSpecGateway_init cfg) w0).2 in
  gw_is_connected g = true →
  transport_of (config (client g)) = Some p →
  let res := connect_device env g w in
  let Δ := events_since w (world_after res) in
  let opened := env_open env (clock w) p in
  let scanned := bool_decide (is_Some (env_scan env (clock w + 1))) in
  EvOpen p opened ∈ Δ ∧
  (opened = true → EvScan scanned ∈ Δ) ∧
  (∀ ok, EvClose ok ∉ Δ) ∧
  (∀ t, EvCreateTask t ∉ Δ) ∧
  is_Some (polling_task g) ∧
  polling_task (state_after res) = polling_task g ∧
  tasks (world_after res) = tasks w ∧
  is_connected (client (state_after res)) = opened && scanned ∧
  gw_is_connected (state_after res) = opened && scanned ∧
  ∃ t, result_of res = Ok {| cr_connected := opened && scanned; cr_timestamp := t |}.
Proof.
  intros g w Hconn Hp.
  assert (Hheld : holds_task g).
  { apply connected_holds_task. by intros [=]. }
  destruct (Hheld Hconn) as [tid Htask].
  destruct (connect_device_reconnects g w tid p Htask Hp)
    as (H1 & H2 & H3 & H4 & H5 & H6 & H7 & H8 & H9).
  cbv zeta. rewrite Htask. by split_and!; try done.
Qed.

(** C5, amended.  [connect] never raises: it returns a boolean, which is
    also the new value of [is_connected], and that boolean is [true]
    exactly when the transport was constructed and discovery succeeded.
    It never closes a transport: after a discovery failure the device
    object it constructed stays in [self.device]; when no device object was
    constructed, [self.device] is what it was. *)
Theorem connect_failure_leaves_disconnected c w :
  let res := connect env c w in
  let Δ := events_since w (world_after res) in
  ∃ b, result_of res = Ok b ∧
       is_connected (state_after res) = b ∧
       (b = true ↔ ∃ p, transport_of (config c) = Some p ∧
                        env_open env (clock w) p = true ∧
                        is_Some (env_scan env (clock w + 1))) ∧
       (∀ ok, EvClose ok ∉ Δ) ∧
       (b = false → ∀ p, EvOpen p true ∈ Δ →
          device (state_after res) = Some {| dev_params := p; dev_models := ∅ |}) ∧
       (b = false → (∀ p, EvOpen p true ∉ Δ) → device (state_after res) = device c).
Proof.
  simpl. rewrite connect_eq.
  destruct (transport_of (config c)) as [p|];
    [destruct (env_open env (clock w) p) eqn:Hopen;
       [destruct (env_scan env (clock w + 1)) as [ms|] eqn:Hscan|]|];
    unfold world_after, state_after, result_of; simpl;
    (erewrite events_since_app by reflexivity);
    eexists; (split; [reflexivity|]); split_and!; try done.
  - split; [|done]. intros _. exists p. split_and!; first [done | by eexists].
  - intros ok Hin. elem_cases Hin.
  - split; [done|]. intros (p' & [= <-] & _ & [ms' Hms]). congruence.
  - intros ok Hin. elem_cases Hin.
  - intros _ p' Hin. elem_cases Hin. done.
  - intros _ Hno. destruct (Hno p). elem_in.
  - split; [done|]. intros (p' & [= <-] & ? & _). congruence.
  - intros ok Hin. elem_cases Hin.
  - intros _ p' Hin. elem_cases Hin.
  - split; [done|]. by intros (p' & [=] & _).
  - intros ok Hin. elem_cases Hin.
  - intros _ p' Hin. elem_cases Hin.
Qed.

(** C6, amended.  [disconnect] drops the device object but leaves the
    registry [available_models] as it is, and [get_cached_data] still
    reports it.  A later [connect] that succeeds replaces the registry by
    the integer-keyed models of the new scan alone; one that fails leaves
    the old registry in place. *)
Theorem disconnect_keeps_registry c w :
  let c1 := state_after (disconnect env c w) in
  available_models c1 = available_models c ∧
  cd_available_models (get_cached_data c1) = available_models c ∧
  device c1 = None ∧
  (is_Some (device c) → is_connected c1 = false) ∧
  ∀ w1, let res := connect env c1 w1 in
    (result_of res = Ok true →
       ∃ d, device (state_after res) = Some d ∧
            ∀ id, available_models (state_after res) !! id
                  = discovered_name id <$> dev_models d !! inl id) ∧
    (result_of res = Ok false →
       available_models (state_after res) = available_models c).
Proof.
  simpl. rewrite disconnect_eq.
  assert (Hconn : ∀ c1 w1, available_models c1 = available_models c →
    (result_of (connect env c1 w1) = Ok true →
       ∃ d, device (state_after (connect env c1 w1)) = Some d ∧
            ∀ id, available_models (state_after (connect env c1 w1)) !! id
                  = discovered_name id <$> dev_models d !! inl id) ∧
    (result_of (connect env c1 w1) = Ok false →
       available_models (state_after (connect env c1 w1)) = available_models c)).
  { intros c1 w1 Hsame. rewrite connect_eq. unfold result_of, state_after.
    destruct (transport_of (config c1)) as [p|]; [|by split].
    destruct (env_open env (clock w1) p); [|by split].
    destruct (env_scan env (clock w1 + 1)) as [ms|]; simpl; [|by split].
    split; [|done]. intros _. eexists. split; [apply discovered_device|].
    intros id. simpl. apply discovered_registry. }
  destruct (device c) as [d|] eqn:Hd; unfold state_after; simpl.
  - split_and!; try done. intros w1. by apply Hconn.
  - split_and!; try done; try (by intros [? ?]). intros w1. by apply Hconn.
Qed.

(** POST /device/disconnect on a gateway that holds a live polling task:
    the cancellation is requested and the transport is closed in the same
    step; the task is not awaited, and it has not run and has not ended
    when the transport is closed. *)
Lemma disconnect_device_does_not_await g w tid at_ :
  polling_task g = Some tid → tasks w !! tid = Some (Suspended at_ false) →
  is_Some (device (client g)) →
  let res := disconnect_device env g w in
  let closed := env_close env (clock w) in
  events_since w (world_after res)
    = [EvCancel tid; EvClose closed; EvLog (if closed then INFO else ERROR)] ∧
  tasks (world_after res) !! tid = Some (Suspended at_ true) ∧
  polling_task (state_after res) = None.
Proof.
  intros Htask Ht [d Hd]. simpl.
  unfold disconnect_device, task_cancel. munfold. rewrite Htask. simpl.
  rewrite disconnect_eq. simpl. rewrite Hd. simpl.
  unfold world_after, state_after. simpl. split_and!; try done.
  - apply events_since_app. simpl. by rewrite <- !app_assoc.
  - by rewrite list_lookup_alter_eq, Ht.
Qed.

End Claims.

(** * The claims on the concrete installation *)

(** C8 on the installation: connected, nothing polled yet, 404. *)
Lemma get_live_data_status_witness :
  gw_is_connected Scenario.g1 = true ∧ last_data Scenario.g1 = ∅ ∧
  result_of (get_live_data Scenario.g1 Scenario.w1) = Raise (HTTPException 404).
Proof.
  assert (Hc : gw_is_connected Scenario.g1 = true) by (vm_compute; reflexivity).
  assert (Hd : last_data Scenario.g1 = ∅) by (vm_compute; reflexivity).
  split_and!; [done..|].
  destruct (get_live_data_status Scenario.env Scenario.g1 Scenario.w1) as (_ & _ & _ & H & _).
  by apply H.
Defined.

(** C10 on the installation: in the second cycle the read of model 101
    fails, and the client's cache has no entry for it afterwards.  On the
    client that a failed reconnect left disconnected, [read_data] raises
    and the cache is what it was. *)
Lemma read_data_replaces_cache_witness :
  is_connected (client Scenario.g2) = true ∧ is_Some (device (client Scenario.g2)) ∧
  is_Some (cached_data (client Scenario.g2) !! model_key 101) ∧
  cd_data (get_cached_data
             (state_after (read_data Scenario.env None (client Scenario.g2) Scenario.w2)))
    !! model_key 101 = None ∧
  is_connected (client Scenario.g7) = false ∧
  get_cached_data
    (state_after (read_data Scenario.env_scan_once None (client Scenario.g7) Scenario.w7))
  = get_cached_data (client Scenario.g7).
Proof.
  assert (Hc : is_connected (client Scenario.g2) = true) by (vm_compute; reflexivity).
  assert (Hd : is_Some (device (client Scenario.g2))) by (vm_compute; by eexists).
  assert (Hoff : is_connected (client Scenario.g7) = false) by (vm_compute; reflexivity).
  destruct (read_data_replaces_cache Scenario.env None (client Scenario.g2) Scenario.w2)
    as [_ Hon].
  destruct (Hon Hc Hd) as (data & _ & _ & _ & H & _).
  destruct (read_data_replaces_cache Scenario.env_scan_once None (client Scenario.g7)
              Scenario.w7) as [Hraise _].
  destruct (Hraise (or_introl Hoff)) as (_ & _ & _ & Hsame).
  split_and!; [exact Hc|exact Hd|vm_compute; by eexists| |exact Hoff|exact Hsame].
  apply H. vm_compute. intros Hin. elem_cases Hin.
Defined.

(** C1 on the installation, second cycle: the read of model 101 fails and
    its entry stays; the read of model 1 succeeds and its entry is fresh;
    the cycle reaches the interval sleep. *)
Lemma poll_cycle_failure_isolation_witness :
  let res := _polling_loop_body Scenario.env Scenario.g2 Scenario.w2 in
  is_connected (client Scenario.g2) = true ∧ is_Some (device (client Scenario.g2)) ∧
  EvRead 101 false ∈ events_since Scenario.w2 (world_after res) ∧
  last_data (state_after res) !! model_key 101 = last_data Scenario.g2 !! model_key 101 ∧
  (∃ rd, last_data (state_after res) !! model_key 1 = Some rd ∧
         fresh_reading Scenario.env (available_models (client Scenario.g2))
           Scenario.w2 (world_after res) 1 rd) ∧
  result_of res = Ok (LoopSuspend InIntervalSleep).
Proof.
  assert (Hc : is_connected (client Scenario.g2) = true) by (vm_compute; reflexivity).
  assert (Hd : is_Some (device (client Scenario.g2))) by (vm_compute; by eexists).
  destruct (poll_cycle_failure_isolation Scenario.env Scenario.g2 Scenario.w2)
    as (_ & Hkeep & _ & Hfresh & _ & Hgo).
  cbv zeta. split_and!; [done|done| | | |].
  - vm_compute. elem_in.
  - apply Hkeep. vm_compute. intros Hin. elem_cases Hin.
  - apply Hfresh. vm_compute. elem_in.
  - by apply Hgo.
Defined.

(** C9 on the installation with a 5-second interval: the client is not
    connected, the task sleeps 5 seconds and is alive after three runs; a
    cancelled task ends. *)
Lemma polling_loop_backoff_is_five_seconds_witness :
  is_connected (client Scenario.g5) = false ∧
  tasks Scenario.w5 !! 0%nat = Some (Suspended AtStart false) ∧
  events_since Scenario.w5
    (world_after (_polling_loop_body Scenario.env_scan_once Scenario.g5 Scenario.w5))
  = [EvLog ERROR; EvSleep 5] ∧
  (∃ at', tasks (world_after (run_cycles Scenario.env_scan_once 0 3 Scenario.g5 Scenario.w5))
          !! 0%nat = Some (Suspended at' false)) ∧
  tasks (world_after (run_polling_task Scenario.env 0 Scenario.g2
                        (world_after (disconnect_device Scenario.env Scenario.g2 Scenario.w2))))
    !! 0%nat = Some (Finished false).
Proof.
  assert (Hc : is_connected (client Scenario.g5) = false) by (vm_compute; reflexivity).
  assert (Ht : tasks Scenario.w5 !! 0%nat = Some (Suspended AtStart false))
    by (vm_compute; reflexivity).
  destruct (polling_loop_backoff_is_five_seconds Scenario.env_scan_once 0 3
              Scenario.g5 Scenario.w5) as (Hback & Halive & _).
  destruct (polling_loop_backoff_is_five_seconds Scenario.env 0 0 Scenario.g2
              (world_after (disconnect_device Scenario.env Scenario.g2 Scenario.w2)))
    as (_ & _ & Hcancel).
  split_and!; [done|done| | |].
  - by apply Hback; left.
  - by apply (Halive AtStart).
  - apply (Hcancel InIntervalSleep). vm_compute. reflexivity.
Defined.

(** C3 on the installation, after [startup] and one poll cycle: a second
    connect opens and scans again and keeps the polling task. *)
Lemma connect_device_when_connected_witness :
  let g := (serve Scenario.env Scenario.requests Scenario.g0 Scenario.w0).1 in
  let w := (serve Scenario.env Scenario.requests Scenario.g0 Scenario.w0).2 in
  let res := connect_device Scenario.env g w in
  gw_is_connected g = true ∧
  transport_of (config (client g)) = Some Scenario.transport ∧
  EvOpen Scenario.transport true ∈ events_since w (world_after res) ∧
  EvScan true ∈ events_since w (world_after res) ∧
  polling_task (state_after res) = polling_task g.
Proof.
  intros g w res.
  assert (Hc : gw_is_connected g = true) by (vm_compute; reflexivity).
  assert (Hp : transport_of (config (client g)) = Some Scenario.transport)
    by (vm_compute; reflexivity).
  destruct (connect_device_when_connected Scenario.env Scenario.cfg Scenario.requests
              Scenario.w0 Scenario.transport Hc Hp)
    as (Hopen & Hscan & _ & _ & _ & Htask & _).
  split_and!; [done|done|exact Hopen|by apply Hscan|exact Htask].
Defined.

(** C5 on a device whose scan fails: disconnected, the device object kept. *)
Lemma connect_failure_leaves_disconnected_witness :
  let res := connect Scenario.env_no_scan (SunSpecClient_init Scenario.cfg) Scenario.w0 in
  result_of res = Ok false ∧
  is_connected (state_after res) = false ∧
  device (state_after res) = Some {| dev_params := Scenario.transport; dev_models := ∅ |}.
Proof.
  destruct (connect_failure_leaves_disconnected Scenario.env_no_scan
              (SunSpecClient_init Scenario.cfg) Scenario.w0)
    as (b & Hres & Hconn & _ & _ & Hdev & _).
  assert (Hb : b = false).
  { vm_compute in Hres. by injection Hres. }
  subst b. cbv zeta. split_and!; [done|done|].
  apply Hdev; [done|]. vm_compute. elem_in.
Defined.

(** C6 on the installation: the registry survives [disconnect]. *)
Lemma disconnect_keeps_registry_witness :
  let c1 := state_after (disconnect Scenario.env (client Scenario.g2) Scenario.w2) in
  is_Some (device (client Scenario.g2)) ∧
  available_models c1 = available_models (client Scenario.g2) ∧
  device c1 = None ∧ is_connected c1 = false.
Proof.
  assert (Hd : is_Some (device (client Scenario.g2))) by (vm_compute; by eexists).
  destruct (disconnect_keeps_registry Scenario.env (client Scenario.g2) Scenario.w2)
    as (Hreg & _ & Hdev & Hconn & _).
  cbv zeta. split_and!; [done|exact Hreg|exact Hdev|by apply Hconn].
Defined.

(** * Where the code differs from the specification *)

(** C3 as stated fails: on the connected gateway, a second POST
    /device/connect opens a transport and runs discovery. *)
Lemma connect_is_noop_counterexample :
  gw_is_connected Scenario.g2 = true ∧ polling_task Scenario.g2 = Some 0%nat ∧
  List.filter is_session_event
    (events_since Scenario.w2
       (world_after (connect_device Scenario.env Scenario.g2 Scenario.w2)))
  = [EvOpen Scenario.transport true; EvScan true] ∧
  ¬ connect_is_noop Scenario.env Scenario.g2 Scenario.w2.
Proof.
  split_and!; [vm_compute; reflexivity..|].
  unfold connect_is_noop. vm_compute. intros [=].
Qed.

(** C5 as stated fails: when discovery fails, the constructed device is
    not closed. *)
Lemma failed_connect_closes_transport_counterexample :
  ¬ failed_connect_closes_transport Scenario.env_no_scan
      (SunSpecClient_init Scenario.cfg) Scenario.w0.
Proof.
  unfold failed_connect_closes_transport. intros H.
  destruct H as [_ Hclose]; [vm_compute; reflexivity|].
  destruct (Hclose Scenario.transport) as [ok Hok]; [vm_compute; elem_in|].
  vm_compute in Hok. elem_cases Hok.
Qed.

(** C6 as stated fails: after [disconnect] the registry still has model 1. *)
Lemma disconnect_clears_registry_counterexample :
  available_models (state_after (disconnect Scenario.env (client Scenario.g2) Scenario.w2)) !! 1
  = Some "common" ∧
  ¬ disconnect_clears_registry Scenario.env (client Scenario.g2) Scenario.w2.
Proof.
  assert (H : available_models
                (state_after (disconnect Scenario.env (client Scenario.g2) Scenario.w2)) !! 1
              = Some "common") by (vm_compute; reflexivity).
  split; [done|]. unfold disconnect_clears_registry. intros Hempty.
  rewrite Hempty, lookup_empty in H. discriminate H.
Qed.

(** C9 as stated fails: with a poll interval of 5 seconds the back-off
    sleep of 5 seconds is not shorter. *)
Lemma backoff_shorter_than_interval_counterexample :
  poll_interval (data_collection (gw_config Scenario.g5)) = 5 ∧
  ¬ backoff_shorter_than_interval Scenario.env_scan_once Scenario.g5 Scenario.w5.
Proof.
  split; [vm_compute; reflexivity|].
  unfold backoff_shorter_than_interval. intros H.
  specialize (H ltac:(vm_compute; reflexivity) 5).
  assert (Hlt : 5 < poll_interval (data_collection (gw_config Scenario.g5))).
  { apply H. vm_compute. elem_in. }
  vm_compute in Hlt. discriminate Hlt.
Qed.

(** C7 as stated fails: after a reconnect whose scan no longer finds model
    101, the model is configured and not in the registry, and the snapshot
    table still has its entry of the first session, which GET /data/live
    serves. *)
Lemma undiscovered_has_no_entry_counterexample :
  101 ∈ models_to_read (data_collection (gw_config Scenario.g6)) ∧
  available_models (client Scenario.g6) !! 101 = None ∧
  is_Some (last_data Scenario.g6 !! model_key 101) ∧
  (∃ d, result_of (get_live_data Scenario.g6 Scenario.w6) = Ok d ∧
        is_Some (d !! model_key 101)) ∧
  ¬ undiscovered_has_no_entry Scenario.g6 101.
Proof.
  assert (Hcfg : 101 ∈ models_to_read (data_collection (gw_config Scenario.g6))).
  { vm_compute. elem_in. }
  assert (Hreg : available_models (client Scenario.g6) !! 101 = None)
    by (vm_compute; reflexivity).
  assert (Hentry : is_Some (last_data Scenario.g6 !! model_key 101))
    by (vm_compute; by eexists).
  split_and!; [exact Hcfg|exact Hreg|exact Hentry| |].
  - vm_compute. eexists. split; [reflexivity|]. by eexists.
  - intros H. specialize (H Hcfg Hreg). rewrite H in Hentry.
    destruct Hentry as [x Hx]. discriminate Hx.
Qed.

(** C10 as stated fails: on the client that a failed reconnect left
    disconnected, with the polling task alive, [read_data] raises; the
    cache keeps the entries of the earlier cycle, of which no model was read
    in this call, and [last_read_time] stays at the time of that cycle. *)
Lemma read_data_always_replaces_cache_counterexample :
  let res := read_data Scenario.env_scan_once None (client Scenario.g7) Scenario.w7 in
  tasks Scenario.w7 !! 0%nat = Some (Suspended InIntervalSleep false) ∧
  result_of res = Raise SunSpecDeviceError ∧
  events_since Scenario.w7 (world_after res) = [] ∧
  is_Some (cd_data (get_cached_data (state_after res)) !! model_key 1) ∧
  cd_last_read_time (get_cached_data (state_after res)) = Some 4 ∧
  clock (world_after res) = 6 ∧
  ¬ read_data_always_replaces_cache Scenario.env_scan_once None (client Scenario.g7) Scenario.w7.
Proof.
  cbv zeta. split_and!; [vm_compute; reflexivity..|vm_compute; by eexists| | |].
  - vm_compute. reflexivity.
  - vm_compute. reflexivity.
  - unfold read_data_always_replaces_cache. intros [_ Ht].
    vm_compute in Ht. discriminate Ht.
Qed.

(** C4: on the connected installation, GET /data/model/999 for a model the
    device does not have is answered 200 with empty points; and no request
    to this route is ever answered 404. *)
Theorem get_model_data_unknown_model_is_success :
  gw_is_connected Scenario.g2 = true ∧
  available_models (client Scenario.g2) !! 999 = None ∧
  result_of (get_model_data Scenario.env 999 Scenario.g2 Scenario.w2)
  = Ok {| mr_model_id := 999; mr_points := EmptyDict; mr_timestamp := 4 |} ∧
  status_code_of (result_of (get_model_data Scenario.env 999 Scenario.g2 Scenario.w2))
  = Some 200 ∧
  ∀ env model_id g w,
    status_code_of (result_of (get_model_data env model_id g w)) ≠ Some 404.
Proof.
  split_and!; [vm_compute; reflexivity..|].
  apply get_model_data_never_404.
Qed.

(** C2: on the connected installation with its polling task parked in the
    interval sleep, POST /device/disconnect requests the cancellation and
    closes the transport at once: the task is not awaited and has not ended
    when the transport is closed.  [shutdown] does await the task, which
    ends, before it closes the transport. *)
Theorem disconnect_device_closes_before_task_ends :
  polling_task Scenario.g2 = Some 0%nat ∧
  tasks Scenario.w2 !! 0%nat = Some (Suspended InIntervalSleep false) ∧
  events_since Scenario.w2
    (world_after (disconnect_device Scenario.env Scenario.g2 Scenario.w2))
  = [EvCancel 0; EvClose true; EvLog INFO] ∧
  tasks (world_after (disconnect_device Scenario.env Scenario.g2 Scenario.w2)) !! 0%nat
  = Some (Suspended InIntervalSleep true) ∧
  events_since Scenario.w2 (world_after (shutdown Scenario.env Scenario.g2 Scenario.w2))
  = [EvLog INFO; EvCancel 0; EvAwaitTask 0; EvTaskDone 0; EvClose true;
     EvLog INFO; EvLog INFO] ∧
  tasks (world_after (shutdown Scenario.env Scenario.g2 Scenario.w2)) !! 0%nat
  = Some (Finished false).
Proof. split_and!; vm_compute; reflexivity. Qed.

(** * The scenario of the specification, evaluated *)

Example scenario_cycle1 :
  events_since Scenario.w1 Scenario.w2 = [EvRead 1 true; EvRead 101 true; EvLog WARNING; EvSleep 30].
Proof. vm_compute. reflexivity. Qed.

Example scenario_cycle2 :
  events_since Scenario.w2 Scenario.w3 =
    [EvRead 1 true; EvRead 101 false; EvLog ERROR; EvLog WARNING; EvSleep 30] ∧
  r_timestamp <$> last_data Scenario.g3 !! "model_1" = Some 5 ∧
  r_timestamp <$> last_data Scenario.g3 !! "model_101" = Some 4 ∧
  last_data Scenario.g3 !! "model_101" = last_data Scenario.g2 !! "model_101" ∧
  last_data Scenario.g3 !! "model_160" = None.
Proof. vm_compute. done. Qed.

Example scenario_g5 :
  is_connected (client Scenario.g5) = false ∧ polling_task Scenario.g5 = Some 0%nat ∧
  tasks Scenario.w5 = [Suspended AtStart false].
Proof. vm_compute. done. Qed.

(** * Further properties of the code *)

Section Extras.
Variable env : Env.

(** ** Configuration *)

Lemma validated_transport kind t r ic cfg :
  InverterConfig_new kind t r = Some ic → inverter cfg = ic →
  transport_of cfg =
    if bool_decide (kind = "tcp") then TCP <$> t else RTU <$> r.
Proof.
  unfold InverterConfig_new, validate_connection_type. intros H Hc. subst ic.
  case_bool_decide as Hk; simpl in H; [|done].
  injection H as H. unfold transport_of. rewrite <- H. simpl.
  apply elem_of_cons in Hk as [->|Hk]; [done|].
  apply list_elem_of_singleton in Hk as ->. done.
Qed.

(** X1.  For a configuration that passed the validator of [InverterConfig],
    [connect] gets as far as constructing a device object exactly when the
    section that [connection_type] names is present; the validator accepts
    a configuration without that section, and then [connect] fails without
    touching the device. *)
Theorem validated_config_opens_named_section kind t r ic c w :
  InverterConfig_new kind t r = Some ic → inverter (config c) = ic →
  let Δ := events_since w (world_after (connect env c w)) in
  (kind = "tcp" ∨ kind = "rtu") ∧
  ((∃ p ok, EvOpen p ok ∈ Δ) ↔
   (kind = "tcp" ∧ is_Some t) ∨ (kind = "rtu" ∧ is_Some r)).
Proof.
  intros Hnew Hc. simpl.
  assert (Hkind : kind = "tcp" ∨ kind = "rtu").
  { unfold InverterConfig_new, validate_connection_type in Hnew.
    case_bool_decide as Hk; simpl in Hnew; [|done].
    apply elem_of_cons in Hk as [->|Hk]; [by left|].
    apply list_elem_of_singleton in Hk as ->. by right. }
  split; [done|].
  rewrite connect_eq, (validated_transport _ _ _ _ _ Hnew Hc).
  destruct Hkind as [-> | ->]; simpl.
  - destruct t as [tc|]; simpl.
    + split; [intros _; left; split; [done|by eexists]|intros _].
      exists (TCP tc), (env_open env (clock w) (TCP tc)).
      destruct (env_open env (clock w) (TCP tc)); [destruct (env_scan env (clock w + 1))|];
        unfold world_after; simpl; (erewrite events_since_app by reflexivity); elem_in.
    + unfold world_after. simpl. (erewrite events_since_app by reflexivity). split.
      * intros (p & ok & Hin). elem_cases Hin.
      * intros [[_ [? ?]]|[? _]]; done.
  - destruct r as [rc|]; simpl.
    + split; [intros _; right; split; [done|by eexists]|intros _].
      exists (RTU rc), (env_open env (clock w) (RTU rc)).
      destruct (env_open env (clock w) (RTU rc)); [destruct (env_scan env (clock w + 1))|];
        unfold world_after; simpl; (erewrite events_since_app by reflexivity); elem_in.
    + unfold world_after. simpl. (erewrite events_since_app by reflexivity). split.
      * intros (p & ok & Hin). elem_cases Hin.
      * intros [[? _]|[_ [? ?]]]; done.
Qed.

(** ** GET /config and GET /health *)

(** X2.  GET /config changes nothing and is answered 200 exactly when the
    configuration has a TCP section; without one (an installation on a
    serial line) the request fails with 500.  When it is answered, the TCP
    section comes without its timeout and the RTU section is returned as
    configured, timeout included. *)
Theorem get_config_needs_tcp_section g w :
  let res := get_config g w in
  state_after res = g ∧ world_after res = w ∧
  (status_code_of (result_of res) = Some 200 ↔ is_Some (tcp (inverter (gw_config g)))) ∧
  (tcp (inverter (gw_config g)) = None → status_code_of (result_of res) = Some 500) ∧
  (∀ d, result_of res = Ok d →
        dump_rtu d = rtu (inverter (gw_config g)) ∧
        dump_data_collection d = data_collection (gw_config g) ∧
        ∃ t, tcp (inverter (gw_config g)) = Some t ∧
             dump_tcp d = {| dump_host := tcp_host t; dump_port := tcp_port t;
                             dump_slave_id := tcp_slave_id t |}).
Proof.
  unfold get_config. munfold. unfold result_of, state_after, world_after. simpl.
  destruct (tcp (inverter (gw_config g))) as [t|]; simpl; split_and!; try done;
    try (split; [done|by intros [? ?]]); try (split; [by eexists|done]).
  intros d [= Hd]. subst d. simpl. split_and!; [done..|by eexists].
Qed.

Lemma py_max_ge x xs : x ≤ py_max x xs ∧ ∀ y, y ∈ xs → y ≤ py_max x xs.
Proof.
  unfold py_max. revert x. induction xs as [|z xs IH]; intros x; simpl.
  - split; [lia|]. intros y Hy. by apply elem_of_nil in Hy.
  - destruct (IH (Z.max x z)) as [H1 H2]. split; [lia|].
    intros y [->|Hy]%elem_of_cons; [lia|by apply H2].
Qed.

Lemma py_max_in x xs : py_max x xs ∈ x :: xs.
Proof.
  unfold py_max. revert x. induction xs as [|z xs IH]; intros x; simpl.
  - apply list_elem_of_here.
  - specialize (IH (Z.max x z)). apply elem_of_cons in IH as [IH|IH].
    + rewrite IH. destruct (Z.max_spec x z) as [[_ ->]|[_ ->]]; elem_in.
    + by do 2 apply list_elem_of_further.
Qed.

Lemma last_poll_spec (m : gmap string Reading) :
  (last_poll m = None ↔ m = ∅) ∧
  ∀ t, last_poll m = Some t →
       (∃ k rd, m !! k = Some rd ∧ r_timestamp rd = t) ∧
       (∀ k rd, m !! k = Some rd → r_timestamp rd ≤ t).
Proof.
  unfold last_poll.
  assert (Hel : ∀ rd, rd ∈ (map_to_list m).*2 ↔ ∃ k, m !! k = Some rd).
  { intros rd. rewrite list_elem_of_fmap. split.
    - intros ([k rd'] & -> & Hin). exists k. by apply elem_of_map_to_list.
    - intros [k Hk]. exists (k, rd). split; [done|]. by apply elem_of_map_to_list. }
  destruct ((map_to_list m).*2) as [|rd rds] eqn:Hl.
  - split; [|done]. split; [intros _|done].
    apply map_to_list_empty_iff. by destruct (map_to_list m).
  - split.
    { split; [done|]. intros ->. by rewrite map_to_list_empty in Hl. }
    intros t [= <-]. split.
    + pose proof (py_max_in (r_timestamp rd) (r_timestamp <$> rds)) as Hin.
      change (r_timestamp rd :: (r_timestamp <$> rds)) with (r_timestamp <$> (rd :: rds)) in Hin.
      apply list_elem_of_fmap in Hin as (rd' & Heq & Hin).
      apply Hel in Hin as [k Hk]. by exists k, rd'.
    + intros k rd' Hk. destruct (py_max_ge (r_timestamp rd) (r_timestamp <$> rds)) as [H1 H2].
      assert (Hin : rd' ∈ rd :: rds) by (apply Hel; by exists k).
      apply elem_of_cons in Hin as [->|Hin]; [done|].
      apply H2. apply list_elem_of_fmap. by exists rd'.
Qed.

(** X3.  GET /health changes nothing and always answers.  Its [last_poll]
    is absent exactly when the snapshot table is empty; otherwise it is the
    timestamp of one of the entries and no entry has a later one.
    [models_configured] counts the configured ids, repetitions included. *)
Theorem health_check_last_poll g w :
  let res := health_check g w in
  state_after res = g ∧ world_after res = w ∧
  ∃ h, result_of res = Ok h ∧
       h_connected h = gw_is_connected g ∧
       h_models_configured h = length (models_to_read (data_collection (gw_config g))) ∧
       (h_last_poll h = None ↔ last_data g = ∅) ∧
       ∀ t, h_last_poll h = Some t →
            (∃ k rd, last_data g !! k = Some rd ∧ r_timestamp rd = t) ∧
            (∀ k rd, last_data g !! k = Some rd → r_timestamp rd ≤ t).
Proof.
  unfold health_check. munfold. unfold result_of, state_after, world_after. simpl.
  split_and!; try done. eexists. split; [done|]. simpl. split_and!; try done.
  - apply last_poll_spec.
  - apply last_poll_spec.
Qed.

(** ** What [read_model] extracts *)

Lemma fold_points_lookup (pts : list (string * PointObj)) : ∀ acc name,
  NoDup pts.*1 →
  fold_left (λ (points_data : gmap string PointsValue) '(point_name, point),
               match point_value point with
               | Some v => <[point_name := PVal v]> points_data
               | None => points_data
               end) pts acc !! name =
  match (list_to_map pts : gmap string PointObj) !! name with
  | Some p => match point_value p with
              | Some v => Some (PVal v)
              | None => acc !! name
              end
  | None => acc !! name
  end.
Proof.
  induction pts as [|[n p] pts IH]; intros acc name Hnd; simpl; [done|].
  apply NoDup_cons in Hnd as [Hn Hnd]. rewrite IH by done.
  destruct (decide (n = name)) as [->|Hne].
  - rewrite lookup_insert_eq, (not_elem_of_list_to_map_1 pts name) by done.
    destruct (point_value p); [by rewrite lookup_insert_eq|done].
  - rewrite lookup_insert_ne by done.
    destruct (list_to_map pts !! name) as [p'|].
    + destruct (point_value p'); [done|].
      destruct (point_value p); [by rewrite lookup_insert_ne|done].
    + destruct (point_value p); [by rewrite lookup_insert_ne|done].
Qed.

Lemma fold_groups_other (gs : list (string * GroupsEntry)) : ∀ acc name,
  name ∉ gs.*1 →
  fold_left (λ (points_data : gmap string PointsValue) '(group_name, group_list),
               match group_list with
               | GroupList l =>
                   <[group_name := PGroups (extract_group_points <$> l)]> points_data
               | GroupOther => points_data
               end) gs acc !! name = acc !! name.
Proof.
  induction gs as [|[n ge] gs IH]; intros acc name Hn; simpl; [done|].
  apply not_elem_of_cons in Hn as [Hne Hn]. rewrite IH by done.
  destruct ge; [by rewrite lookup_insert_ne|done].
Qed.

(** X4.  A read that the device answers gives, for every point of the
    answered model whose name no group bears: no entry when the point's
    [value] is [None] (whatever its scaled value is), otherwise the scaled
    value [cvalue] when there is one and the raw [value] when there is
    none.  The reading carries the model id, its name from the registry (or
    [Model_<id>]) and the time after the read. *)
Theorem read_model_prefers_scaled_value model_id c w d m0 rest m pts name p :
  device c = Some d → dev_models d !! inl model_id = Some (m0 :: rest) →
  env_read env (clock w) model_id = Some m →
  points m = Some pts → NoDup pts.*1 → (name, p) ∈ pts →
  (∀ gs, groups m = Some gs → name ∉ gs.*1) →
  ∃ rd, result_of (read_model env model_id c w) = Ok (ReadingDict rd) ∧
        r_points rd !! name =
          match value p with
          | None => None
          | Some v => Some (PVal (default v (cvalue p)))
          end ∧
        r_model_id rd = model_id ∧
        r_model_name rd = default (default_model_name model_id) (available_models c !! model_id) ∧
        r_timestamp rd = clock w + 1.
Proof.
  intros Hd Hm Hread Hpts Hnd Hin Hgs.
  rewrite read_model_eq, Hd, Hm, Hread. unfold result_of. simpl.
  eexists. split; [done|]. simpl. split_and!; try done.
  assert (Hp : extract_points m !! name =
               match point_value p with Some v => Some (PVal v) | None => None end).
  { unfold extract_points. rewrite Hpts, fold_points_lookup by done.
    rewrite (elem_of_list_to_map_1 pts name p) by done.
    destruct (point_value p); [done|apply lookup_empty]. }
  unfold extract_groups. destruct (groups m) as [gs|] eqn:Hg.
  - rewrite fold_groups_other by by apply Hgs.
    rewrite Hp. unfold point_value. by destruct (value p), (cvalue p).
  - rewrite Hp. unfold point_value. by destruct (value p), (cvalue p).
Qed.

(** ** The routes that read the device *)

Lemma get_device_info_eq c w :
  get_device_info env c w =
  if is_connected c then
    match read_model env 1 c w with
    | (Ok (ReadingDict r), c', w') =>
        (Ok (Some {| manufacturer := default (PVal (PyStr "Unknown")) (r_points r !! "Mn");
                     model := default (PVal (PyStr "Unknown")) (r_points r !! "Md");
                     version := default (PVal (PyStr "Unknown")) (r_points r !! "Vr");
                     serial_number := default (PVal (PyStr "Unknown")) (r_points r !! "SN");
                     device_address := default (PVal (PyInt 1)) (r_points r !! "DA") |}),
         c', w')
    | (_, c', w') => (Ok None, c', w')
    end
  else (Ok None, c, w).
Proof.
  unfold get_device_info. munfold. simpl.
  destruct (is_connected c); simpl; [|done].
  destruct (read_model_returns env 1 c w) as (d & c' & w' & ->). simpl.
  by destruct d.
Qed.

(** What one call of [read_model] does besides returning. *)
Lemma read_model_frame model_id c w :
  let res := read_model env model_id c w in
  config (state_after res) = config c ∧
  is_connected (state_after res) = is_connected c ∧
  cached_data (state_after res) = cached_data c ∧
  last_read_time (state_after res) = last_read_time c ∧
  available_models (state_after res) = available_models c ∧
  tasks (world_after res) = tasks w ∧
  clock w ≤ clock (world_after res) ∧
  (device c = None → device (state_after res) = None) ∧
  ((∃ rd, result_of res = Ok (ReadingDict rd) ∧
          events_since w (world_after res) = [EvRead model_id true] ∧
          fresh_reading env (available_models c) w (world_after res) model_id rd) ∨
   (result_of res = Ok EmptyDict ∧
    (events_since w (world_after res) = [] ∨
     events_since w (world_after res) = [EvRead model_id false; EvLog ERROR]))).
Proof.
  simpl. rewrite read_model_eq. unfold result_of, state_after, world_after.
  destruct (device c) as [d|] eqn:Hdev; simpl.
  2:{ split_and!; try done; try lia; try (intros; congruence). right. split; [done|]. left.
      apply events_since_app. by rewrite app_nil_r. }
  destruct (dev_models d !! inl model_id) as [[|m0 rest]|]; simpl.
  1,3: (split_and!; try done; try lia; try (intros; congruence); right; split; [done|]; left;
        apply events_since_app; by rewrite app_nil_r).
  destruct (env_read env (clock w) model_id) as [m|] eqn:Hr; simpl.
  - split_and!; try done; try lia; try (intros; congruence). left. eexists. split; [done|]. split.
    + by apply events_since_app.
    + exists (clock w), m. simpl. split_and!; [lia|lia|done|done].
  - split_and!; try done; try lia; try (intros; congruence). right. split; [done|]. right.
    apply events_since_app. simpl. by rewrite <- app_assoc.
Qed.

(** X5.  GET /device/info answers 503 when the gateway is not connected and
    200 in every other case, changing nothing but the device object: the
    body is empty unless the client is connected and a read of model 1
    succeeded during the request.  Then its five fields are the points
    [Mn], [Md], [Vr], [SN] and [DA] of the reading built from that read;
    when the reading lacks the point, the manufacturer, the model, the
    version and the serial number are ["Unknown"] and the device address
    is [1]. *)
Theorem get_device_info_route_status g w :
  let res := get_device_info_route env g w in
  (gw_is_connected g = false →
     result_of res = Raise (HTTPException 503) ∧ state_after res = g ∧ world_after res = w) ∧
  (gw_is_connected g = true →
     ∃ info, result_of res = Ok info ∧
       (is_Some info ↔ is_connected (client g) = true ∧
                        EvRead 1 true ∈ events_since w (world_after res)) ∧
       (∀ i, info = Some i →
             ∃ rd, fresh_reading env (available_models (client g)) w (world_after res) 1 rd ∧
                   manufacturer i = default (PVal (PyStr "Unknown")) (r_points rd !! "Mn") ∧
                   model i = default (PVal (PyStr "Unknown")) (r_points rd !! "Md") ∧
                   version i = default (PVal (PyStr "Unknown")) (r_points rd !! "Vr") ∧
                   serial_number i = default (PVal (PyStr "Unknown")) (r_points rd !! "SN") ∧
                   device_address i = default (PVal (PyInt 1)) (r_points rd !! "DA"))) ∧
  last_data (state_after res) = last_data g ∧
  polling_task (state_after res) = polling_task g ∧
  gw_is_connected (state_after res) = gw_is_connected g ∧
  available_models (client (state_after res)) = available_models (client g) ∧
  cached_data (client (state_after res)) = cached_data (client g).
Proof.
  simpl. unfold get_device_info_route. munfold. simpl.
  destruct (gw_is_connected g) eqn:Hg; simpl.
  2:{ unfold result_of, state_after, world_after. simpl. rewrite ?Hg. by split_and!. }
  rewrite get_device_info_eq.
  destruct (is_connected (client g)) eqn:Hc; simpl.
  2:{ unfold result_of, state_after, world_after. simpl. rewrite ?Hg, ?Hc.
      split_and!; try done. intros _. exists None. split_and!; try done.
      split; [by intros [? ?]|by intros [? _]]. }
  pose proof (read_model_frame 1 (client g) w) as Hf. simpl in Hf.
  destruct (read_model env 1 (client g) w) as [[r c'] w'].
  unfold result_of, state_after, world_after in *. simpl in *.
  destruct Hf as (_ & Hconn & Hcached & _ & Hmodels & _ & _ & _ & Hcases).
  destruct Hcases as [(rd & -> & Hev & Hfresh)|[-> Hev]]; simpl; rewrite ?Hg.
  - split_and!; try done. intros _. eexists. split; [done|]. split.
    + split; [intros _|by eexists]. split; [done|]. rewrite Hev. elem_in.
    + intros i [= <-]. by exists rd.
  - split_and!; try done. intros _. exists None. split_and!; try done.
    split; [by intros [? ?]|]. intros [_ Hin].
    destruct Hev as [Hev|Hev]; rewrite Hev in Hin; elem_cases Hin.
Qed.

(** X6.  GET /data/model/{id} bypasses both caches: it leaves the snapshot
    table, the client's cached data and last read time, the registry, the
    connected flags and the polling task as they are, and issues at most
    one device read, of the requested model.  On a connected gateway its
    points are the reading built from that read when it succeeded, and
    empty otherwise. *)
Theorem get_model_data_bypasses_caches model_id g w :
  let res := get_model_data env model_id g w in
  let Δ := events_since w (world_after res) in
  last_data (state_after res) = last_data g ∧
  polling_task (state_after res) = polling_task g ∧
  gw_is_connected (state_after res) = gw_is_connected g ∧
  tasks (world_after res) = tasks w ∧
  cached_data (client (state_after res)) = cached_data (client g) ∧
  last_read_time (client (state_after res)) = last_read_time (client g) ∧
  available_models (client (state_after res)) = available_models (client g) ∧
  is_connected (client (state_after res)) = is_connected (client g) ∧
  (Δ = [] ∨ Δ = [EvRead model_id true] ∨ Δ = [EvRead model_id false; EvLog ERROR]) ∧
  (gw_is_connected g = true →
     ∃ r, result_of res = Ok r ∧ mr_model_id r = model_id ∧
          (EvRead model_id true ∈ Δ →
             ∃ rd, mr_points r = ReadingDict rd ∧
                   fresh_reading env (available_models (client g)) w (world_after res)
                     model_id rd) ∧
          (EvRead model_id true ∉ Δ → mr_points r = EmptyDict)).
Proof.
  simpl.
  pose proof (read_model_frame model_id (client g) w) as Hf. simpl in Hf.
  destruct (read_model env model_id (client g) w) as [[r c'] w'] eqn:Hr.
  unfold result_of, state_after, world_after in Hf. simpl in Hf.
  destruct Hf as (_ & Hconn & Hcached & Hlast & Hmodels & Htasks & _ & _ & Hcases).
  assert (Hok : ∃ d, r = Ok d) by (destruct Hcases as [(? & -> & _)|[-> _]]; by eexists).
  destruct Hok as [d ->].
  rewrite (get_model_data_eq env _ _ _ _ _ _ Hr).
  destruct (gw_is_connected g) eqn:Hg; unfold result_of, state_after, world_after; simpl.
  - rewrite ?Hg. split_and!; try done.
    + destruct Hcases as [(? & _ & -> & _)|[_ [->| ->]]]; auto.
    + intros _. eexists. split; [done|]. simpl. split; [done|].
      destruct Hcases as [(rd & [= ->] & Hev & Hfresh)|[[= ->] Hev]].
      * split; [intros _; by exists rd|]. rewrite Hev. intros Hno. destruct Hno. elem_in.
      * split; [|done]. intros Hin. destruct Hev as [Hev|Hev]; rewrite Hev in Hin; elem_cases Hin.
  - rewrite ?Hg. split_and!; try done. left. apply events_since_app. by rewrite app_nil_r.
Qed.

(** ** After [disconnect] *)

(** X7.  [disconnect] never raises, even when closing the device fails; it
    closes the device at most once, and exactly once when there is a device
    object.  A second [disconnect] right after does nothing at all.  On the
    client it leaves, no method touches the device: [read_model] returns
    the empty dictionary, [read_data] raises [SunSpecDeviceError] and
    [get_device_info] returns the empty dictionary, each without an event. *)
Theorem disconnect_is_idempotent c w :
  let r1 := disconnect env c w in
  let c1 := state_after r1 in
  let Δ := events_since w (world_after r1) in
  result_of r1 = Ok tt ∧
  (is_Some (device c) → ∃ ok lvl, Δ = [EvClose ok; EvLog lvl]) ∧
  (device c = None → Δ = [] ∧ c1 = c) ∧
  disconnect env c1 (world_after r1) = (Ok tt, c1, world_after r1) ∧
  ∀ w' model_id model_ids,
    read_model env model_id c1 w' = (Ok EmptyDict, c1, w') ∧
    read_data env model_ids c1 w' = (Raise SunSpecDeviceError, c1, w') ∧
    get_device_info env c1 w' = (Ok None, c1, w').
Proof.
  simpl. rewrite disconnect_eq.
  destruct (device c) as [d|] eqn:Hd; unfold result_of, state_after, world_after; simpl.
  - split_and!; try done.
    intros _. eexists _, _. by apply events_since_app.
  - split_and!; try done.
    + intros _. split; [|done]. apply events_since_app. by rewrite app_nil_r.
    + by rewrite disconnect_eq, Hd.
    + intros w' model_id model_ids. split_and!.
      * by rewrite read_model_eq, Hd.
      * apply read_data_raises. by right.
      * rewrite get_device_info_eq, read_model_eq, Hd. by destruct (is_connected c).
Qed.

(** ** Probing an address *)

(** [get_device_info] returns, keeps the device object and the connected
    flag, and does nothing to the device but read model 1. *)
Lemma get_device_info_frame c w :
  ∃ i c' w' Δ,
    get_device_info env c w = (Ok i, c', w') ∧
    trace w' = trace w ++ Δ ∧
    (∀ e, e ∈ Δ → (∃ ok, e = EvRead 1 ok) ∨ (∃ lvl, e = EvLog lvl)) ∧
    (is_Some (device c) → is_Some (device c')) ∧
    is_connected c' = is_connected c.
Proof.
  assert (Hnil : ∃ (i : option DeviceInfo) c' w' Δ,
            (Ok None, c, w) = (Ok i, c', w') ∧ trace w' = trace w ++ Δ ∧
            (∀ e, e ∈ Δ → (∃ ok, e = EvRead 1 ok) ∨ (∃ lvl, e = EvLog lvl)) ∧
            (is_Some (device c) → is_Some (device c')) ∧
            is_connected c' = is_connected c).
  { exists None, c, w, []. split_and!; [done|by rewrite app_nil_r| |done|done].
    intros e Hin. by apply elem_of_nil in Hin. }
  rewrite get_device_info_eq.
  destruct (is_connected c) eqn:Hconn; [|done].
  rewrite read_model_eq.
  destruct (device c) as [d|] eqn:Hd; simpl; [|done].
  destruct (dev_models d !! inl 1) as [[|m0 rest]|]; simpl; [done| |done].
  destruct (env_read env (clock w) 1) as [m|]; simpl.
  - eexists _, _, _, [EvRead 1 true]. split_and!; [done|done| | |done].
    + intros e Hin. elem_cases Hin. left. by eexists.
    + intros _. by eexists.
  - eexists _, _, _, [EvRead 1 false; EvLog ERROR]. split_and!; [done| | | |done].
    + simpl. by rewrite <- app_assoc.
    + intros e Hin. elem_cases Hin; [left|right]; by eexists.
    + intros _. by rewrite Hd.
Qed.

(** X8.  [test_sunspec_on_ip] reports success exactly when the device
    object could be constructed and discovery succeeded, and never raises.
    It closes the device exactly when it reports success, as the last thing
    it does to the device; after a failed discovery the device object it
    constructed is left behind unclosed. *)
Theorem test_sunspec_on_ip_closes_on_success ip_address w :
  let res := test_sunspec_on_ip env ip_address w in
  let Δ := events_since w (world_after res) in
  let p := TCP {| tcp_host := ip_address; tcp_port := 502;
                  tcp_slave_id := 1; tcp_timeout := 10 |} in
  let opened := env_open env (clock w) p in
  let scanned := bool_decide (is_Some (env_scan env (clock w + 1))) in
  result_of res = Ok (opened && scanned) ∧
  (opened && scanned = true →
     device (state_after res) = None ∧ is_connected (state_after res) = false ∧
     ∃ Δ1 ok lvl, Δ = Δ1 ++ [EvClose ok; EvLog lvl] ∧ ∀ ok', EvClose ok' ∉ Δ1) ∧
  (opened && scanned = false → ∀ ok, EvClose ok ∉ Δ) ∧
  (opened = true → scanned = false →
     device (state_after res) = Some {| dev_params := p; dev_models := ∅ |}).
Proof.
  simpl. unfold test_sunspec_on_ip.
  set (p := TCP {| tcp_host := ip_address; tcp_port := 502;
                   tcp_slave_id := 1; tcp_timeout := 10 |}).
  set (c0 := SunSpecClient_init (probe_config ip_address)).
  pose proof (connect_eq env c0 w) as Hc.
  assert (Htr : transport_of (config c0) = Some p) by done.
  rewrite Htr in Hc. clear Htr.
  unfold try_except, try_with, mbind, M_bind, bind.
  destruct (env_open env (clock w) p) eqn:Hopen; simpl.
  2:{ rewrite Hc. unfold result_of, state_after, world_after. simpl.
      (erewrite events_since_app by reflexivity). split_and!; try done.
      intros _ ok Hin. elem_cases Hin. }
  destruct (env_scan env (clock w + 1)) as [ms|] eqn:Hscan; simpl.
  2:{ rewrite Hc. unfold result_of, state_after, world_after. simpl.
      (erewrite events_since_app by reflexivity). split_and!; try done.
      intros _ ok Hin. elem_cases Hin. }
  rewrite Hc. clear Hc.
  set (c1 := set_is_connected true (discovered p ms c0)).
  set (w1 := add_events _ 2 w).
  destruct (get_device_info_frame c1 w1) as (i & c2 & w2 & Δg & -> & Htrace & Hevg & Hdev & _).
  assert (Hnoclose : ∀ ok, EvClose ok ∉ Δg).
  { intros ok Hin. by destruct (Hevg _ Hin) as [[? ?]|[? ?]]. }
  assert (Hd2 : is_Some (device c2)).
  { apply Hdev. unfold c1. simpl. rewrite discovered_device. by eexists. }
  destruct Hd2 as [d2 Hd2]. rewrite disconnect_eq, Hd2.
  unfold result_of, state_after, world_after. simpl. split_and!; try done.
  - intros _. split_and!; try done.
    eexists (_ ++ Δg), _, _. split.
    + apply events_since_app. simpl. rewrite Htrace. unfold w1. simpl.
      rewrite <- (app_assoc (trace w)), <- (app_assoc (trace w)). reflexivity.
    + intros ok [Hin|Hin]%elem_of_app; [elem_cases Hin|by eapply Hnoclose].
Qed.

End Extras.

Section Lifecycle.
Variable env : Env.

(** ** The lifespan hooks *)

Lemma alter_request_cancel_finished tid (ts : list TaskState) :
  tasks_done ts tid → alter request_cancel tid ts = ts.
Proof.
  intros Ht. apply list_eq. intros i.
  destruct (decide (i = tid)) as [->|Hne]; [|by rewrite list_lookup_alter_ne].
  rewrite list_lookup_alter_eq. by destruct Ht as [-> | [c ->]].
Qed.

Lemma insert_alter_request_cancel tid t (ts : list TaskState) :
  <[tid := t]> (alter request_cancel tid ts) = <[tid := t]> ts.
Proof.
  apply list_eq. intros i. destruct (decide (i = tid)) as [->|Hne].
  - destruct (decide (tid < length ts)%nat) as [Hlt|Hge].
    + rewrite !list_lookup_insert_eq; [done|done|by rewrite length_alter].
    + rewrite !(lookup_ge_None_2); rewrite ?length_insert, ?length_alter; try done; lia.
  - rewrite !list_lookup_insert_ne by done. by rewrite list_lookup_alter_ne.
Qed.

(** The part of [shutdown] before [disconnect]: the events [Δ1] after the
    first log line, and the task table [ts] it leaves. *)
Lemma shutdown_task_phase g w :
  ∃ Δ1 ts,
    shutdown env g w =
      (Ok tt,
       set_client (state_after (disconnect env (client g)
                     {| clock := clock w; trace := trace w ++ EvLog INFO :: Δ1; tasks := ts |})) g,
       add_events [EvLog INFO] 0
         (world_after (disconnect env (client g)
                     {| clock := clock w; trace := trace w ++ EvLog INFO :: Δ1; tasks := ts |}))) ∧
    (∀ ok, EvClose ok ∉ Δ1) ∧
    match polling_task g with
    | None => Δ1 = [] ∧ ts = tasks w
    | Some tid =>
        ∃ Δ', Δ1 = EvCancel tid :: EvAwaitTask tid :: Δ' ∧
        (∀ tid', tid' ≠ tid → ts !! tid' = tasks w !! tid') ∧
        (∀ t, tasks w !! tid = Some t → ∃ c, ts !! tid = Some (Finished c)) ∧
        (tasks_done (tasks w) tid →
           ts = tasks w ∧ ∀ e, e ∈ Δ' → ∃ lvl, e = EvLog lvl)
    end.
Proof.
  unfold shutdown, await_task, task_cancel, finish_task.
  destruct (polling_task g) as [tid|] eqn:Hpt.
  2:{ exists [], (tasks w). split_and!; try done.
      - do 2 munfold. simpl. rewrite Hpt. simpl. rewrite !disconnect_eq.
        unfold state_after, world_after.
        destruct (device (client g)); munfold; simpl; f_equal; world_eq.
      - intros ok Hin. by apply elem_of_nil in Hin. }
  destruct (tasks w !! tid) as [[at_ mc|c]|] eqn:Ht.
  - exists ([EvCancel tid; EvAwaitTask tid; EvTaskDone tid] ++
            match deliver_cancel at_ with Finished true => [EvLog INFO] | _ => [] end),
           (<[tid := deliver_cancel at_]> (tasks w)).
    split_and!.
    + do 2 munfold. simpl. rewrite Hpt. simpl. rewrite list_lookup_alter_eq, Ht. simpl.
      unfold state_after, world_after.
      destruct at_; simpl; rewrite !disconnect_eq, ?insert_alter_request_cancel;
        destruct (device (client g)); munfold; simpl; f_equal; world_eq.
    + intros ok Hin. destruct at_; simpl in Hin; elem_cases Hin.
    + eexists. split_and!; [done| | |].
      * intros tid' Hne. by rewrite list_lookup_insert_ne.
      * intros t _. rewrite list_lookup_insert_eq by by eapply lookup_lt_Some.
        destruct at_; by eexists.
      * intros [Hd|[c Hd]]; congruence.
  - exists ([EvCancel tid; EvAwaitTask tid] ++ if c then [EvLog INFO] else []), (tasks w).
    split_and!.
    + do 2 munfold. simpl. rewrite Hpt. simpl. rewrite list_lookup_alter_eq, Ht. simpl.
      rewrite alter_request_cancel_finished by (right; by eexists).
      unfold state_after, world_after.
      destruct c; simpl; rewrite !disconnect_eq;
        destruct (device (client g)); munfold; simpl; f_equal; world_eq.
    + intros ok Hin. destruct c; simpl in Hin; elem_cases Hin.
    + eexists. split_and!; [done|done| |].
      * intros t _. by eexists.
      * intros _. split; [done|]. intros e He. destruct c; elem_cases He. by eexists.
  - exists [EvCancel tid; EvAwaitTask tid], (tasks w).
    split_and!.
    + do 2 munfold. simpl. rewrite Hpt. simpl. rewrite list_lookup_alter_eq, Ht. simpl.
      rewrite alter_request_cancel_finished by by left.
      unfold state_after, world_after.
      rewrite !disconnect_eq;
        destruct (device (client g)); munfold; simpl; f_equal; world_eq.
    + intros ok Hin. elem_cases Hin.
    + exists []. split_and!; [done|done| |].
      * intros t Ht'. congruence.
      * intros _. split; [done|]. intros e He. by apply elem_of_nil in He.
Qed.

(** X9.  [shutdown] always completes, whatever state the gateway and its
    polling task are in.  A polling task it holds has ended when the device
    is closed: the task is cancelled and awaited first, and every close of
    the device comes after the await.  The device object is dropped, and
    closed exactly when there was one; the gateway's connected flag, its
    task handle and its snapshot table stay as they were. *)
Theorem shutdown_awaits_before_closing g w :
  let res := shutdown env g w in
  let Δ := events_since w (world_after res) in
  result_of res = Ok tt ∧
  device (client (state_after res)) = None ∧
  (is_Some (device (client g)) ↔ ∃ ok, EvClose ok ∈ Δ) ∧
  gw_is_connected (state_after res) = gw_is_connected g ∧
  polling_task (state_after res) = polling_task g ∧
  last_data (state_after res) = last_data g ∧
  (polling_task g = None → tasks (world_after res) = tasks w) ∧
  (∀ tid, polling_task g = Some tid →
     (∀ t, tasks w !! tid = Some t → ∃ c, tasks (world_after res) !! tid = Some (Finished c)) ∧
     (∀ tid', tid' ≠ tid → tasks (world_after res) !! tid' = tasks w !! tid') ∧
     (∀ ok Δ1 Δ2, Δ = Δ1 ++ EvClose ok :: Δ2 →
        EvCancel tid ∈ Δ1 ∧ EvAwaitTask tid ∈ Δ1)).
Proof.
  simpl. destruct (shutdown_task_phase g w) as (Δ1 & ts & -> & Hnoclose & Hphase).
  rewrite disconnect_eq. unfold result_of, state_after, world_after.
  destruct (device (client g)) as [d|] eqn:Hd; simpl.
  - (erewrite events_since_app by (simpl; rewrite <- !app_assoc; reflexivity)).
    split_and!; try done.
    + split; [intros _|by eexists]. eexists. rewrite !elem_of_app. right. left. elem_in.
    + intros Hpt. rewrite Hpt in Hphase. by destruct Hphase as [_ ->].
    + intros tid Hpt. rewrite Hpt in Hphase.
      destruct Hphase as (Δ' & -> & Hother & Hdone & _). split_and!; try done.
      intros ok Δa Δb Heq.
      assert (Hpre : ∃ Δc, Δa = EvLog INFO :: EvCancel tid :: EvAwaitTask tid :: Δc).
      { simpl in Heq. destruct Δa as [|e1 [|e2 [|e3 Δc]]]; simplify_eq/=. by eexists. }
      destruct Hpre as [Δc ->]. split; elem_in.
  - (erewrite events_since_app by (simpl; rewrite <- ?app_assoc; reflexivity)).
    split_and!; try done.
    + split; [by intros [? ?]|]. intros [ok Hin].
      apply elem_of_app in Hin as [Hin|Hin]; [|elem_cases Hin].
      apply elem_of_cons in Hin as [Hin|Hin]; [done|]. by destruct (Hnoclose ok).
    + intros Hpt. rewrite Hpt in Hphase. by destruct Hphase as [_ ->].
    + intros tid Hpt. rewrite Hpt in Hphase.
      destruct Hphase as (Δ' & -> & Hother & Hdone & _). split_and!; try done.
      intros ok Δa Δb Heq.
      assert (Hin : EvClose ok ∈ (EvLog INFO :: EvCancel tid :: EvAwaitTask tid :: Δ') ++ [EvLog INFO]).
      { rewrite Heq. apply elem_of_app. right. elem_in. }
      apply elem_of_app in Hin as [Hin|Hin]; [|elem_cases Hin].
      apply elem_of_cons in Hin as [Hin|Hin]; [done|]. by destruct (Hnoclose ok).
Qed.

(** What [shutdown] leaves behind. *)
Lemma shutdown_leaves g w :
  let res := shutdown env g w in
  device (client (state_after res)) = None ∧
  polling_task (state_after res) = polling_task g ∧
  ∀ tid, polling_task g = Some tid → tasks_done (tasks (world_after res)) tid.
Proof.
  simpl. destruct (shutdown_task_phase g w) as (Δ1 & ts & -> & _ & Hphase).
  rewrite disconnect_eq. unfold state_after, world_after.
  destruct (device (client g)) as [d|] eqn:Hd; simpl; (split_and!; try done);
    intros tid Hpt; rewrite Hpt in Hphase;
    destruct Hphase as (Δ' & _ & Hother & Hdone & Hsame); unfold tasks_done;
    (destruct (tasks w !! tid) as [t|] eqn:Ht; [right; by eapply Hdone|]);
    left; by destruct (Hsame (or_introl Ht)) as [-> _].
Qed.

(** X10.  [shutdown] is called from the lifespan hook and again from the
    manager of [main.py] when the application stops.  A second call is
    harmless: it completes, leaves the gateway and the task table as the
    first call left them, and touches no device; it only logs, and cancels
    and awaits again the task that has already ended. *)
Theorem second_shutdown_is_harmless g w :
  let r1 := shutdown env g w in
  let r2 := shutdown env (state_after r1) (world_after r1) in
  result_of r2 = Ok tt ∧
  state_after r2 = state_after r1 ∧
  tasks (world_after r2) = tasks (world_after r1) ∧
  clock (world_after r2) = clock (world_after r1) ∧
  ∀ e, e ∈ events_since (world_after r1) (world_after r2) →
       (∃ lvl, e = EvLog lvl) ∨
       (∃ tid, polling_task g = Some tid ∧ (e = EvCancel tid ∨ e = EvAwaitTask tid)).
Proof.
  simpl. destruct (shutdown_leaves g w) as (Hdev & Hpt & Hdone). simpl in *.
  set (g1 := state_after (shutdown env g w)) in *.
  set (w1 := world_after (shutdown env g w)) in *.
  destruct (shutdown_task_phase g1 w1) as (Δ1 & ts & -> & _ & Hphase).
  rewrite disconnect_eq, Hdev. unfold result_of, state_after, world_after. simpl.
  (erewrite events_since_app by (simpl; rewrite <- ?app_assoc; reflexivity)).
  rewrite Hpt in Hphase. rewrite set_client_id.
  destruct (polling_task g) as [tid|] eqn:Hg.
  - destruct Hphase as (Δ' & -> & _ & _ & Hsame).
    destruct (Hsame (Hdone tid eq_refl)) as [-> Hlogs]. split_and!; try done; try lia.
    intros e He. apply elem_of_app in He as [He|He].
    + apply elem_of_cons in He as [->|He]; [left; by eexists|].
      apply elem_of_cons in He as [->|He]; [right; exists tid; by split; [|left]|].
      apply elem_of_cons in He as [->|He]; [right; exists tid; by split; [|right]|].
      left. by apply Hlogs.
    + left. elem_cases He. by eexists.
  - destruct Hphase as [-> ->]. split_and!; try done; try lia.
    intros e He. left. elem_cases He; by eexists.
Qed.

(** X11.  [startup] never raises.  It starts the polling task exactly when
    [connect] succeeded: then the gateway is marked connected and holds the
    handle of a new task, the last of the task table.  When [connect]
    failed nothing is started and the gateway's flag and handle are left as
    they were: there is no retry.  [startup] closes no device, cancels no
    task and leaves the snapshot table alone. *)
Theorem startup_polls_iff_connected g w :
  let res := startup env g w in
  let g' := state_after res in
  let w' := world_after res in
  let Δ := events_since w w' in
  result_of res = Ok tt ∧
  last_data g' = last_data g ∧
  (∀ ok, EvClose ok ∉ Δ) ∧ (∀ tid, EvCancel tid ∉ Δ) ∧
  (is_connected (client g') = true →
     gw_is_connected g' = true ∧
     polling_task g' = Some (length (tasks w)) ∧
     tasks w' = tasks w ++ [Suspended AtStart false] ∧
     EvCreateTask (length (tasks w)) ∈ Δ) ∧
  (is_connected (client g') = false →
     gw_is_connected g' = gw_is_connected g ∧
     polling_task g' = polling_task g ∧
     tasks w' = tasks w ∧
     ∀ tid, EvCreateTask tid ∉ Δ).
Proof.
  simpl. destruct (connect_returns env (client g) w) as (b & c' & Δ & dt & Hc & Hb & _ & Hev).
  rewrite (startup_eq env _ _ _ _ _ Hc).
  assert (Hno : ∀ e, e ∈ Δ → (∀ ok, e ≠ EvClose ok) ∧ (∀ tid, e ≠ EvCancel tid) ∧
                              (∀ tid, e ≠ EvCreateTask tid)).
  { intros e He. destruct (Hev e He) as [[? ->]|[(? & ? & ->)|[? ->]]]; by split_and!. }
  unfold result_of, state_after, world_after. destruct b; simpl.
  - (erewrite events_since_app by (simpl; rewrite <- app_assoc; reflexivity)).
    split_and!; try done.
    + intros ok [Hin|Hin]%elem_of_app; [destruct (Hno _ Hin) as (H1 & _); by destruct (H1 ok)|elem_cases Hin].
    + intros tid [Hin|Hin]%elem_of_app; [destruct (Hno _ Hin) as (_ & H2 & _); by destruct (H2 tid)|elem_cases Hin].
    + intros _. split_and!; try done. apply elem_of_app. right. elem_in.
    + intros Hf. congruence.
  - (erewrite events_since_app by (simpl; rewrite <- app_assoc; reflexivity)).
    split_and!; try done.
    + intros ok [Hin|Hin]%elem_of_app; [destruct (Hno _ Hin) as (H1 & _); by destruct (H1 ok)|elem_cases Hin].
    + intros tid [Hin|Hin]%elem_of_app; [destruct (Hno _ Hin) as (_ & H2 & _); by destruct (H2 tid)|elem_cases Hin].
    + intros Hf. congruence.
    + intros _. split_and!; try done.
      intros tid [Hin|Hin]%elem_of_app; [destruct (Hno _ Hin) as (_ & _ & H3); by destruct (H3 tid)|elem_cases Hin].
Qed.

(** ** The polling task between requests *)

(** One run of the polling task: what it emits and what it keeps. *)
Lemma run_polling_task_quiet tid g w :
  ∃ Δ g' w',
    run_polling_task env tid g w = (Ok tt, g', w') ∧
    trace w' = trace w ++ Δ ∧
    (∀ e, e ∈ Δ → (∃ id ok, e = EvRead id ok) ∨ (∃ lvl, e = EvLog lvl) ∨
                  (∃ secs, e = EvSleep secs) ∨ e = EvTaskDone tid) ∧
    is_connected (client g') = is_connected (client g) ∧
    gw_is_connected g' = gw_is_connected g ∧
    polling_task g' = polling_task g ∧
    (is_connected (client g) = false ∨ device (client g) = None →
       g' = g ∧ ∀ e, e ∈ Δ → e = EvLog ERROR ∨ e = EvSleep 5 ∨ e = EvTaskDone tid).
Proof.
  destruct (tasks w !! tid) as [[p [|]|c]|] eqn:Ht.
  - eexists [EvTaskDone tid], g, _. split; [by eapply run_polling_task_cancelled|].
    split_and!; try done.
    + intros e He. elem_cases He. by do 3 right.
    + intros _. split; [done|]. intros e He. elem_cases He. by do 2 right.
  - destruct (is_connected (client g)) eqn:Hc; [destruct (device (client g)) as [d|] eqn:Hd|].
    + destruct (_polling_loop_body_cycle env g w Hc) as (data & Δ & c1 & w1 & Hpost & Hbody).
      { by rewrite Hd. }
      eexists (Δ ++ [EvSleep _]), _, _. split; [by eapply run_polling_task_running|].
      destruct Hpost as [Htr _ _ _ Hconn _ _ _ _ _ Hevents _ _ _]. simpl. split_and!; try done.
      * by rewrite Htr, app_assoc.
      * intros e [He|He]%elem_of_app.
        -- destruct (Hevents e He) as [(id & ok & -> & _)|[lvl ->]]; [left; by eexists _, _|right; left; by eexists].
        -- apply list_elem_of_singleton in He as ->. do 2 right. left. by eexists.
      * congruence.
      * intros [?|?]; congruence.
    + eexists [EvLog ERROR; EvSleep 5], g, _. split.
      { eapply run_polling_task_running; [done|]. apply _polling_loop_body_backoff. by right. }
      split_and!; try done.
      * intros e He. elem_cases He; [right; left|do 2 right; left]; by eexists.
      * intros _. split; [done|]. intros e He. elem_cases He; auto.
    + eexists [EvLog ERROR; EvSleep 5], g, _. split.
      { eapply run_polling_task_running; [done|]. apply _polling_loop_body_backoff. by left. }
      split_and!; try done.
      * intros e He. elem_cases He; [right; left|do 2 right; left]; by eexists.
      * intros _. split; [done|]. intros e He. elem_cases He; auto.
  - exists [], g, w. split; [apply run_polling_task_idle; eauto|].
    split_and!; try done; [by rewrite app_nil_r|intros e He; by apply elem_of_nil in He|].
    intros _. split; [done|]. intros e He. by apply elem_of_nil in He.
  - exists [], g, w. split; [apply run_polling_task_idle; eauto|].
    split_and!; try done; [by rewrite app_nil_r|intros e He; by apply elem_of_nil in He|].
    intros _. split; [done|]. intros e He. by apply elem_of_nil in He.
Qed.

(** X12.  The polling loop never reconnects.  However often the polling
    task runs, it only reads, logs and sleeps: it constructs, scans and
    closes no device and creates and cancels no task, and both connected
    flags stay as they are.  So once the client is disconnected (or has no
    device) polling makes no progress by itself: every run logs an error
    and backs off 5 seconds, and the gateway stays exactly as it was. *)
Theorem polling_never_reconnects tid n g w :
  let res := run_cycles env tid n g w in
  let Δ := events_since w (world_after res) in
  result_of res = Ok tt ∧
  (∀ e, e ∈ Δ → (∃ id ok, e = EvRead id ok) ∨ (∃ lvl, e = EvLog lvl) ∨
                (∃ secs, e = EvSleep secs) ∨ e = EvTaskDone tid) ∧
  is_connected (client (state_after res)) = is_connected (client g) ∧
  gw_is_connected (state_after res) = gw_is_connected g ∧
  (is_connected (client g) = false ∨ device (client g) = None →
     state_after res = g ∧
     ∀ e, e ∈ Δ → e = EvLog ERROR ∨ e = EvSleep 5 ∨ e = EvTaskDone tid).
Proof.
  simpl.
  cut (∃ Δ g' w', run_cycles env tid n g w = (Ok tt, g', w') ∧
         trace w' = trace w ++ Δ ∧
         (∀ e, e ∈ Δ → (∃ id ok, e = EvRead id ok) ∨ (∃ lvl, e = EvLog lvl) ∨
                       (∃ secs, e = EvSleep secs) ∨ e = EvTaskDone tid) ∧
         is_connected (client g') = is_connected (client g) ∧
         gw_is_connected g' = gw_is_connected g ∧
         (is_connected (client g) = false ∨ device (client g) = None →
            g' = g ∧ ∀ e, e ∈ Δ → e = EvLog ERROR ∨ e = EvSleep 5 ∨ e = EvTaskDone tid)).
  { intros (Δ & g' & w' & -> & Htrace & H1 & H2 & H3 & H4).
    unfold result_of, world_after, state_after. simpl.
    by rewrite (events_since_app _ _ _ Htrace). }
  revert g w. induction n as [|n IH]; intros g w.
  - exists [], g, w. split_and!; try done; [by rewrite app_nil_r| |].
    + intros e He. by apply elem_of_nil in He.
    + intros _. split; [done|]. intros e He. by apply elem_of_nil in He.
  - destruct (run_polling_task_quiet tid g w)
      as (Δ1 & g1 & w1 & Hstep & Htrace1 & Hev1 & Hc1 & Hg1 & _ & Hoff1).
    destruct (IH g1 w1) as (Δ2 & g2 & w2 & Hrest & Htrace2 & Hev2 & Hc2 & Hg2 & Hoff2).
    exists (Δ1 ++ Δ2), g2, w2. split_and!.
    + simpl. unfold mbind, M_bind, bind. by rewrite Hstep.
    + by rewrite Htrace2, Htrace1, app_assoc.
    + intros e [He|He]%elem_of_app; auto.
    + congruence.
    + congruence.
    + intros Hoff. destruct (Hoff1 Hoff) as [-> Hlog1].
      destruct (Hoff2 Hoff) as [-> Hlog2]. split; [done|].
      intros e [He|He]%elem_of_app; auto.
Qed.

(** ** POST /device/disconnect *)

Lemma disconnect_device_eq g w :
  disconnect_device env g w =
  let w1 := match polling_task g with
            | Some tid => {| clock := clock w; trace := trace w ++ [EvCancel tid];
                             tasks := alter request_cancel tid (tasks w) |}
            | None => w
            end in
  (Ok {| cr_connected := false;
         cr_timestamp := clock (world_after (disconnect env (client g) w1)) |},
   {| gw_config := gw_config g;
      client := state_after (disconnect env (client g) w1);
      gw_is_connected := false;
      last_data := last_data g;
      polling_task := None |},
   world_after (disconnect env (client g) w1)).
Proof.
  unfold disconnect_device, task_cancel. do 2 munfold. simpl.
  destruct (polling_task g) as [tid|] eqn:Hpt; simpl; rewrite !disconnect_eq;
    unfold state_after, world_after;
    destruct (device (client g)); munfold; simpl;
    unfold set_gw_is_connected, set_client, set_polling_task, set_tasks; simpl; rewrite ?Hpt; done.
Qed.

Lemma run_cycles_idle tid n : ∀ g w,
  tasks_done (tasks w) tid → run_cycles env tid n g w = (Ok tt, g, w).
Proof.
  induction n as [|n IH]; intros g w Ht; [done|].
  simpl. unfold mbind, M_bind, bind. rewrite run_polling_task_idle by done. by apply IH.
Qed.

(** X13.  POST /device/disconnect always answers [connected: false], drops
    the device object and the task handle and marks client and gateway
    disconnected; the snapshot table stays.  The polling task it cancelled
    ends at its next run without touching the device: whatever number of
    times the event loop runs it afterwards, the task emits nothing but its
    end and the gateway stays as the request left it. *)
Theorem disconnect_device_stops_polling g w tid at_ n :
  polling_task g = Some tid → tasks w !! tid = Some (Suspended at_ false) →
  let r := disconnect_device env g w in
  let g1 := state_after r in
  let res := run_cycles env tid (S n) g1 (world_after r) in
  (∃ t, result_of r = Ok {| cr_connected := false; cr_timestamp := t |}) ∧
  gw_is_connected g1 = false ∧ polling_task g1 = None ∧
  device (client g1) = None ∧ last_data g1 = last_data g ∧
  (is_Some (device (client g)) → is_connected (client g1) = false) ∧
  result_of res = Ok tt ∧
  state_after res = g1 ∧
  events_since (world_after r) (world_after res) = [EvTaskDone tid] ∧
  tasks (world_after res) !! tid = Some (deliver_cancel at_).
Proof.
  intros Hpt Ht. simpl. rewrite disconnect_device_eq, Hpt. cbv zeta.
  set (w1 := {| clock := clock w; trace := trace w ++ [EvCancel tid];
                tasks := alter request_cancel tid (tasks w) |}).
  assert (Hd : ∃ c' Δ dt, disconnect env (client g) w1 = (Ok tt, c', add_events Δ dt w1) ∧
                           device c' = None ∧
                           (is_Some (device (client g)) → is_connected c' = false)).
  { rewrite disconnect_eq. destruct (device (client g)) as [d|] eqn:Hdev.
    - by eexists _, _, _.
    - exists (client g), [], 0. split_and!; [|done|by intros [? ?]].
      f_equal. unfold w1. world_eq. }
  destruct Hd as (c' & Δ & dt & -> & Hnone & Hflag).
  unfold result_of, state_after, world_after. simpl.
  assert (Ht1 : tasks (add_events Δ dt w1) !! tid = Some (Suspended at_ true)).
  { simpl. by rewrite list_lookup_alter_eq, Ht. }
  unfold mbind, M_bind, bind.
  rewrite (run_polling_task_cancelled env tid _ _ at_ Ht1).
  rewrite run_cycles_idle.
  2:{ right. simpl. rewrite list_lookup_insert_eq.
      - destruct at_; by eexists.
      - rewrite length_alter. by eapply lookup_lt_Some. }
  simpl. split_and!; try done.
  - by eexists.
  - by apply events_since_app.
  - apply list_lookup_insert_eq. rewrite length_alter. by eapply lookup_lt_Some.
Qed.

End Lifecycle.

Section Reachable.
Variable env : Env.

(** ** What every request keeps *)

Lemma serve_app rs1 : ∀ rs2 g w,
  serve env (rs1 ++ rs2) g w = serve env rs2 (serve env rs1 g w).1 (serve env rs1 g w).2.
Proof.
  induction rs1 as [|r rs1 IH]; intros rs2 g w; [done|].
  simpl. destruct (serve_one env r g w) as [g1 w1]. apply IH.
Qed.

Lemma get_status_eq g w :
  get_status g w = (Ok {| sr_connected := gw_is_connected g; sr_timestamp := clock w |}, g, w).
Proof. unfold get_status. by munfold. Qed.

Lemma get_available_models_route_eq g w :
  get_available_models_route g w =
  (if gw_is_connected g
   then Ok {| ms_available_models := available_models (client g);
              ms_configured_models := models_to_read (data_collection (gw_config g)) |}
   else Raise (HTTPException 503), g, w).
Proof.
  unfold get_available_models_route, get_available_models. munfold. simpl.
  destruct (gw_is_connected g); simpl; [|done]. by rewrite set_client_id.
Qed.

(** The client after a request is the client before, or what one method
    call of the request left. *)
Lemma get_device_info_route_client g w :
  ∃ r c' w',
    get_device_info_route env g w = (r, set_client c' g, w') ∧
    ((c' = client g ∧ w' = w) ∨
     (c' = state_after (read_model env 1 (client g) w) ∧
      w' = world_after (read_model env 1 (client g) w))).
Proof.
  unfold get_device_info_route. munfold. simpl.
  destruct (gw_is_connected g); simpl.
  2:{ eexists _, (client g), w. rewrite set_client_id. split; [done|by left]. }
  rewrite get_device_info_eq.
  destruct (is_connected (client g)); simpl.
  2:{ eexists _, (client g), w. split; [done|by left]. }
  destruct (read_model_returns env 1 (client g) w) as (d & c' & w' & Hr). rewrite Hr.
  destruct d; simpl; eexists _, c', w'; (split; [done|by right]).
Qed.

Lemma get_model_data_client model_id g w :
  ∃ r c' w',
    get_model_data env model_id g w = (r, set_client c' g, w') ∧
    ((c' = client g ∧ w' = w) ∨
     (c' = state_after (read_model env model_id (client g) w) ∧
      w' = world_after (read_model env model_id (client g) w))).
Proof.
  destruct (read_model_returns env model_id (client g) w) as (d & c' & w' & Hr).
  rewrite (get_model_data_eq env _ _ _ _ _ _ Hr), Hr.
  destruct (gw_is_connected g).
  - eexists _, c', w'. split; [done|by right].
  - eexists _, (client g), w. rewrite set_client_id. split; [done|by left].
Qed.

Lemma connect_frame c w :
  clock w ≤ clock (world_after (connect env c w)) ∧
  tasks (world_after (connect env c w)) = tasks w.
Proof.
  rewrite connect_eq. unfold world_after.
  destruct (transport_of (config c)) as [p|]; simpl; [|split; [lia|done]].
  destruct (env_open env (clock w) p); simpl; [|split; [lia|done]].
  destruct (env_scan env (clock w + 1)); simpl; (split; [lia|done]).
Qed.

Lemma disconnect_frame c w :
  clock w ≤ clock (world_after (disconnect env c w)) ∧
  tasks (world_after (disconnect env c w)) = tasks w.
Proof.
  rewrite disconnect_eq. unfold world_after.
  destruct (device c); simpl; (split; [lia|done]).
Qed.

(** A request other than a run of the polling task leaves the snapshot
    table alone; no request moves the clock backwards. *)
Lemma serve_one_keeps_snapshot r g w :
  (∀ tid, r ≠ RunTask tid) →
  last_data (serve_one env r g w).1 = last_data g ∧
  clock w ≤ clock (serve_one env r g w).2.
Proof.
  intros Hr.
  destruct r as [| | | | | |model_id| | |tid]; unfold serve_one, after, state_after, world_after.
  - destruct (connect_returns env (client g) w) as (b & c' & Δ & dt & Hc & _).
    pose proof (connect_frame (client g) w) as [Hclk _]. rewrite Hc in Hclk.
    unfold world_after in Hclk. simpl in Hclk.
    rewrite (startup_eq env _ _ _ _ _ Hc). destruct b; simpl; split; try done; lia.
  - destruct (shutdown_task_phase env g w) as (Δ1 & ts & -> & _). simpl.
    split; [done|].
    match goal with |- context [disconnect env ?c ?w1] =>
      pose proof (disconnect_frame c w1) as [Hclk _] end.
    simpl in Hclk. lia.
  - rewrite get_status_eq. simpl. split; [done|lia].
  - destruct (get_device_info_route_client g w) as (r & c' & w' & -> & Hcase). simpl.
    split; [done|]. destruct Hcase as [[_ ->]|[_ ->]]; [done|].
    by destruct (read_model_frame env 1 (client g) w) as (_ & _ & _ & _ & _ & _ & ? & _).
  - rewrite get_available_models_route_eq. simpl. split; [done|lia].
  - rewrite get_live_data_eq. simpl. split; [done|lia].
  - destruct (get_model_data_client model_id g w) as (r & c' & w' & -> & Hcase). simpl.
    split; [done|]. destruct Hcase as [[_ ->]|[_ ->]]; [done|].
    by destruct (read_model_frame env model_id (client g) w) as (_ & _ & _ & _ & _ & _ & ? & _).
  - destruct (connect_returns env (client g) w) as (b & c' & Δ & dt & Hc & _).
    pose proof (connect_frame (client g) w) as [Hclk _]. rewrite Hc in Hclk.
    unfold world_after in Hclk. simpl in Hclk.
    rewrite (connect_device_eq env _ _ _ _ _ Hc).
    destruct (b && negb (bool_decide (is_Some (polling_task g)))); simpl; split; try done; lia.
  - rewrite disconnect_device_eq. cbv zeta. simpl. split; [done|].
    match goal with |- context [disconnect env ?c ?w1] =>
      pose proof (disconnect_frame c w1) as [Hclk _] end.
    destruct (polling_task g); simpl in *; lia.
  - by destruct (Hr tid).
Qed.

(** What a run of the polling task does to the snapshot table. *)
Lemma run_polling_task_snapshot tid g w :
  let g' := state_after (run_polling_task env tid g w) in
  let w' := world_after (run_polling_task env tid g w) in
  clock w ≤ clock w' ∧
  ∀ k, last_data g' !! k = last_data g !! k ∨
       ∃ rd, last_data g' !! k = Some rd ∧ clock w < r_timestamp rd ≤ clock w'.
Proof.
  simpl. destruct (tasks w !! tid) as [[p [|]|c]|] eqn:Ht.
  - rewrite (run_polling_task_cancelled env _ _ _ _ Ht). unfold state_after, world_after.
    simpl. split; [lia|]. intros k. by left.
  - destruct (_polling_loop_body_post env g w) as (Δ & at_ & g' & w' & Hb & Hpost).
    rewrite (run_polling_task_running env _ _ _ _ _ _ _ Ht Hb).
    unfold state_after, world_after. simpl.
    destruct Hpost as [_ Hclk _ _ _ _ _ _ Honly Hfresh]. split; [done|].
    intros k. destruct (Honly k) as [?|(id & -> & Hin)]; [by left|right].
    destruct (Hfresh id Hin) as (rd & Hrd & t & m & Ht' & _ & ->).
    eexists. split; [done|]. simpl. lia.
  - rewrite run_polling_task_idle by eauto. unfold state_after, world_after. simpl.
    split; [lia|]. intros k. by left.
  - rewrite run_polling_task_idle by eauto. unfold state_after, world_after. simpl.
    split; [lia|]. intros k. by left.
Qed.

Lemma serve_one_snapshot r g w :
  timestamps_bounded g w →
  timestamps_bounded (serve_one env r g w).1 (serve_one env r g w).2 ∧
  snapshot_advances g (serve_one env r g w).1.
Proof.
  intros Hb.
  assert (Hstep : clock w ≤ clock (serve_one env r g w).2 ∧
            ∀ k, last_data (serve_one env r g w).1 !! k = last_data g !! k ∨
                 ∃ rd, last_data (serve_one env r g w).1 !! k = Some rd ∧
                       clock w < r_timestamp rd ≤ clock (serve_one env r g w).2).
  { assert (Hr : (∃ tid, r = RunTask tid) ∨ ∀ tid, r ≠ RunTask tid).
    { destruct r; try (by right); left; by eexists. }
    destruct Hr as [[tid ->]|Hno].
    - apply run_polling_task_snapshot.
    - destruct (serve_one_keeps_snapshot r g w Hno) as [-> ?].
      split; [done|]. intros k. by left. }
  destruct Hstep as [Hclk Hk]. split.
  - intros k rd Hrd. destruct (Hk k) as [Heq|(rd' & Hrd' & ?)].
    + rewrite Heq in Hrd. specialize (Hb k rd Hrd). lia.
    + simplify_eq. lia.
  - intros k rd Hrd. destruct (Hk k) as [Heq|(rd' & Hrd' & ?)].
    + exists rd. split; [congruence|lia].
    + exists rd'. split; [done|]. specialize (Hb k rd Hrd). lia.
Qed.

Lemma serve_snapshot rs : ∀ g w,
  timestamps_bounded g w →
  timestamps_bounded (serve env rs g w).1 (serve env rs g w).2 ∧
  snapshot_advances g (serve env rs g w).1.
Proof.
  induction rs as [|r rs IH]; intros g w Hb.
  - split; [done|]. intros k rd Hrd. exists rd. split; [done|lia].
  - simpl. destruct (serve_one_snapshot r g w Hb) as [Hb1 Ha1].
    destruct (serve_one env r g w) as [g1 w1]. simpl in *.
    destruct (IH g1 w1 Hb1) as [Hb2 Ha2]. split; [done|].
    intros k rd Hrd. destruct (Ha1 k rd Hrd) as (rd1 & Hrd1 & ?).
    destruct (Ha2 k rd1 Hrd1) as (rd2 & Hrd2 & ?). exists rd2. split; [done|lia].
Qed.

(** X14.  The snapshot table never loses an entry and never goes back in
    time.  Whatever requests reach a gateway after its construction, no
    entry is newer than the clock, and every entry present at some moment
    is still present after any further requests, with a timestamp that is
    the same or later: not a disconnect, a reconnect or a shutdown clears
    or resets what GET /data/live serves. *)
Theorem snapshot_never_regresses cfg w0 rs1 rs2 :
  let g1 := (serve env rs1 (SunSpecGateway_init cfg) w0).1 in
  let w1 := (serve env rs1 (SunSpecGateway_init cfg) w0).2 in
  let g2 := (serve env (rs1 ++ rs2) (SunSpecGateway_init cfg) w0).1 in
  timestamps_bounded g1 w1 ∧ snapshot_advances g1 g2.
Proof.
  simpl. rewrite serve_app.
  assert (H0 : timestamps_bounded (SunSpecGateway_init cfg) w0).
  { intros k rd Hrd. simpl in Hrd. by rewrite lookup_empty in Hrd. }
  destruct (serve_snapshot rs1 _ _ H0) as [Hb1 _]. split; [done|].
  by apply serve_snapshot.
Qed.

(** ** Polling tasks *)

Lemma live_request_cancel t : live (request_cancel t) = false.
Proof. by destruct t. Qed.

Lemma live_deliver_cancel at_ : live (deliver_cancel at_) = false.
Proof. by destruct at_. Qed.

Lemma one_poller_same g w g' w' :
  polling_task g' = polling_task g → tasks w' = tasks w →
  one_poller g w → one_poller g' w'.
Proof. unfold one_poller. by intros -> ->. Qed.

Lemma serve_one_one_poller r g w :
  r ≠ ReqStartup →
  one_poller g w → one_poller (serve_one env r g w).1 (serve_one env r g w).2.
Proof.
  intros Hr [Hlive Hvalid].
  destruct r as [| | | | | |model_id| | |tid]; unfold serve_one, after, state_after, world_after;
    cbn [fst snd].
  - done.
  - destruct (shutdown_task_phase env g w) as (Δ1 & ts & Heq & _ & Hphase).
    assert (Hpt' : polling_task (shutdown env g w).1.2 = polling_task g) by by rewrite Heq.
    assert (Hts : tasks (shutdown env g w).2 = ts).
    { rewrite Heq. simpl. apply (disconnect_frame (client g)). }
    unfold one_poller. rewrite Hpt', Hts. clear Heq Hpt' Hts.
    destruct (polling_task g) as [tid|] eqn:Hpt.
    + destruct Hphase as (Δ' & _ & Hother & Hdone & _). split.
      * intros tid' t Ht Hl. destruct (decide (tid' = tid)) as [->|Hne]; [done|].
        rewrite Hother in Ht by done. by eapply Hlive.
      * intros tid' [= <-]. destruct (Hvalid tid eq_refl) as [t Ht].
        destruct (Hdone t Ht) as [c ->]. by eexists.
    + destruct Hphase as [_ ->]. by split.
  - rewrite get_status_eq. by split.
  - destruct (get_device_info_route_client g w) as (r & c' & w' & -> & Hcase). simpl.
    eapply one_poller_same; [done| |by split].
    destruct Hcase as [[_ ->]|[_ ->]]; [done|].
    by destruct (read_model_frame env 1 (client g) w) as (_ & _ & _ & _ & _ & ? & _).
  - rewrite get_available_models_route_eq. by split.
  - rewrite get_live_data_eq. by split.
  - destruct (get_model_data_client model_id g w) as (r & c' & w' & -> & Hcase). simpl.
    eapply one_poller_same; [done| |by split].
    destruct Hcase as [[_ ->]|[_ ->]]; [done|].
    by destruct (read_model_frame env model_id (client g) w) as (_ & _ & _ & _ & _ & ? & _).
  - destruct (connect_returns env (client g) w) as (b & c' & Δ & dt & Hc & _).
    rewrite (connect_device_eq env _ _ _ _ _ Hc).
    destruct (b && negb (bool_decide (is_Some (polling_task g)))) eqn:Hnew; simpl.
    + apply andb_true_iff in Hnew as [_ Hnone].
      apply negb_true_iff, bool_decide_eq_false in Hnone.
      split; simpl.
      * intros tid t Ht Hl. apply lookup_app_Some in Ht as [Ht|[Hge Ht]].
        -- destruct Hnone. rewrite (Hlive tid t Ht Hl). by eexists.
        -- destruct (tid - length (tasks w))%nat as [|n] eqn:Hn; [|done].
           f_equal. lia.
      * intros tid [= <-]. rewrite lookup_app_r by lia.
        rewrite Nat.sub_diag. by eexists.
    + by split.
  - assert (Hpt' : polling_task (disconnect_device env g w).1.2 = None)
      by by rewrite disconnect_device_eq.
    assert (Hts : tasks (disconnect_device env g w).2 =
                  match polling_task g with
                  | Some tid => alter request_cancel tid (tasks w)
                  | None => tasks w
                  end).
    { rewrite disconnect_device_eq. cbv zeta. simpl.
      rewrite (proj2 (disconnect_frame (client g) _)). by destruct (polling_task g). }
    unfold one_poller. rewrite Hpt', Hts. clear Hpt' Hts. split; [|done].
    destruct (polling_task g) as [tid|] eqn:Hpt; simpl.
    + intros tid' t Ht Hl. destruct (decide (tid' = tid)) as [->|Hne].
      * rewrite list_lookup_alter_eq in Ht.
        destruct (tasks w !! tid) as [t0|]; simplify_eq/=.
        by rewrite live_request_cancel in Hl.
      * rewrite list_lookup_alter_ne in Ht by done.
        destruct Hne. specialize (Hlive tid' t Ht Hl). congruence.
    + intros tid' t Ht Hl. specialize (Hlive tid' t Ht Hl). congruence.
  - destruct (tasks w !! tid) as [[p [|]|c]|] eqn:Ht.
    + rewrite (run_polling_task_cancelled env _ _ _ _ Ht). split; simpl.
      * intros tid' t Ht' Hl. destruct (decide (tid' = tid)) as [->|Hne].
        -- rewrite list_lookup_insert_eq in Ht' by by eapply lookup_lt_Some.
           simplify_eq. by rewrite live_deliver_cancel in Hl.
        -- rewrite list_lookup_insert_ne in Ht' by done. by eapply Hlive.
      * intros tid' Hpt. apply lookup_lt_is_Some. rewrite length_insert.
        apply lookup_lt_is_Some. by apply Hvalid.
    + destruct (_polling_loop_body_post env g w) as (Δ & at_ & g' & w' & Hb & Hpost).
      rewrite (run_polling_task_running env _ _ _ _ _ _ _ Ht Hb).
      destruct Hpost as [_ _ Htasks _ _ Htask _ _ _ _]. split; simpl; rewrite Htasks, Htask.
      * intros tid' t Ht' Hl. destruct (decide (tid' = tid)) as [->|Hne].
        -- by eapply Hlive.
        -- rewrite list_lookup_insert_ne in Ht' by done. by eapply Hlive.
      * intros tid' Hpt. apply lookup_lt_is_Some. rewrite length_insert.
        apply lookup_lt_is_Some. by apply Hvalid.
    + rewrite run_polling_task_idle by eauto. by split.
    + rewrite run_polling_task_idle by eauto. by split.
Qed.

Lemma serve_one_poller rs : ∀ g w,
  no_startup rs → one_poller g w →
  one_poller (serve env rs g w).1 (serve env rs g w).2.
Proof.
  induction rs as [|r rs IH]; intros g w Hno Hinv; [done|].
  apply not_elem_of_cons in Hno as [Hr Hno].
  simpl. pose proof (serve_one_one_poller r g w (not_eq_sym Hr) Hinv) as H1.
  destruct (serve_one env r g w) as [g1 w1]. by apply IH.
Qed.

(** X15.  There is never more than one live polling task.  After [startup]
    on a fresh event loop and any requests served afterwards, a polling
    task that has neither ended nor been cancelled is the one whose handle
    the gateway holds; two such tasks are the same task, and a gateway
    without a handle has no live task.  So a disconnect followed by a
    connect, however often, does not multiply the pollers. *)
Theorem at_most_one_live_poller cfg w0 rs :
  tasks w0 = [] → no_startup rs →
  let g := (serve env (ReqStartup :: rs) (SunSpecGateway_init cfg) w0).1 in
  let w := (serve env (ReqStartup :: rs) (SunSpecGateway_init cfg) w0).2 in
  (∀ tid t, tasks w !! tid = Some t → live t = true → polling_task g = Some tid) ∧
  (∀ tid1 tid2 t1 t2, tasks w !! tid1 = Some t1 → live t1 = true →
                      tasks w !! tid2 = Some t2 → live t2 = true → tid1 = tid2) ∧
  (∀ tid, polling_task g = Some tid → is_Some (tasks w !! tid)).
Proof.
  intros Hw0 Hno. cbv zeta.
  assert (Hstart : one_poller (serve_one env ReqStartup (SunSpecGateway_init cfg) w0).1
                              (serve_one env ReqStartup (SunSpecGateway_init cfg) w0).2).
  { unfold serve_one, after, state_after, world_after.
    destruct (connect_returns env (client (SunSpecGateway_init cfg)) w0)
      as (b & c' & Δ & dt & Hc & _).
    rewrite (startup_eq env _ _ _ _ _ Hc). simpl. rewrite Hw0.
    destruct b; split; simpl; try done.
    - by intros [|tid] t Ht Hl.
    - intros tid [= <-]. by eexists.
    - intros tid t Ht. by rewrite Hw0 in Ht. }
  change (serve env (ReqStartup :: rs) (SunSpecGateway_init cfg) w0)
    with (let '(g', w') := serve_one env ReqStartup (SunSpecGateway_init cfg) w0
          in serve env rs g' w').
  destruct (serve_one env ReqStartup (SunSpecGateway_init cfg) w0) as [g1 w1].
  destruct (serve_one_poller rs g1 w1 Hno Hstart) as [Hlive Hvalid].
  split_and!; [done| |done].
  intros tid1 tid2 t1 t2 Ht1 Hl1 Ht2 Hl2.
  pose proof (Hlive _ _ Ht1 Hl1). pose proof (Hlive _ _ Ht2 Hl2). congruence.
Qed.

(** ** Discovery gating in the reachable states *)

Lemma connect_undiscovered id c w :
  (∀ t ms, env_scan env t = Some ms → ms !! inl id = None) →
  available_models c !! id = None →
  available_models (state_after (connect env c w)) !! id = None.
Proof.
  intros Hscan Hid. rewrite connect_eq. unfold state_after.
  destruct (transport_of (config c)) as [p|]; simpl; [|done].
  destruct (env_open env (clock w) p); simpl; [|done].
  destruct (env_scan env (clock w + 1)) as [ms|] eqn:Hms; simpl; [|done].
  by rewrite discovered_registry, (Hscan _ _ Hms).
Qed.

Lemma disconnect_available_models c w :
  available_models (state_after (disconnect env c w)) = available_models c.
Proof. rewrite disconnect_eq. by destruct (device c). Qed.

(** A request leaves a model that no scan finds out of the registry and
    out of the snapshot table. *)
Lemma serve_one_undiscovered id r g w :
  (∀ t ms, env_scan env t = Some ms → ms !! inl id = None) →
  available_models (client g) !! id = None → last_data g !! model_key id = None →
  available_models (client (serve_one env r g w).1) !! id = None ∧
  last_data (serve_one env r g w).1 !! model_key id = None.
Proof.
  intros Hscan Hid Hnone.
  assert (Hr : (∃ tid, r = RunTask tid) ∨ ∀ tid, r ≠ RunTask tid).
  { destruct r; try (by right); left; by eexists. }
  destruct Hr as [[tid ->]|Hno].
  { unfold serve_one, after, state_after, world_after; cbn [fst snd].
    destruct (run_polling_task_gated env tid g w id Hid)
      as (Δ & g' & w' & -> & _ & _ & Hsame & Hmodels).
    simpl. split; [by rewrite Hmodels|by rewrite Hsame]. }
  destruct (serve_one_keeps_snapshot r g w Hno) as [Hdata _].
  split; [|by rewrite Hdata]. clear Hdata.
  destruct r as [| | | | | |model_id| | |tid]; unfold serve_one, after, state_after, world_after;
    cbn [fst snd].
  - pose proof (connect_undiscovered id (client g) w Hscan Hid) as H1.
    destruct (connect_returns env (client g) w) as (b & c' & Δ & dt & Hc & _).
    rewrite (startup_eq env _ _ _ _ _ Hc). rewrite Hc in H1. by destruct b.
  - destruct (shutdown_task_phase env g w) as (Δ1 & ts & -> & _). simpl.
    by rewrite disconnect_available_models.
  - by rewrite get_status_eq.
  - destruct (get_device_info_route_client g w) as (r & c' & w' & -> & Hcase). simpl.
    destruct Hcase as [[-> _]|[-> _]]; [done|].
    destruct (read_model_frame env 1 (client g) w) as (_ & _ & _ & _ & Hm & _).
    simpl in Hm. by rewrite Hm.
  - by rewrite get_available_models_route_eq.
  - by rewrite get_live_data_eq.
  - destruct (get_model_data_client model_id g w) as (r & c' & w' & -> & Hcase). simpl.
    destruct Hcase as [[-> _]|[-> _]]; [done|].
    destruct (read_model_frame env model_id (client g) w) as (_ & _ & _ & _ & Hm & _).
    simpl in Hm. by rewrite Hm.
  - pose proof (connect_undiscovered id (client g) w Hscan Hid) as H1.
    destruct (connect_returns env (client g) w) as (b & c' & Δ & dt & Hc & _).
    rewrite (connect_device_eq env _ _ _ _ _ Hc). rewrite Hc in H1.
    by destruct (b && negb (bool_decide (is_Some (polling_task g)))).
  - rewrite disconnect_device_eq. cbv zeta. simpl. by rewrite disconnect_available_models.
  - by destruct (Hno tid).
Qed.

Lemma serve_undiscovered id rs : ∀ g w,
  (∀ t ms, env_scan env t = Some ms → ms !! inl id = None) →
  available_models (client g) !! id = None → last_data g !! model_key id = None →
  available_models (client (serve env rs g w).1) !! id = None ∧
  last_data (serve env rs g w).1 !! model_key id = None.
Proof.
  induction rs as [|r rs IH]; intros g w Hscan Hid Hnone; [done|].
  simpl. destruct (serve_one_undiscovered id r g w Hscan Hid Hnone) as [H1 H2].
  destruct (serve_one env r g w) as [g1 w1]. by apply IH.
Qed.

(** C7, amended.  A model id that is not in the registry
    [available_models], whether or not it is configured for polling, is
    skipped by the polling task: however often the task runs, no read of
    that model is issued, and the snapshot table has at its key exactly what
    it had before.  So polling never creates an entry for it; an entry that
    was written in an earlier session, when the model was discovered, stays
    in the table ([last_data] is never cleared).  For a model that no scan
    of the device ever finds, whatever requests reach the gateway after its
    construction, the model is never in the registry and never has an entry
    in the snapshot table. *)
Theorem discovery_gating tid n g w id :
  let res := run_cycles env tid n g w in
  (available_models (client g) !! id = None →
     result_of res = Ok tt ∧
     (∀ ok, EvRead id ok ∉ events_since w (world_after res)) ∧
     last_data (state_after res) !! model_key id = last_data g !! model_key id ∧
     available_models (client (state_after res)) !! id = None) ∧
  ((∀ t ms, env_scan env t = Some ms → ms !! inl id = None) →
     ∀ cfg w0 rs,
       available_models (client (serve env rs (SunSpecGateway_init cfg) w0).1) !! id = None ∧
       last_data (serve env rs (SunSpecGateway_init cfg) w0).1 !! model_key id = None).
Proof.
  cbv zeta. split.
  - intros Hid. exact (run_cycles_gated env tid n g w id Hid).
  - intros Hscan cfg w0 rs. apply serve_undiscovered; [done|apply lookup_empty..].
Qed.

End Reachable.

(** C7 on the installation whose device is scanned again: after the
    reconnect model 101 is configured and not in the registry; three runs of
    the polling task issue no read of it and leave its entry of the first
    session where it is.  Model 160, which no scan of the first device
    finds, has no entry after [startup] and a poll cycle. *)
Lemma discovery_gating_witness :
  let res := run_cycles Scenario.env_rescan 0 3 Scenario.g6 Scenario.w6 in
  available_models (client Scenario.g6) !! 101 = None ∧
  (∀ ok, EvRead 101 ok ∉ events_since Scenario.w6 (world_after res)) ∧
  last_data (state_after res) !! model_key 101 = last_data Scenario.g6 !! model_key 101 ∧
  (∀ t ms, env_scan Scenario.env t = Some ms → ms !! inl 160 = None) ∧
  last_data (serve Scenario.env Scenario.requests Scenario.g0 Scenario.w0).1 !! model_key 160
  = None.
Proof.
  assert (H : available_models (client Scenario.g6) !! 101 = None) by (vm_compute; reflexivity).
  assert (Hscan : ∀ t ms, env_scan Scenario.env t = Some ms → ms !! inl 160 = None).
  { intros t ms Hms. cbn in Hms. injection Hms as <-. vm_compute. reflexivity. }
  destruct (discovery_gating Scenario.env_rescan 0 3 Scenario.g6 Scenario.w6 101) as [Hrun _].
  destruct (Hrun H) as (_ & Hno & Hsame & _).
  destruct (discovery_gating Scenario.env 0 0 Scenario.g0 Scenario.w0 160) as [_ Hreach].
  destruct (Hreach Hscan Scenario.cfg Scenario.w0 Scenario.requests) as [_ Hnone].
  cbv zeta. split_and!; [exact H|exact Hno|exact Hsame|exact Hscan|exact Hnone].
Defined.

Section Probes.
Variable env : Env.

(** [read_data] inside a [try] of its own: it never raises, closes
    nothing, and reads only models of the list. *)
Lemma guarded_read_data model_ids c w :
  ∃ c' w' Δ,
    try_except (read_data env (Some model_ids);; mret tt) (λ e, mret tt) c w = (Ok tt, c', w') ∧
    trace w' = trace w ++ Δ ∧
    (∀ e, e ∈ Δ → (∃ id ok, e = EvRead id ok ∧ id ∈ model_ids) ∨ (∃ lvl, e = EvLog lvl)) ∧
    (is_Some (device c) → is_Some (device c')).
Proof.
  destruct (is_connected c) eqn:Hc; [destruct (device c) as [d|] eqn:Hd|].
  2,3: (exists c, w, []; unfold try_except, try_with, mbind, M_bind, bind;
        rewrite read_data_raises by auto; simpl;
        split_and!; [done|by rewrite app_nil_r| |done];
        intros e He; by apply elem_of_nil in He).
  destruct (read_data_returns env (Some model_ids) c w Hc) as (data & Δ & c1 & w' & Hread & Hpost);
    [by rewrite Hd|].
  destruct Hpost as [Htr _ _ _ _ _ _ _ _ Hsome Hevents _ _ _].
  eexists _, w', Δ. unfold try_except, try_with, mbind, M_bind, bind. rewrite Hread. simpl.
  split_and!; [done|done| |].
  - intros e He. destruct (Hevents e He) as [(id & ok & -> & Hin & _)|?]; [left|by right].
    by exists id, ok.
  - intros _. simpl. apply Hsome. by rewrite Hd.
Qed.

Lemma test_sunspec_connection_run ip_address slave_id timeout w :
  let p := TCP {| tcp_host := ip_address; tcp_port := 502;
                  tcp_slave_id := slave_id; tcp_timeout := timeout |} in
  let opened := env_open env (clock w) p in
  let scanned := bool_decide (is_Some (env_scan env (clock w + 1))) in
  ∃ c' w' Δ,
    test_sunspec_connection env ip_address slave_id timeout w = (Ok (opened && scanned), c', w') ∧
    trace w' = trace w ++ Δ ∧
    (∀ id ok, EvRead id ok ∈ Δ → id ∈ [1; 103; 113; 160]) ∧
    (opened && scanned = true →
       device c' = None ∧ is_connected c' = false ∧
       ∃ Δ1 ok lvl, Δ = Δ1 ++ [EvClose ok; EvLog lvl] ∧ ∀ ok', EvClose ok' ∉ Δ1) ∧
    (opened && scanned = false →
       (∀ ok, EvClose ok ∉ Δ) ∧ (∀ id ok, EvRead id ok ∉ Δ)).
Proof.
  simpl. unfold test_sunspec_connection.
  set (p := TCP {| tcp_host := ip_address; tcp_port := 502;
                   tcp_slave_id := slave_id; tcp_timeout := timeout |}).
  set (c0 := SunSpecClient_init (connection_test_config ip_address slave_id timeout)).
  pose proof (connect_eq env c0 w) as Hc.
  assert (Htr : transport_of (config c0) = Some p) by done.
  rewrite Htr in Hc. clear Htr.
  unfold try_except at 1. unfold try_with, mbind, M_bind. unfold bind at 1.
  destruct (env_open env (clock w) p) eqn:Hopen; simpl.
  2:{ rewrite Hc. eexists _, _, _. split; [reflexivity|]. simpl.
      split_and!; [reflexivity| |done|].
      - intros id ok Hin. elem_cases Hin.
      - intros _. split; [intros ok Hin|intros id ok Hin]; elem_cases Hin. }
  destruct (env_scan env (clock w + 1)) as [ms|] eqn:Hscan; simpl.
  2:{ rewrite Hc. eexists _, _, _. split; [reflexivity|]. simpl.
      split_and!; [reflexivity| |done|].
      - intros id ok Hin. elem_cases Hin.
      - intros _. split; [intros ok Hin|intros id ok Hin]; elem_cases Hin. }
  rewrite Hc. clear Hc.
  set (c1 := set_is_connected true (discovered p ms c0)).
  set (w1 := add_events _ 2 w).
  destruct (get_device_info_frame env c1 w1) as (i & c2 & w2 & Δg & Hg & Htrace & Hevg & Hdev & _).
  assert (Hd2 : is_Some (device c2)).
  { apply Hdev. unfold c1. simpl. rewrite discovered_device. by eexists. }
  destruct (guarded_read_data [1; 103; 113; 160] c2 w2)
    as (c3 & w3 & Δr & Hr & Htrace3 & Hevr & Hdev3).
  destruct (Hdev3 Hd2) as [d3 Hd3]. unfold mbind, M_bind in Hr.
  unfold bind at 1. rewrite Hg. unfold bind at 1. rewrite Hr.
  unfold bind at 1. rewrite disconnect_eq, Hd3. simpl.
  assert (Hnoclose : ∀ ok, EvClose ok ∉
            [EvLog INFO; EvLog INFO; EvOpen p true; EvLog INFO; EvScan true;
             EvLog INFO; EvLog INFO] ++ Δg ++ Δr).
  { intros ok Hin. apply elem_of_app in Hin as [Hin|Hin]; [elem_cases Hin|].
    apply elem_of_app in Hin as [Hin|Hin].
    - by destruct (Hevg _ Hin) as [[? ?]|[? ?]].
    - by destruct (Hevr _ Hin) as [(? & ? & ? & _)|[? ?]]. }
  eexists _, _, (([EvLog INFO; EvLog INFO; EvOpen p true; EvLog INFO; EvScan true;
                   EvLog INFO; EvLog INFO] ++ Δg ++ Δr) ++ [EvClose _; EvLog _]).
  split; [reflexivity|]. split_and!.
  - unfold add_events. cbn [trace]. rewrite Htrace3, Htrace. unfold w1, add_events. cbn [trace].
    by rewrite <- !app_assoc.
  - intros id ok Hin.
    apply elem_of_app in Hin as [Hin|Hin]; [|elem_cases Hin].
    apply elem_of_app in Hin as [Hin|Hin]; [elem_cases Hin|].
    apply elem_of_app in Hin as [Hin|Hin].
    + destruct (Hevg _ Hin) as [[? ?]|[? ?]]; simplify_eq. elem_in.
    + destruct (Hevr _ Hin) as [(? & ? & ? & ?)|[? ?]]; by simplify_eq.
  - intros _. split_and!; try done. eexists _, _, _. split; [|exact Hnoclose]. done.
  - done.
Qed.

(** X17.  [test_sunspec_connection] reports success exactly when the device
    object could be constructed and discovery succeeded, and never raises:
    a sample read that fails does not change the verdict.  It reads only
    the common models 1, 103, 113 and 160.  On success the device is closed
    as the last thing done to it, whatever the reads did; otherwise nothing
    is read and nothing is closed. *)
Theorem test_sunspec_connection_closes_on_success ip_address slave_id timeout w :
  let res := test_sunspec_connection env ip_address slave_id timeout w in
  let Δ := events_since w (world_after res) in
  let p := TCP {| tcp_host := ip_address; tcp_port := 502;
                  tcp_slave_id := slave_id; tcp_timeout := timeout |} in
  let opened := env_open env (clock w) p in
  let scanned := bool_decide (is_Some (env_scan env (clock w + 1))) in
  result_of res = Ok (opened && scanned) ∧
  (∀ id ok, EvRead id ok ∈ Δ → id ∈ [1; 103; 113; 160]) ∧
  (opened && scanned = true →
     device (state_after res) = None ∧ is_connected (state_after res) = false ∧
     ∃ Δ1 ok lvl, Δ = Δ1 ++ [EvClose ok; EvLog lvl] ∧ ∀ ok', EvClose ok' ∉ Δ1) ∧
  (opened && scanned = false →
     (∀ ok, EvClose ok ∉ Δ) ∧ (∀ id ok, EvRead id ok ∉ Δ)).
Proof.
  cbv zeta.
  destruct (test_sunspec_connection_run ip_address slave_id timeout w)
    as (c' & w' & Δ & -> & Htrace & Hrest).
  unfold result_of, state_after, world_after. simpl.
  by rewrite (events_since_app _ _ _ Htrace).
Qed.

End Probes.

Section Writing.
Variable has_cvalue : PointObj → bool.
Variable device_write : Z → Z → bool.

Lemma find_point_update point_name f pts :
  find_point point_name (update_point point_name f pts) = f <$> find_point point_name pts.
Proof.
  induction pts as [|[n p] pts IH]; simpl; [done|].
  destruct (decide (n = point_name)) as [->|Hne]; simpl.
  - by rewrite decide_True.
  - by rewrite decide_False.
Qed.

(** X18.  [write_point] raises [SunSpecDeviceError] on a client that is
    not connected or has no device, changing nothing; on any other client
    it returns a boolean and never raises.  The boolean is [True] exactly
    when the first instance of the model has the point and the device write
    succeeded.  When the model, its first instance or the point is missing,
    the client is left as it was.  When the point is there, the new value
    is assigned to the point of the client's model object before the device
    is written, and stays assigned when the device write fails: then the
    client holds a value that the device does not have.  The registry, the
    cached data and the connected flag are never changed. *)
Theorem write_point_assigns_before_writing model_id point_name v c w :
  let res := write_point has_cvalue device_write model_id point_name v c w in
  let c' := state_after res in
  let Δ := events_since w (world_after res) in
  (is_connected c = false ∨ device c = None →
     res = (Raise SunSpecDeviceError, c, w)) ∧
  (∀ d, is_connected c = true → device c = Some d →
     let found := ∃ model rest pts p,
       dev_models d !! inl model_id = Some (model :: rest) ∧ points model = Some pts ∧
       find_point point_name pts = Some p in
     ∃ b, result_of res = Ok b ∧
          Δ = [EvLog (if b then INFO else ERROR)] ∧
          (b = true ↔ found ∧ device_write (clock w) model_id = true) ∧
          (¬ found → c' = c) ∧
          (∀ model rest pts p,
             dev_models d !! inl model_id = Some (model :: rest) → points model = Some pts →
             find_point point_name pts = Some p →
             ∃ d' model' pts',
               device c' = Some d' ∧ dev_models d' !! inl model_id = Some (model' :: rest) ∧
               points model' = Some pts' ∧
               find_point point_name pts' = Some (assign_point has_cvalue v p))) ∧
  is_connected c' = is_connected c ∧
  available_models c' = available_models c ∧
  cached_data c' = cached_data c.
Proof.
  simpl. unfold write_point, model_write. do 2 munfold. simpl.
  destruct (is_connected c) eqn:Hc; simpl.
  2:{ unfold state_after. simpl. split_and!; try done. }
  destruct (device c) as [d|] eqn:Hd; simpl.
  2:{ unfold state_after. simpl. split_and!; try done. }
  destruct (dev_models d !! inl model_id) as [[|model rest]|] eqn:Hm; simpl.
  1,3: (unfold result_of, state_after, world_after; simpl;
        split_and!; try done; [by intros [?|?]|];
        intros d0 _ [= <-]; exists false; split_and!; try done;
        [by apply events_since_app
        |split; [done|]; intros [(? & ? & ? & ? & ? & _) _]; congruence
        |intros; congruence]).
  destruct (points model) as [pts|] eqn:Hpts; simpl.
  2:{ unfold result_of, state_after, world_after; simpl.
      split_and!; try done; [by intros [?|?]|].
      intros d0 _ [= <-]. exists false. split_and!; try done.
      - by apply events_since_app.
      - split; [done|]. intros [(? & ? & ? & ? & ? & ? & _) _]. congruence.
      - intros; congruence. }
  destruct (find_point point_name pts) as [p|] eqn:Hp; simpl.
  2:{ unfold result_of, state_after, world_after; simpl.
      split_and!; try done; [by intros [?|?]|].
      intros d0 _ [= <-]. exists false. split_and!; try done.
      - by apply events_since_app.
      - split; [done|]. intros [(? & ? & ? & ? & ? & ? & ?) _]. congruence.
      - intros; congruence. }
  destruct (device_write (clock w) model_id) eqn:Hw; simpl;
    unfold result_of, state_after, world_after; simpl;
    (split_and!; try done; [by intros [?|?]|]);
    intros d0 _ [= <-]; eexists; (split; [reflexivity|]); split_and!.
  - by apply events_since_app.
  - split; [intros _|done]. split; [|done]. by eexists _, _, _, _.
  - intros Hno. destruct Hno. by eexists _, _, _, _.
  - intros model0 rest0 pts0 p0 ? ? ?. simplify_eq.
    eexists _, _, _. split_and!; [done|apply lookup_insert_eq|done|].
    by rewrite find_point_update, Hp.
  - by apply events_since_app.
  - split; [done|]. by intros [_ ?].
  - intros Hno. destruct Hno. by eexists _, _, _, _.
  - intros model0 rest0 pts0 p0 ? ? ?. simplify_eq.
    eexists _, _, _. split_and!; [done|apply lookup_insert_eq|done|].
    by rewrite find_point_update, Hp.
Qed.

End Writing.

(** * The further properties on concrete installations *)

(** X1 on a configuration that names the serial line and has no RTU
    section: it passes the validator, and [connect] opens nothing. *)
Lemma validated_config_opens_named_section_witness :
  InverterConfig_new "rtu" (Some Installations.tcp_section) None
    = Some (inverter Installations.cfg_rtu_missing) ∧
  ¬ ∃ p ok, EvOpen p ok ∈
      events_since Scenario.w0
        (world_after (connect Scenario.env (SunSpecClient_init Installations.cfg_rtu_missing)
                        Scenario.w0)).
Proof.
  assert (Hnew : InverterConfig_new "rtu" (Some Installations.tcp_section) None
                 = Some (inverter Installations.cfg_rtu_missing)) by reflexivity.
  split; [exact Hnew|].
  destruct (validated_config_opens_named_section Scenario.env "rtu"
              (Some Installations.tcp_section) None (inverter Installations.cfg_rtu_missing)
              (SunSpecClient_init Installations.cfg_rtu_missing) Scenario.w0 Hnew eq_refl)
    as [_ Hiff].
  intros Hopen. apply Hiff in Hopen as [[Hk _]|[_ [x Hx]]]; discriminate.
Defined.

(** X2 on the serial installation: GET /config fails. *)
Lemma get_config_needs_tcp_section_witness :
  tcp (inverter (gw_config (SunSpecGateway_init Installations.cfg_serial))) = None ∧
  status_code_of (result_of (get_config (SunSpecGateway_init Installations.cfg_serial) Scenario.w0))
  = Some 500.
Proof.
  split; [reflexivity|].
  destruct (get_config_needs_tcp_section (SunSpecGateway_init Installations.cfg_serial) Scenario.w0)
    as (_ & _ & _ & H & _).
  apply H. reflexivity.
Defined.

(** X3 on the installation after the first poll cycle: there is a last
    poll, and it is the time of an entry. *)
Lemma health_check_last_poll_witness :
  ∃ h t, result_of (health_check Scenario.g2 Scenario.w2) = Ok h ∧
         h_last_poll h = Some t ∧
         ∃ k rd, last_data Scenario.g2 !! k = Some rd ∧ r_timestamp rd = t.
Proof.
  destruct (health_check_last_poll Scenario.g2 Scenario.w2)
    as (_ & _ & h & Hres & _ & _ & _ & Hlast).
  assert (Ht : h_last_poll h = Some 4).
  { vm_compute in Hres. injection Hres as <-. reflexivity. }
  exists h, 4. split_and!; [exact Hres|exact Ht|]. apply (Hlast 4 Ht).
Defined.

(** X4 on the installation: the power of the inverter model is reported
    scaled. *)
Lemma read_model_prefers_scaled_value_witness :
  ∃ rd, result_of (read_model Scenario.env 101 (client Scenario.g1) Scenario.w1)
          = Ok (ReadingDict rd) ∧
        r_points rd !! "W" = Some (PVal (PyInt 20)).
Proof.
  destruct (read_model_prefers_scaled_value Scenario.env 101 (client Scenario.g1) Scenario.w1
              {| dev_params := Scenario.transport; dev_models := Scenario.scanned |}
              (Scenario.inverter_model 0) [] (Scenario.inverter_model 2)
              [("W", {| value := Some (PyInt 2); cvalue := Some (PyInt 20) |})]
              "W" {| value := Some (PyInt 2); cvalue := Some (PyInt 20) |})
    as (rd & Hres & Hp & _).
  - vm_compute. reflexivity.
  - vm_compute. reflexivity.
  - vm_compute. reflexivity.
  - reflexivity.
  - apply NoDup_singleton.
  - apply list_elem_of_here.
  - intros gs Hgs. discriminate Hgs.
  - exists rd. split; [exact Hres|exact Hp].
Defined.

(** X5 on the installation: connected, so the route answers 200. *)
Lemma get_device_info_route_status_witness :
  gw_is_connected Scenario.g1 = true ∧
  ∃ info, result_of (get_device_info_route Scenario.env Scenario.g1 Scenario.w1) = Ok info.
Proof.
  assert (Hc : gw_is_connected Scenario.g1 = true) by (vm_compute; reflexivity).
  split; [exact Hc|].
  destruct (get_device_info_route_status Scenario.env Scenario.g1 Scenario.w1) as (_ & H & _).
  destruct (H Hc) as (info & Hres & _). exists info. exact Hres.
Defined.

(** X6 on the installation: a model the device does not have. *)
Lemma get_model_data_bypasses_caches_witness :
  gw_is_connected Scenario.g2 = true ∧
  ∃ r, result_of (get_model_data Scenario.env 999 Scenario.g2 Scenario.w2) = Ok r ∧
       mr_points r = EmptyDict.
Proof.
  assert (Hc : gw_is_connected Scenario.g2 = true) by (vm_compute; reflexivity).
  split; [exact Hc|].
  destruct (get_model_data_bypasses_caches Scenario.env 999 Scenario.g2 Scenario.w2)
    as (_ & _ & _ & _ & _ & _ & _ & _ & _ & H).
  destruct (H Hc) as (r & Hres & _ & _ & Hempty). exists r. split; [exact Hres|].
  apply Hempty. vm_compute. intros Hin. elem_cases Hin.
Defined.

(** X7 on the installation: the device is closed once. *)
Lemma disconnect_is_idempotent_witness :
  is_Some (device (client Scenario.g2)) ∧
  ∃ ok lvl, events_since Scenario.w2
              (world_after (disconnect Scenario.env (client Scenario.g2) Scenario.w2))
            = [EvClose ok; EvLog lvl].
Proof.
  assert (Hd : is_Some (device (client Scenario.g2))) by (vm_compute; by eexists).
  split; [exact Hd|].
  destruct (disconnect_is_idempotent Scenario.env (client Scenario.g2) Scenario.w2)
    as (_ & H & _).
  exact (H Hd).
Defined.

(** X8 on the device of the installation: the probe succeeds and leaves no
    device object. *)
Lemma test_sunspec_on_ip_closes_on_success_witness :
  result_of (test_sunspec_on_ip Scenario.env "192.168.1.50" Scenario.w0) = Ok true ∧
  device (state_after (test_sunspec_on_ip Scenario.env "192.168.1.50" Scenario.w0)) = None.
Proof.
  destruct (test_sunspec_on_ip_closes_on_success Scenario.env "192.168.1.50" Scenario.w0)
    as (Hres & H & _).
  split; [exact Hres|]. apply H. reflexivity.
Defined.

(** X9 on the installation: the polling task has ended after [shutdown]. *)
Lemma shutdown_awaits_before_closing_witness :
  polling_task Scenario.g2 = Some 0%nat ∧
  tasks Scenario.w2 !! 0%nat = Some (Suspended InIntervalSleep false) ∧
  ∃ c, tasks (world_after (shutdown Scenario.env Scenario.g2 Scenario.w2)) !! 0%nat
       = Some (Finished c).
Proof.
  assert (Hp : polling_task Scenario.g2 = Some 0%nat) by (vm_compute; reflexivity).
  assert (Ht : tasks Scenario.w2 !! 0%nat = Some (Suspended InIntervalSleep false))
    by (vm_compute; reflexivity).
  split_and!; [exact Hp|exact Ht|].
  destruct (shutdown_awaits_before_closing Scenario.env Scenario.g2 Scenario.w2)
    as (_ & _ & _ & _ & _ & _ & _ & H).
  destruct (H 0%nat Hp) as (Hdone & _). exact (Hdone _ Ht).
Defined.

(** X10 on the installation: the second [shutdown] emits no close. *)
Lemma second_shutdown_is_harmless_witness :
  let r1 := shutdown Scenario.env Scenario.g2 Scenario.w2 in
  let r2 := shutdown Scenario.env (state_after r1) (world_after r1) in
  EvAwaitTask 0 ∈ events_since (world_after r1) (world_after r2) ∧
  ∀ ok, EvClose ok ∉ events_since (world_after r1) (world_after r2).
Proof.
  cbv zeta. split; [vm_compute; elem_in|].
  destruct (second_shutdown_is_harmless Scenario.env Scenario.g2 Scenario.w2)
    as (_ & _ & _ & _ & H).
  intros ok Hin. destruct (H _ Hin) as [[lvl Hl]|(tid & _ & [Hc|Ha])]; discriminate.
Defined.

(** X11 on the installation: [startup] connects and starts task 0. *)
Lemma startup_polls_iff_connected_witness :
  is_connected (client (state_after (startup Scenario.env Scenario.g0 Scenario.w0))) = true ∧
  polling_task (state_after (startup Scenario.env Scenario.g0 Scenario.w0)) = Some 0%nat.
Proof.
  assert (Hc : is_connected (client (state_after (startup Scenario.env Scenario.g0 Scenario.w0)))
               = true) by (vm_compute; reflexivity).
  split; [exact Hc|].
  destruct (startup_polls_iff_connected Scenario.env Scenario.g0 Scenario.w0)
    as (_ & _ & _ & _ & H & _).
  destruct (H Hc) as (_ & Ht & _). exact Ht.
Defined.

(** X12 after the failed reconnect of the installation polled every 5
    seconds: three runs of the polling task change nothing. *)
Lemma polling_never_reconnects_witness :
  is_connected (client Scenario.g5) = false ∧
  state_after (run_cycles Scenario.env_scan_once 0 3 Scenario.g5 Scenario.w5) = Scenario.g5.
Proof.
  assert (Hc : is_connected (client Scenario.g5) = false) by (vm_compute; reflexivity).
  split; [exact Hc|].
  destruct (polling_never_reconnects Scenario.env_scan_once 0 3 Scenario.g5 Scenario.w5)
    as (_ & _ & _ & _ & H).
  destruct (H (or_introl Hc)) as [Hsame _]. exact Hsame.
Defined.

(** X13 on the installation: after POST /device/disconnect, three runs of
    task 0 emit only its end. *)
Lemma disconnect_device_stops_polling_witness :
  let r := disconnect_device Scenario.env Scenario.g2 Scenario.w2 in
  polling_task Scenario.g2 = Some 0%nat ∧
  tasks Scenario.w2 !! 0%nat = Some (Suspended InIntervalSleep false) ∧
  events_since (world_after r)
    (world_after (run_cycles Scenario.env 0 3 (state_after r) (world_after r)))
  = [EvTaskDone 0].
Proof.
  assert (Hp : polling_task Scenario.g2 = Some 0%nat) by (vm_compute; reflexivity).
  assert (Ht : tasks Scenario.w2 !! 0%nat = Some (Suspended InIntervalSleep false))
    by (vm_compute; reflexivity).
  cbv zeta. split_and!; [exact Hp|exact Ht|].
  destruct (disconnect_device_stops_polling Scenario.env Scenario.g2 Scenario.w2 0
              InIntervalSleep 2 Hp Ht) as (_ & _ & _ & _ & _ & _ & _ & _ & Hev & _).
  exact Hev.
Defined.

(** X14 on the installation: the entry of model 1 written in the first
    cycle is still served after a disconnect and a reconnect. *)
Lemma snapshot_never_regresses_witness :
  ∃ rd rd',
    last_data (serve Scenario.env Scenario.requests Scenario.g0 Scenario.w0).1 !! "model_1"
      = Some rd ∧
    last_data (serve Scenario.env (Scenario.requests ++ [ReqDisconnect; ReqConnect])
                 Scenario.g0 Scenario.w0).1 !! "model_1" = Some rd' ∧
    r_timestamp rd ≤ r_timestamp rd'.
Proof.
  destruct (snapshot_never_regresses Scenario.env Scenario.cfg Scenario.w0 Scenario.requests
              [ReqDisconnect; ReqConnect]) as [_ Hadv].
  assert (Hrd : ∃ rd,
    last_data (serve Scenario.env Scenario.requests Scenario.g0 Scenario.w0).1 !! "model_1"
      = Some rd) by (vm_compute; by eexists).
  destruct Hrd as [rd Hrd].
  destruct (Hadv "model_1" rd Hrd) as (rd' & Hrd' & Hle).
  exists rd, rd'. split_and!; [exact Hrd|exact Hrd'|exact Hle].
Defined.

(** X15 on the installation: after a disconnect and a connect, task 1 is
    the live polling task and the gateway holds its handle. *)
Lemma at_most_one_live_poller_witness :
  let w := (serve Scenario.env (ReqStartup :: Installations.reconnect) Scenario.g0 Scenario.w0).2 in
  let g := (serve Scenario.env (ReqStartup :: Installations.reconnect) Scenario.g0 Scenario.w0).1 in
  tasks Scenario.w0 = [] ∧ no_startup Installations.reconnect ∧
  tasks w !! 0%nat = Some (Finished false) ∧
  (∃ t, tasks w !! 1%nat = Some t ∧ live t = true) ∧
  polling_task g = Some 1%nat.
Proof.
  assert (Hno : no_startup Installations.reconnect).
  { intros Hin. elem_cases Hin. }
  assert (Ht : ∃ t, tasks (serve Scenario.env (ReqStartup :: Installations.reconnect)
                             Scenario.g0 Scenario.w0).2 !! 1%nat = Some t ∧ live t = true).
  { vm_compute. by eexists. }
  cbv zeta. split_and!; [reflexivity|exact Hno|vm_compute; reflexivity|exact Ht|].
  destruct Ht as (t & Ht & Hl).
  destruct (at_most_one_live_poller Scenario.env Scenario.cfg Scenario.w0 Installations.reconnect
              eq_refl Hno) as (H & _).
  exact (H 1%nat t Ht Hl).
Defined.

(** X17 on the device of the installation: the test succeeds and leaves
    no device object. *)
Lemma test_sunspec_connection_closes_on_success_witness :
  result_of (test_sunspec_connection Scenario.env "192.168.1.50" 1 10 Scenario.w0) = Ok true ∧
  device (state_after (test_sunspec_connection Scenario.env "192.168.1.50" 1 10 Scenario.w0))
  = None.
Proof.
  destruct (test_sunspec_connection_closes_on_success Scenario.env "192.168.1.50" 1 10
              Scenario.w0) as (Hres & _ & H & _).
  split; [exact Hres|]. apply H. reflexivity.
Defined.

(** X18 on the installation with a device that refuses the write: the
    answer is [False], and the client's point holds the new value. *)
Lemma write_point_assigns_before_writing_witness :
  let res := write_point Installations.has_cvalue Installations.device_write 101 "W"
               (Some (PyInt 5)) (client Scenario.g1) Scenario.w1 in
  result_of res = Ok false ∧
  ∃ d' model' rest pts',
    device (state_after res) = Some d' ∧
    dev_models d' !! inl 101 = Some (model' :: rest) ∧ points model' = Some pts' ∧
    find_point "W" pts' = Some {| value := Some (PyInt 0); cvalue := Some (PyInt 5) |}.
Proof.
  cbv zeta.
  destruct (write_point_assigns_before_writing Installations.has_cvalue
              Installations.device_write 101 "W" (Some (PyInt 5)) (client Scenario.g1)
              Scenario.w1) as (_ & H & _).
  destruct (H {| dev_params := Scenario.transport; dev_models := Scenario.scanned |})
    as (b & Hres & _ & Hiff & _ & Hset).
  - vm_compute. reflexivity.
  - vm_compute. reflexivity.
  - assert (Hb : b = false).
    { destruct b; [|reflexivity]. destruct Hiff as [Hiff _].
      destruct (Hiff eq_refl) as [_ Hw]. discriminate Hw. }
    subst b. split; [exact Hres|].
    destruct (Hset (Scenario.inverter_model 0) []
                [("W", {| value := Some (PyInt 0); cvalue := Some (PyInt 0) |})]
                {| value := Some (PyInt 0); cvalue := Some (PyInt 0) |})
      as (d' & model' & pts' & H1 & H2 & H3 & H4); [vm_compute; reflexivity|reflexivity|reflexivity|].
    exists d', model', [], pts'. split_and!; [exact H1|exact H2|exact H3|exact H4].
Defined.
